(** * terraform-provider-turingpi: image cache, download and flash dispatch

    A shallow embedding of the Go packages
      - [internal/client]  (cache.go, download.go, client.go),
      - [internal/resources/node_flash] (executeFlash),
      - [internal/resources/node_flash] (Create / Read / Update),
      - [internal/resources/node_power] and [node_usb] (Create / Read / Update),
      - [internal/datasources/power_status] and [usb_status] (Read),
      - [internal/provider] (Configure),
    over an explicit model of the things those packages talk to: the local
    file system, the HTTP server behind an image URL, and the BMC reached
    through the tpi client library.

    Go functions that return [(value, error)] are embedded as computations
    returning [res value]; every call of an external primitive is recorded
    as an [Event], so that "how many uploads", "which flash operation, on
    which path" are statements about the list of events of a run. *)

From Stdlib Require Import ZArith NArith List String Ascii Bool Lia.
From stdpp Require Import base option gmap strings list fin_maps pretty.

Open Scope string_scope.
Open Scope Z_scope.

(* ===================================================================== *)
(** ** Go's [strings] package, on byte strings                            *)
(* ===================================================================== *)

Module strings.

(** [strings.ToLower], restricted to the ASCII letters; bytes outside
    ['A'..'Z'] are left as they are. *)
Definition lower_ascii (c : ascii) : ascii :=
  let n := nat_of_ascii c in
  if ((65 <=? n) && (n <=? 90))%nat then ascii_of_nat (n + 32) else c.

Fixpoint ToLower (s : string) : string :=
  match s with
  | EmptyString => EmptyString
  | String c r => String (lower_ascii c) (ToLower r)
  end.

Definition HasPrefix (s pre : string) : bool := String.prefix pre s.

Definition HasSuffix (s suf : string) : bool :=
  let n := String.length s in
  let m := String.length suf in
  ((m <=? n)%nat && String.eqb (String.substring (n - m) m s) suf).

Fixpoint Contains (s sub : string) : bool :=
  String.prefix sub s ||
  match s with
  | EmptyString => false
  | String _ r => Contains r sub
  end.

(** [strings.TrimSuffix(s, suf)]: [s] without the trailing [suf], or [s]
    itself when it does not end in [suf]. *)
Definition TrimSuffix (s suf : string) : string :=
  if HasSuffix s suf
  then String.substring 0 (String.length s - String.length suf) s
  else s.

(** The Go slice expression [s[:n]]: [None] stands for the run-time panic
    "slice bounds out of range" raised when [n > len(s)]. *)
Definition slice_to (s : string) (n : nat) : option string :=
  if (n <=? String.length s)%nat then Some (String.substring 0 n s) else None.

End strings.

(* ===================================================================== *)
(** ** Go's [path/filepath] package (Unix flavour)                        *)
(* ===================================================================== *)

Module filepath.

(** Splitting on the separator ['/']; the segments of ["/a//b"] are
    [""; "a"; ""; "b"]. *)
Fixpoint segments_go (cur : string) (s : string) : list string :=
  match s with
  | EmptyString => [String.rev cur]
  | String c r =>
      if Ascii.eqb c "/" then String.rev cur :: segments_go "" r
      else segments_go (String c cur) r
  end.

Definition segments (s : string) : list string := segments_go "" s.

Fixpoint join_with_sep (l : list string) : string :=
  match l with
  | [] => ""
  | [x] => x
  | x :: r => x ++ "/" ++ join_with_sep r
  end.

(** One pass of [Clean] over the segments, [out] being the stack of kept
    segments (most recent first). *)
Fixpoint clean_go (rooted : bool) (out : list string) (l : list string)
  : list string :=
  match l with
  | [] => List.rev out
  | seg :: r =>
      if String.eqb seg "" || String.eqb seg "." then clean_go rooted out r
      else if String.eqb seg ".." then
        match out with
        | top :: out' =>
            if String.eqb top ".." then clean_go rooted (seg :: out) r
            else clean_go rooted out' r
        | [] =>
            if rooted then clean_go rooted out r
            else clean_go rooted (seg :: out) r
        end
      else clean_go rooted (seg :: out) r
  end.

Definition Clean (p : string) : string :=
  if String.eqb p "" then "."
  else
    let rooted := strings.HasPrefix p "/" in
    let body := join_with_sep (clean_go rooted [] (segments p)) in
    if rooted then "/" ++ body
    else if String.eqb body "" then "." else body.

(** [filepath.Join]: empty elements are ignored, the rest is joined with
    the separator and cleaned; the result is empty when nothing is left. *)
Definition Join (elems : list string) : string :=
  match List.filter (fun e => negb (String.eqb e "")) elems with
  | [] => ""
  | l => Clean (join_with_sep l)
  end.

(** [filepath.Base]: the last element of the path, after removing
    trailing separators. *)
Definition Base (p : string) : string :=
  if String.eqb p "" then "."
  else
    match List.filter (fun e => negb (String.eqb e "")) (segments p) with
    | [] => "/"
    | l => List.last l ""
    end.

End filepath.

(* ===================================================================== *)
(** ** Go's [crypto/sha256] and [encoding/hex]                            *)
(* ===================================================================== *)

(** SHA-256 as in FIPS 180-4, on 32-bit words kept as [N] with the
    wrap-around written out. [calculateSHA256] in download.go streams the
    file through [sha256.New()] and hex-encodes the sum. *)
Module sha256.
Local Open Scope N_scope.

Definition w32 (x : N) : N := N.land x 0xFFFFFFFF.
Definition add32 (x y : N) : N := w32 (x + y).
Definition not32 (x : N) : N := N.lxor (w32 x) 0xFFFFFFFF.
Definition rotr (n x : N) : N :=
  w32 (N.lor (N.shiftr x n) (N.shiftl x (32 - n))).

Definition Ch (x y z : N) := N.lxor (N.land x y) (N.land (not32 x) z).
Definition Maj (x y z : N) :=
  N.lxor (N.lxor (N.land x y) (N.land x z)) (N.land y z).
Definition Sigma0 x := N.lxor (N.lxor (rotr 2 x) (rotr 13 x)) (rotr 22 x).
Definition Sigma1 x := N.lxor (N.lxor (rotr 6 x) (rotr 11 x)) (rotr 25 x).
Definition sigma0 x := N.lxor (N.lxor (rotr 7 x) (rotr 18 x)) (N.shiftr x 3).
Definition sigma1 x := N.lxor (N.lxor (rotr 17 x) (rotr 19 x)) (N.shiftr x 10).

(** The constants are not written out: FIPS 180-4 defines them as the
    first 32 bits of the fractional parts of the cube roots (round
    constants) and of the square roots (initial hash value) of the first 64
    and the first 8 primes. *)
Definition is_prime (n : N) : bool :=
  (1 <? n) && forallb (fun d => negb (n mod d =? 0))
                      (List.map N.of_nat (seq 2 (N.to_nat n - 2))).

Definition primes : list N :=
  List.filter is_prime (List.map N.of_nat (seq 2 310)).

(** The integer cube root below [2 ^ bits], one bit at a time. *)
Fixpoint icbrt (bits : nat) (n r : N) : N :=
  match bits with
  | O => r
  | S b =>
      let r' := r + N.shiftl 1 (N.of_nat b) in
      icbrt b n (if r' * r' * r' <=? n then r' else r)
  end.

Definition K : list N :=
  List.map (fun p => w32 (icbrt 40 (N.shiftl p 96) 0)) primes.

(** The eight working variables / chaining values. *)
Record state := State { sa : N; sb : N; sc : N; sd : N;
                        se : N; sf : N; sg : N; sh : N }.

Definition frac_sqrt (i : nat) : N :=
  w32 (N.sqrt (N.shiftl (nth i primes 0) 64)).

Definition init : state :=
  State (frac_sqrt 0) (frac_sqrt 1) (frac_sqrt 2) (frac_sqrt 3)
        (frac_sqrt 4) (frac_sqrt 5) (frac_sqrt 6) (frac_sqrt 7).

(** The message schedule is kept as a sliding window of sixteen words:
    the head is [W_t], and the word pushed at the back is [W_(t+16)]. *)
Definition next_word (win : list N) : N :=
  add32 (add32 (sigma1 (nth 14 win 0)) (nth 9 win 0))
        (add32 (sigma0 (nth 1 win 0)) (nth 0 win 0)).

Definition round (acc : state * list N) (k : N) : state * list N :=
  let '(s, win) := acc in
  let wt := nth 0 win 0 in
  let t1 := add32 (add32 (add32 (sh s) (Sigma1 (se s)))
                         (add32 (Ch (se s) (sf s) (sg s)) k)) wt in
  let t2 := add32 (Sigma0 (sa s)) (Maj (sa s) (sb s) (sc s)) in
  (State (add32 t1 t2) (sa s) (sb s) (sc s)
         (add32 (sd s) t1) (se s) (sf s) (sg s),
   (List.tl win ++ [next_word win])%list).

Definition compress (s : state) (block : list N) : state :=
  let s' := fst (fold_left round K (s, block)) in
  State (add32 (sa s) (sa s')) (add32 (sb s) (sb s'))
        (add32 (sc s) (sc s')) (add32 (sd s) (sd s'))
        (add32 (se s) (se s')) (add32 (sf s) (sf s'))
        (add32 (sg s) (sg s')) (add32 (sh s) (sh s')).

(** Big-endian bytes of [x], [n] of them. *)
Fixpoint be_bytes (n : nat) (x : N) : list N :=
  match n with
  | O => []
  | S n' => N.land (N.shiftr x (8 * N.of_nat n')) 0xFF :: be_bytes n' x
  end.

Definition pad (msg : list N) : list N :=
  let len := N.of_nat (List.length msg) in
  let zeros := N.to_nat ((64 - (len + 9) mod 64) mod 64) in
  (msg ++ [0x80] ++ List.repeat 0 zeros ++ be_bytes 8 (8 * len))%list.

Fixpoint words (fuel : nat) (bytes : list N) : list N :=
  match fuel, bytes with
  | S f, b0 :: b1 :: b2 :: b3 :: r =>
      (N.shiftl b0 24 + N.shiftl b1 16 + N.shiftl b2 8 + b3) :: words f r
  | _, _ => []
  end.

Fixpoint blocks (fuel : nat) (ws : list N) : list (list N) :=
  match fuel, ws with
  | S f, _ :: _ => firstn 16 ws :: blocks f (skipn 16 ws)
  | _, _ => []
  end.

Definition bytes_of_string (s : string) : list N :=
  List.map N_of_ascii (list_ascii_of_string s).

Definition sum (data : string) : state :=
  let bytes := pad (bytes_of_string data) in
  let ws := words (List.length bytes) bytes in
  fold_left compress (blocks (List.length ws) ws) init.

Definition hex_digit (x : N) : ascii :=
  let d := N.land x 0xF in
  ascii_of_N (if d <? 10 then 48 + d else 87 + d).

Definition hex32 (x : N) : string :=
  String (hex_digit (N.shiftr x 28)) (String (hex_digit (N.shiftr x 24))
 (String (hex_digit (N.shiftr x 20)) (String (hex_digit (N.shiftr x 16))
 (String (hex_digit (N.shiftr x 12)) (String (hex_digit (N.shiftr x 8))
 (String (hex_digit (N.shiftr x 4)) (String (hex_digit x) "")))))))%string.

(** [hex.EncodeToString(hash.Sum(nil))]. *)
Definition hex_of_state (s : state) : string :=
  (hex32 (sa s) ++ hex32 (sb s) ++ hex32 (sc s) ++ hex32 (sd s) ++
   hex32 (se s) ++ hex32 (sf s) ++ hex32 (sg s) ++ hex32 (sh s))%string.

Definition hex (data : string) : string := hex_of_state (sum data).

End sha256.

(* ===================================================================== *)
(** ** Go values: errors, results, Terraform attribute values             *)
(* ===================================================================== *)

Inductive errno := ENOENT | EIO (msg : string).

(** The [error] values that occur in the program. [fmt.Errorf] with a
    [%w] verb keeps the wrapped error; without it only the text. *)
Inductive error :=
  | PathError (op path : string) (e : errno)   (* *fs.PathError of package os *)
  | LibError (msg : string)                    (* net/http, io, xz, gzip, zip, tpi *)
  | RemoteNotFound (path : string)             (* tpi: no such file on the BMC *)
  | Errorf (msg : string)
  | Wrapf (msg : string) (inner : error).

(** [err.Error()]. *)
Fixpoint error_string (e : error) : string :=
  match e with
  | PathError op path ENOENT => op ++ " " ++ path ++ ": no such file or directory"
  | PathError op path (EIO m) => op ++ " " ++ path ++ ": " ++ m
  | LibError m => m
  | RemoteNotFound p => "file does not exist: " ++ p
  | Errorf m => m
  | Wrapf m inner => m ++ error_string inner
  end.

Inductive res (A : Type) := Ok (a : A) | Err (e : error).
Arguments Ok {A} a.
Arguments Err {A} e.

(** Terraform framework attribute values ([types.String], [types.Int64],
    [types.Bool]): null, unknown or known. *)
Inductive tfval (A : Type) := Null | Unknown | Known (a : A).
Arguments Null {A}.
Arguments Unknown {A}.
Arguments Known {A} a.

Definition IsNull {A} (v : tfval A) : bool :=
  match v with Null => true | _ => false end.
Definition ValueString (v : tfval string) : string :=
  match v with Known s => s | _ => "" end.
Definition ValueInt64 (v : tfval Z) : Z :=
  match v with Known n => n | _ => 0 end.
Definition ValueBool (v : tfval bool) : bool :=
  match v with Known b => b | _ => false end.

Inductive Severity := SeverityError | SeverityWarning.
Record Diagnostic := { severity : Severity; summary : string; detail : string }.

Definition HasError (ds : list Diagnostic) : bool :=
  existsb (fun d => match severity d with SeverityError => true | _ => false end) ds.
Definition AddError (ds : list Diagnostic) (s d : string) : list Diagnostic :=
  (ds ++ [{| severity := SeverityError; summary := s; detail := d |}])%list.

(* ===================================================================== *)
(** ** The world outside the provider                                     *)
(* ===================================================================== *)

Record Response := { StatusCode : Z; ContentType : string; Body : string }.

(** The data types of the tpi client library
    (github.com/davidroman0O/tpi/client). *)
Module tpi.
Record UsbStatusInfo := { Mode : string; Node : string; Route : string }.
Record FileInfo := { Name : string; Size : Z }.
Record FlashOptions := { ImagePath : string; SHA256 : string; SkipCRC : bool }.
End tpi.

(** What a run can observe and change:
    - [w_home]: the user's home directory, if one is defined;
    - [w_fs]: the regular files of the local file system, path to content
      (directories are not tracked: their parents are taken to exist);
    - [w_tmp]: the counter behind the names [os.MkdirTemp] hands out;
    - [w_http]: what a GET of each URL answers;
    - [w_bmc]: the directories of the BMC, each with its files;
    - [w_power], [w_usb]: the state of the nodes' power and of the USB mux;
    - [w_faults]: the schedule of injected failures. Each fallible external
      call consumes the head of the schedule; [Some m] makes that call fail
      with message [m] and without effect, [None] (or an exhausted
      schedule) lets it behave as the state dictates. *)
Record World := {
  w_home : option string;
  w_fs : gmap string string;
  w_tmp : N;
  w_http : gmap string Response;
  w_bmc : gmap string (gmap string string);
  w_power : gmap Z bool;
  w_usb : tpi.UsbStatusInfo;
  w_faults : list (option string);
}.

Definition set_fs (f : gmap string string) (w : World) : World :=
  {| w_home := w_home w; w_fs := f; w_tmp := w_tmp w; w_http := w_http w;
     w_bmc := w_bmc w; w_power := w_power w; w_usb := w_usb w;
     w_faults := w_faults w |}.
Definition set_tmp (n : N) (w : World) : World :=
  {| w_home := w_home w; w_fs := w_fs w; w_tmp := n; w_http := w_http w;
     w_bmc := w_bmc w; w_power := w_power w; w_usb := w_usb w;
     w_faults := w_faults w |}.
Definition set_bmc (b : gmap string (gmap string string)) (w : World) : World :=
  {| w_home := w_home w; w_fs := w_fs w; w_tmp := w_tmp w; w_http := w_http w;
     w_bmc := b; w_power := w_power w; w_usb := w_usb w;
     w_faults := w_faults w |}.
Definition set_power (p : gmap Z bool) (w : World) : World :=
  {| w_home := w_home w; w_fs := w_fs w; w_tmp := w_tmp w; w_http := w_http w;
     w_bmc := w_bmc w; w_power := p; w_usb := w_usb w;
     w_faults := w_faults w |}.
Definition set_usb (u : tpi.UsbStatusInfo) (w : World) : World :=
  {| w_home := w_home w; w_fs := w_fs w; w_tmp := w_tmp w; w_http := w_http w;
     w_bmc := w_bmc w; w_power := w_power w; w_usb := u;
     w_faults := w_faults w |}.
Definition set_faults (l : list (option string)) (w : World) : World :=
  {| w_home := w_home w; w_fs := w_fs w; w_tmp := w_tmp w; w_http := w_http w;
     w_bmc := w_bmc w; w_power := w_power w; w_usb := w_usb w;
     w_faults := l |}.

(** The source of an [io.Copy]. *)
Inductive Reader :=
  | FileReader (path : string)                 (* an *os.File opened for reading *)
  | StreamReader (data : string) (ok : bool).  (* a stream: its bytes, and whether
                                                  it ends cleanly or in an error *)

Inductive LogLevel := LevelInfo | LevelWarn.
Inductive logval := LStr (s : string) | LInt (n : Z).

(** One entry per call of an external primitive. *)
Inductive Event :=
  | EvUserHomeDir
  | EvMkdirAll (path : string)
  | EvMkdirTemp (pattern : string)
  | EvStat (path : string)
  | EvOpen (path : string)
  | EvCreate (path : string)
  | EvCopy (dst : string) (src : Reader)
  | EvHashFile (path : string)
  | EvRemove (path : string)
  | EvHttpGet (url : string)
  | EvListDirectory (path : string)
  | EvExecuteCommand (cmd : string)
  | EvUploadFile (localPath remotePath : string)
  | EvFlashNode (node : Z) (opts : tpi.FlashOptions)
  | EvFlashNodeLocal (node : Z) (imagePath : string)
  | EvPowerStatus
  | EvPowerOn (node : Z)
  | EvPowerOff (node : Z)
  | EvUsbGetStatus
  | EvUsbSetHost (node : Z) (bmc : bool)
  | EvUsbSetDevice (node : Z) (bmc : bool)
  | EvUsbSetFlash (node : Z) (bmc : bool)
  | EvLog (level : LogLevel) (msg : string) (fields : list (string * logval)).

(* ===================================================================== *)
(** ** Computations                                                       *)
(* ===================================================================== *)

(** A computation runs in a world and yields a value (or [None] when the
    goroutine panics), the world it leaves, and the events of the run. *)
Definition M (A : Type) : Type := World -> option A * World * list Event.

Definition ret {A} (a : A) : M A := fun w => (Some a, w, []).

Definition bind {A B} (m : M A) (k : A -> M B) : M B := fun w =>
  match m w with
  | (Some a, w1, t1) =>
      match k a w1 with (r, w2, t2) => (r, w2, (t1 ++ t2)%list) end
  | (None, w1, t1) => (None, w1, t1)
  end.

Notation "x <- m ;; k" := (bind m (fun x => k))
  (at level 20, m at level 99, k at level 200, only parsing).
Notation "m >> k" := (bind m (fun _ => k))
  (at level 100, k at level 200, only parsing, right associativity).

Definition panic {A} : M A := fun w => (None, w, []).

(** [defer cleanup] followed by [body]: the deferred call runs when the
    function returns, also when [body] panics. *)
Definition defer {A} (cleanup : M unit) (body : M A) : M A := fun w =>
  match body w with
  | (r, w1, t1) =>
      match cleanup w1 with (_, w2, t2) => (r, w2, (t1 ++ t2)%list) end
  end.

(** [x, err := m; if err != nil { return ..., wrap(err) }] *)
Definition try {A B} (m : M (res A)) (wrap : error -> error)
    (k : A -> M (res B)) : M (res B) :=
  r <- m ;;
  match r with
  | Ok a => k a
  | Err e => ret (Err (wrap e))
  end.

Notation "x <-[ f ] m ;; k" := (try m f (fun x => k))
  (at level 20, m at level 99, k at level 200, only parsing).

Definition emit (e : Event) : M unit := fun w => (Some tt, w, [e]).
Definition get_world : M World := fun w => (Some w, w, []).
Definition modify (f : World -> World) : M unit := fun w => (Some tt, f w, []).

Definition take_fault : M (option string) := fun w =>
  match w_faults w with
  | [] => (Some None, w, [])
  | f :: rest => (Some f, set_faults rest w, [])
  end.

(** An external call: its event, then either the injected failure or its
    effect on the state. *)
Definition external {A} (e : Event) (fail : string -> error)
    (body : M (res A)) : M (res A) :=
  emit e >>
  f <- take_fault ;;
  match f with
  | Some m => ret (Err (fail m))
  | None => body
  end.

Definition outcome {A} (r : option A * World * list Event) : option A := r.1.1.
Definition world_of {A} (r : option A * World * list Event) : World := r.1.2.
Definition events {A} (r : option A * World * list Event) : list Event := r.2.

(* ===================================================================== *)
(** ** Packages [os] and [io]                                             *)
(* ===================================================================== *)

Module os.

Definition IsNotExist (e : error) : bool :=
  match e with PathError _ _ ENOENT => true | _ => false end.

Definition UserHomeDir : M (res string) :=
  emit EvUserHomeDir >>
  w <- get_world ;;
  match w_home w with
  | Some h => ret (Ok h)
  | None => ret (Err (LibError "$HOME is not defined"))
  end.

Definition MkdirAll (path : string) : M (res unit) :=
  external (EvMkdirAll path) (fun m => PathError "mkdir" path (EIO m))
    (ret (Ok tt)).

(** [os.MkdirTemp("", pattern)]: a new directory under the default
    temporary directory, the ["*"] of the pattern replaced by a number
    that has not been handed out before. *)
Definition MkdirTemp (pattern : string) : M (res string) :=
  external (EvMkdirTemp pattern) (fun m => PathError "mkdir" "/tmp" (EIO m))
    (w <- get_world ;;
     modify (set_tmp (N.succ (w_tmp w))) >>
     ret (Ok ("/tmp/" ++ strings.TrimSuffix pattern "*" ++ pretty (w_tmp w)))).

(** [os.Stat]; the [FileInfo] is discarded by every caller. *)
Definition Stat (path : string) : M (res unit) :=
  external (EvStat path) (fun m => PathError "stat" path (EIO m))
    (w <- get_world ;;
     match w_fs w !! path with
     | Some _ => ret (Ok tt)
     | None => ret (Err (PathError "stat" path ENOENT))
     end).

(** An open file is known by its path. *)
Definition Open (path : string) : M (res string) :=
  external (EvOpen path) (fun m => PathError "open" path (EIO m))
    (w <- get_world ;;
     match w_fs w !! path with
     | Some _ => ret (Ok path)
     | None => ret (Err (PathError "open" path ENOENT))
     end).

(** [os.Create]: the file is created, or truncated when it exists. *)
Definition Create (path : string) : M (res string) :=
  external (EvCreate path) (fun m => PathError "open" path (EIO m))
    (modify (fun w => set_fs (<[path := ""]> (w_fs w)) w) >>
     ret (Ok path)).

(** [os.Remove]: every caller in the program discards its result; the
    file is gone afterwards. *)
Definition Remove (path : string) : M unit :=
  emit (EvRemove path) >>
  modify (fun w => set_fs (delete path (w_fs w)) w).

End os.

Module io.

(** [io.Copy(dst, src)] into the file [dst], which the caller has just
    created. A stream that ends in an error leaves what it delivered in
    the file. *)
Definition Copy (dst : string) (src : Reader) : M (res unit) :=
  external (EvCopy dst src) (fun m => LibError m)
    (w <- get_world ;;
     match src with
     | FileReader p =>
         modify (set_fs (<[dst := default "" (w_fs w !! p)]> (w_fs w))) >>
         ret (Ok tt)
     | StreamReader data ok =>
         modify (set_fs (<[dst := data]> (w_fs w))) >>
         ret (if ok then Ok tt else Err (LibError "unexpected EOF"))
     end).

(** [io.Copy(hash, file)] followed by [hex.EncodeToString(hash.Sum(nil))]. *)
Definition CopyToSHA256 (path : string) : M (res string) :=
  external (EvHashFile path) (fun m => PathError "read" path (EIO m))
    (w <- get_world ;;
     ret (Ok (sha256.hex (default "" (w_fs w !! path))))).

End io.

(* ===================================================================== *)
(** ** Package [net/http]                                                 *)
(* ===================================================================== *)

Module http.

Definition StatusOK : Z := 200.

(** [http.DefaultClient.Do(req)] for a GET request. *)
Definition Do (url : string) : M (res Response) :=
  external (EvHttpGet url) (fun m => LibError m)
    (w <- get_world ;;
     match w_http w !! url with
     | Some r => ret (Ok r)
     | None => ret (Err (LibError "no such host"))
     end).

End http.

(* ===================================================================== *)
(** ** The methods of [*tpi.Client], reached as [c.TPI.Method(...)]       *)
(* ===================================================================== *)

(** A remote path split at its last ['/'] into directory and file name;
    [None] when there is no ['/']. *)
Fixpoint split_path (s : string) : option string * string :=
  match s with
  | EmptyString => (None, EmptyString)
  | String c r =>
      match split_path r with
      | (Some d, b) => (Some (String c d), b)
      | (None, b) =>
          if Ascii.eqb c "/" then (Some EmptyString, b) else (None, String c b)
      end
  end.

(** The file a remote path names on the BMC, when there is one. *)
Definition remote_file (bmc : gmap string (gmap string string)) (path : string)
  : option string :=
  match split_path path with
  | (Some dir, name) =>
      match bmc !! dir with
      | Some d => d !! name
      | None => None
      end
  | (None, _) => None
  end.

Definition cut_prefix (pre s : string) : option string :=
  if String.prefix pre s
  then Some (String.substring (String.length pre)
                              (String.length s - String.length pre) s)
  else None.

Module TPI.

Definition ListDirectory (remotePath : string) : M (res (list tpi.FileInfo)) :=
  external (EvListDirectory remotePath) (fun m => LibError m)
    (w <- get_world ;;
     match w_bmc w !! remotePath with
     | Some d =>
         ret (Ok (List.map (fun nc => {| tpi.Name := nc.1;
                                         tpi.Size := Z.of_nat (String.length nc.2) |})
                           (map_to_list d)))
     | None => ret (Err (RemoteNotFound remotePath))
     end).

(** The shell of the BMC, as far as the provider uses it: [mkdir -p]
    and [rm -rf] of a directory; any other command has no effect on the
    modelled state. *)
Definition ExecuteCommand (command : string) : M (res string) :=
  external (EvExecuteCommand command) (fun m => LibError m)
    (w <- get_world ;;
     match cut_prefix "mkdir -p " command, cut_prefix "rm -rf " command with
     | Some d, _ =>
         match w_bmc w !! d with
         | Some _ => ret (Ok "")
         | None => modify (set_bmc (<[d := ∅]> (w_bmc w))) >> ret (Ok "")
         end
     | None, Some d =>
         modify (set_bmc (filter (fun kv => negb (String.eqb kv.1 d) &&
                                    negb (String.prefix (d ++ "/") kv.1))
                                 (w_bmc w))) >>
         ret (Ok "")
     | None, None => ret (Ok "")
     end).

(** Upload over SFTP: the local file must exist, and so must the
    directory of the remote path. *)
Definition UploadFile (localPath remotePath : string) : M (res unit) :=
  external (EvUploadFile localPath remotePath) (fun m => LibError m)
    (w <- get_world ;;
     match w_fs w !! localPath with
     | None => ret (Err (PathError "open" localPath ENOENT))
     | Some content =>
         match split_path remotePath with
         | (Some dir, name) =>
             match w_bmc w !! dir with
             | Some d =>
                 modify (set_bmc (<[dir := <[name := content]> d]> (w_bmc w))) >>
                 ret (Ok tt)
             | None => ret (Err (RemoteNotFound dir))
             end
         | (None, _) => ret (Err (LibError "invalid remote path"))
         end
     end).

(** FlashNode sends the image itself; what the BMC does with it is
    opaque: the call succeeds unless the schedule makes it fail. *)
Definition FlashNode (node : Z) (options : tpi.FlashOptions) : M (res unit) :=
  external (EvFlashNode node options) (fun m => LibError m) (ret (Ok tt)).

(** FlashNodeLocal "flashes an image that is already on the BMC
    filesystem" (client.go): the path is looked up on the BMC, and the
    call fails when no file is there. *)
Definition FlashNodeLocal (node : Z) (imagePath : string) : M (res unit) :=
  external (EvFlashNodeLocal node imagePath) (fun m => LibError m)
    (w <- get_world ;;
     match remote_file (w_bmc w) imagePath with
     | Some _ => ret (Ok tt)
     | None => ret (Err (RemoteNotFound imagePath))
     end).

Definition PowerStatus : M (res (gmap Z bool)) :=
  external EvPowerStatus (fun m => LibError m)
    (w <- get_world ;; ret (Ok (w_power w))).

Definition PowerOn (node : Z) : M (res unit) :=
  external (EvPowerOn node) (fun m => LibError m)
    (modify (fun w => set_power (<[node := true]> (w_power w)) w) >> ret (Ok tt)).

Definition PowerOff (node : Z) : M (res unit) :=
  external (EvPowerOff node) (fun m => LibError m)
    (modify (fun w => set_power (<[node := false]> (w_power w)) w) >> ret (Ok tt)).

Definition UsbGetStatus : M (res tpi.UsbStatusInfo) :=
  external EvUsbGetStatus (fun m => LibError m)
    (w <- get_world ;; ret (Ok (w_usb w))).

Definition usb_set (mode : string) (node : Z) (bmc : bool) : World -> World :=
  set_usb {| tpi.Mode := mode; tpi.Node := "Node " ++ pretty node;
             tpi.Route := if bmc then "BMC" else "USB-A" |}.

Definition UsbSetHost (node : Z) (bmc : bool) : M (res unit) :=
  external (EvUsbSetHost node bmc) (fun m => LibError m)
    (modify (usb_set "Host" node bmc) >> ret (Ok tt)).

Definition UsbSetDevice (node : Z) (bmc : bool) : M (res unit) :=
  external (EvUsbSetDevice node bmc) (fun m => LibError m)
    (modify (usb_set "Device" node bmc) >> ret (Ok tt)).

Definition UsbSetFlash (node : Z) (bmc : bool) : M (res unit) :=
  external (EvUsbSetFlash node bmc) (fun m => LibError m)
    (modify (usb_set "Flash" node bmc) >> ret (Ok tt)).

End TPI.

Module tflog.
Definition Info (msg : string) (fields : list (string * logval)) : M unit :=
  emit (EvLog LevelInfo msg fields).
Definition Warn (msg : string) (fields : list (string * logval)) : M unit :=
  emit (EvLog LevelWarn msg fields).
End tflog.

(** The pure functions of the libraries behind [DownloadImage]: whether
    [http.NewRequestWithContext] accepts a URL, and what the xz, gzip and
    zip readers make of a file's bytes. [None] is the reader's refusal of
    the header; a zip archive is the list of its entries, each of which may
    fail to open. *)
Class Libs := {
  url_ok : string -> bool;
  xz_NewReader : string -> option Reader;
  gzip_NewReader : string -> option Reader;
  zip_OpenReader : string -> option (list (option Reader));
}.


(** [a != b] on Go strings. *)
Definition sne (a b : string) : bool := negb (String.eqb a b).

(* ===================================================================== *)
(** ** Package [client]                                                   *)
(* ===================================================================== *)

Module client.

(** *** client.go *)

(** Client wraps the TPI client with additional configuration for the
    Terraform provider. The methods forward to the library, passing
    [c.SSHOptions()] where it wants SSH credentials; the model of the
    library does not look at them. *)
Record Client := {
  Host : string;
  SSHUser : string;
  SSHPassword : string;
  SSHPort : Z;
}.

Definition PowerStatus (c : Client) : M (res (gmap Z bool)) := TPI.PowerStatus.
Definition PowerOn (c : Client) (node : Z) : M (res unit) := TPI.PowerOn node.
Definition PowerOff (c : Client) (node : Z) : M (res unit) := TPI.PowerOff node.
Definition UsbGetStatus (c : Client) : M (res tpi.UsbStatusInfo) := TPI.UsbGetStatus.
Definition UsbSetHost (c : Client) (node : Z) (bmc : bool) : M (res unit) :=
  TPI.UsbSetHost node bmc.
Definition UsbSetDevice (c : Client) (node : Z) (bmc : bool) : M (res unit) :=
  TPI.UsbSetDevice node bmc.
Definition UsbSetFlash (c : Client) (node : Z) (bmc : bool) : M (res unit) :=
  TPI.UsbSetFlash node bmc.
Definition FlashNode (c : Client) (node : Z) (options : tpi.FlashOptions)
  : M (res unit) := TPI.FlashNode node options.
Definition FlashNodeLocal (c : Client) (node : Z) (imagePath : string)
  : M (res unit) := TPI.FlashNodeLocal node imagePath.
Definition UploadFile (c : Client) (localPath remotePath : string)
  : M (res unit) := TPI.UploadFile localPath remotePath.
Definition ListDirectory (c : Client) (remotePath : string)
  : M (res (list tpi.FileInfo)) := TPI.ListDirectory remotePath.
Definition ExecuteCommand (c : Client) (command : string)
  : M (res string) := TPI.ExecuteCommand command.

(** *** download.go *)

Record DownloadResult := { Path : string; SHA256 : string }.
Record DownloadOptions := { ExpectedSHA256 : string; DestDir : string }.

Section Download.
Context {L : Libs}.

(** detectCompression determines the compression type from URL or
    content type. *)
Definition detectCompression (url contentType : string) : string :=
  let url := strings.ToLower url in
  if strings.HasSuffix url ".xz" then "xz"
  else if strings.HasSuffix url ".gz" || strings.HasSuffix url ".gzip" then "gz"
  else if strings.HasSuffix url ".zip" then "zip"
  else
    (* Check content type *)
    let contentType := strings.ToLower contentType in
    if strings.Contains contentType "xz" || strings.Contains contentType "x-xz"
    then "xz"
    else if strings.Contains contentType "gzip" then "gz"
    else if strings.Contains contentType "zip" then "zip"
    else "".

(** decompressXZ decompresses an XZ file. *)
Definition decompressXZ (src dst : string) : M (res string) :=
  srcFile <-[fun err => err] os.Open src ;;
  w <- get_world ;;
  match xz_NewReader (default "" (w_fs w !! srcFile)) with
  | None => ret (Err (Wrapf "failed to create xz reader: "
                            (LibError "xz: invalid header")))
  | Some reader =>
      dstFile <-[fun err => err] os.Create dst ;;
      _ <-[Wrapf "failed to decompress xz: "] io.Copy dstFile reader ;;
      ret (Ok dst)
  end.

(** decompressGzip decompresses a gzip file. *)
Definition decompressGzip (src dst : string) : M (res string) :=
  srcFile <-[fun err => err] os.Open src ;;
  w <- get_world ;;
  match gzip_NewReader (default "" (w_fs w !! srcFile)) with
  | None => ret (Err (Wrapf "failed to create gzip reader: "
                            (LibError "gzip: invalid header")))
  | Some reader =>
      dstFile <-[fun err => err] os.Create dst ;;
      _ <-[Wrapf "failed to decompress gzip: "] io.Copy dstFile reader ;;
      ret (Ok dst)
  end.

(** decompressZip extracts the first file from a zip archive. *)
Definition decompressZip (src dst : string) : M (res string) :=
  archive <-[Wrapf "failed to open zip: "] os.Open src ;;
  w <- get_world ;;
  match zip_OpenReader (default "" (w_fs w !! archive)) with
  | None => ret (Err (Wrapf "failed to open zip: "
                            (LibError "zip: not a valid zip file")))
  | Some [] => ret (Err (Errorf "zip archive is empty"))
  | Some (file :: _) =>
      (* Extract the first file (assuming single-file archive for images) *)
      match file with
      | None => ret (Err (Wrapf "failed to open file in zip: "
                                (LibError "zip: unsupported compression algorithm")))
      | Some srcFile =>
          dstFile <-[fun err => err] os.Create dst ;;
          _ <-[Wrapf "failed to extract from zip: "] io.Copy dstFile srcFile ;;
          ret (Ok dst)
      end
  end.

(** decompress decompresses a file based on the compression type. *)
Definition decompress (path compression : string) : M (res string) :=
  let outputPath := strings.TrimSuffix path ("." ++ compression) in
  let outputPath :=
    if String.eqb outputPath path then path ++ ".decompressed" else outputPath in
  if String.eqb compression "xz" then decompressXZ path outputPath
  else if String.eqb compression "gz" then decompressGzip path outputPath
  else if String.eqb compression "zip" then decompressZip path outputPath
  else ret (Err (Errorf ("unsupported compression: " ++ compression))).

(** calculateSHA256 calculates the SHA256 hash of a file. *)
Definition calculateSHA256 (path : string) : M (res string) :=
  file <-[fun err => err] os.Open path ;;
  hash <-[fun err => err] io.CopyToSHA256 file ;;
  ret (Ok hash).

(** CalculateFileSHA256 is an exported version for external use. *)
Definition CalculateFileSHA256 (path : string) : M (res string) :=
  calculateSHA256 path.

(** DownloadImage, lines 41-49 ("Create destination directory"): the
    directory given in the options, or a fresh temporary one. *)
Definition destinationDir (opts : DownloadOptions) : M (res string) :=
  if String.eqb (DestDir opts) "" then
    d <-[Wrapf "failed to create temp directory: "]
      os.MkdirTemp "turingpi-download-*" ;;
    ret (Ok d)
  else ret (Ok (DestDir opts)).

(** DownloadImage downloads an image from a URL, automatically
    decompressing if needed. *)
Definition DownloadImage (url : string) (opts : option DownloadOptions)
  : M (res DownloadResult) :=
  let opts := default {| ExpectedSHA256 := ""; DestDir := "" |} opts in
  (* Create destination directory *)
  destDir <-[fun err => err] destinationDir opts ;;
  (* Download file *)
  if negb (url_ok url) then
    ret (Err (Wrapf "failed to create request: " (LibError "net/url: invalid URL")))
  else
  resp <-[Wrapf "failed to download: "] http.Do url ;;
  if negb (StatusCode resp =? http.StatusOK) then
    ret (Err (Errorf ("download failed with status: " ++ pretty (StatusCode resp))))
  else
  (* Determine filename and compression type *)
  let filename := filepath.Base url in
  let compression := detectCompression url (ContentType resp) in
  (* Save the downloaded file *)
  let downloadPath := filepath.Join [destDir; filename] in
  downloadFile <-[Wrapf "failed to create download file: "] os.Create downloadPath ;;
  _ <-[Wrapf "failed to save download: "]
    io.Copy downloadFile (StreamReader (Body resp) true) ;;
  (* Decompress if needed *)
  finalPath <-[fun err => err]
    (if sne compression "" then
       finalPath <-[Wrapf "failed to decompress: "]
         decompress downloadPath compression ;;
       (* Remove the compressed file *)
       os.Remove downloadPath >>
       ret (Ok finalPath)
     else ret (Ok downloadPath)) ;;
  (* Calculate SHA256 *)
  sha256Hash <-[Wrapf "failed to calculate SHA256: "] calculateSHA256 finalPath ;;
  (* Verify SHA256 if expected *)
  if sne (ExpectedSHA256 opts) "" && sne sha256Hash (ExpectedSHA256 opts) then
    os.Remove finalPath >>
    ret (Err (Errorf ("SHA256 mismatch: expected " ++ ExpectedSHA256 opts ++
                      ", got " ++ sha256Hash)))
  else
    ret (Ok {| Path := finalPath; SHA256 := sha256Hash |}).

End Download.

(** *** cache.go *)

(** CacheLocationLocal stores images in the local filesystem. *)
Definition CacheLocationLocal : string := "local".
(** CacheLocationBMC stores images on the BMC via SFTP. *)
Definition CacheLocationBMC : string := "bmc".
(** CacheLocationNone disables caching. *)
Definition CacheLocationNone : string := "none".
(** BMC cache directory *)
Definition bmcCacheDir : string := "/tmp/tpi-cache".

(** ImageCache manages cached images for the Turing Pi provider. *)
Record ImageCache := { cache_client : Client; localDir : string }.

(** NewImageCache creates a new image cache manager. *)
Definition NewImageCache (c : Client) : M (res ImageCache) :=
  homeDir <-[Wrapf "failed to get home directory: "] os.UserHomeDir ;;
  let localDir := filepath.Join [homeDir; ".cache"; "terraform-provider-turingpi"] in
  _ <-[Wrapf "failed to create cache directory: "] os.MkdirAll localDir ;;
  ret (Ok {| cache_client := c; localDir := localDir |}).

(** getLocalCachePath checks if an image exists in the local cache. *)
Definition getLocalCachePath (c : ImageCache) (sha256 : string) : M (res string) :=
  let path := filepath.Join [localDir c; sha256 ++ ".img"] in
  r <- os.Stat path ;;
  match r with
  | Ok _ => ret (Ok path)
  | Err err =>
      if os.IsNotExist err then ret (Ok "")
      else ret (Err err)
  end.

(** getBMCCachePath checks if an image exists in the BMC cache. *)
Definition getBMCCachePath (c : ImageCache) (sha256 : string) : M (res string) :=
  let remotePath := bmcCacheDir ++ "/" ++ sha256 ++ ".img" in
  r <- ListDirectory (cache_client c) bmcCacheDir ;;
  match r with
  | Err _ =>
      (* Directory might not exist yet *)
      ret (Ok "")
  | Ok files =>
      let expectedName := sha256 ++ ".img" in
      if existsb (fun f => String.eqb (tpi.Name f) expectedName) files
      then ret (Ok remotePath)
      else ret (Ok "")
  end.

(** GetCachedImagePath returns the path to a cached image, or empty
    string if not cached. *)
Definition GetCachedImagePath (c : ImageCache) (sha256 location : string)
  : M (res string) :=
  if String.eqb location CacheLocationLocal then getLocalCachePath c sha256
  else if String.eqb location CacheLocationBMC then getBMCCachePath c sha256
  else if String.eqb location CacheLocationNone then ret (Ok "")
  else ret (Err (Errorf ("unknown cache location: " ++ location))).

(** cacheLocally copies an image to the local cache. *)
Definition cacheLocally (c : ImageCache) (srcPath sha256 : string) : M (res string) :=
  let destPath := filepath.Join [localDir c; sha256 ++ ".img"] in
  (* Check if already cached *)
  r <- os.Stat destPath ;;
  match r with
  | Ok _ => ret (Ok destPath)
  | Err _ =>
      (* Copy file *)
      src <-[Wrapf "failed to open source file: "] os.Open srcPath ;;
      dst <-[Wrapf "failed to create cache file: "] os.Create destPath ;;
      r <- io.Copy dst (FileReader src) ;;
      match r with
      | Err err =>
          os.Remove destPath >>
          ret (Err (Wrapf "failed to copy to cache: " err))
      | Ok _ => ret (Ok destPath)
      end
  end.

(** cacheToBMC uploads an image to the BMC cache. *)
Definition cacheToBMC (c : ImageCache) (localPath sha256 : string) : M (res string) :=
  let remotePath := bmcCacheDir ++ "/" ++ sha256 ++ ".img" in
  (* Ensure cache directory exists on BMC *)
  _ <-[Wrapf "failed to create BMC cache directory: "]
    ExecuteCommand (cache_client c) ("mkdir -p " ++ bmcCacheDir) ;;
  (* Check if already cached *)
  existingPath <-[fun err => err] getBMCCachePath c sha256 ;;
  if sne existingPath "" then ret (Ok existingPath)
  else
    (* Upload to BMC *)
    _ <-[Wrapf "failed to upload to BMC: "]
      UploadFile (cache_client c) localPath remotePath ;;
    ret (Ok remotePath).

(** CacheImage stores an image in the specified cache location.
    Returns the path where the image was cached. *)
Definition CacheImage (c : ImageCache) (localPath sha256 location : string)
  : M (res string) :=
  if String.eqb location CacheLocationLocal then cacheLocally c localPath sha256
  else if String.eqb location CacheLocationBMC then cacheToBMC c localPath sha256
  else if String.eqb location CacheLocationNone then ret (Ok localPath)
  else ret (Err (Errorf ("unknown cache location: " ++ location))).

(** CleanBMCCache removes all cached images from the BMC cache. *)
Definition CleanBMCCache (c : ImageCache) : M (res unit) :=
  _ <-[Wrapf "failed to clean BMC cache: "]
    ExecuteCommand (cache_client c) ("rm -rf " ++ bmcCacheDir) ;;
  ret (Ok tt).

(** NewClient creates a new client wrapper for the Turing Pi BMC.
    [tpi_NewClient host username password] is what the constructor of the
    library, [tpi.NewClient(tpi.WithHost(host),
    tpi.WithCredentials(username, password))], returns as its error. *)
Definition NewClient (tpi_NewClient : string -> string -> string -> option error)
    (host username password sshUser sshPassword : string) (sshPort : Z)
  : res Client :=
  match tpi_NewClient host username password with
  | Some err => Err (Wrapf "failed to create TPI client: " err)
  | None =>
      Ok {| Host := host; SSHUser := sshUser; SSHPassword := sshPassword;
            SSHPort := sshPort |}
  end.

End client.

(* ===================================================================== *)
(** ** The Terraform plugin framework, as far as the resources use it     *)
(* ===================================================================== *)

Module resource.

(** What [req.Plan.Get(ctx, &plan)] (or [req.State.Get]) delivers: the
    decoded model and the diagnostics of the decoding. *)
Record Request (T : Type) := { Plan : T; PlanDiags : list Diagnostic }.
Arguments Plan {T} r.
Arguments PlanDiags {T} r.

(** The response a resource method fills in: [resp.Diagnostics], and
    the state stored by [resp.State.Set], if any. *)
Record Response (T : Type) := { Diagnostics : list Diagnostic; State : option T }.
Arguments Diagnostics {T} r.
Arguments State {T} r.

Definition Diagnostics_AddError {T} (resp : Response T) (s d : string) : Response T :=
  {| Diagnostics := AddError (Diagnostics resp) s d; State := State resp |}.
Definition State_Set {T} (resp : Response T) (v : T) : Response T :=
  {| Diagnostics := Diagnostics resp; State := Some v |}.

(** [resp.Diagnostics.Append(diags...)]: the diagnostics that are not
    in the list yet are added at its end. *)
Definition Diagnostic_eqb (a b : Diagnostic) : bool :=
  match severity a, severity b with
  | SeverityError, SeverityError | SeverityWarning, SeverityWarning =>
      String.eqb (summary a) (summary b) && String.eqb (detail a) (detail b)
  | _, _ => false
  end.
Definition Diagnostics_Append {T} (resp : Response T) (diags : list Diagnostic)
  : Response T :=
  {| Diagnostics :=
       fold_left (fun acc d => if existsb (Diagnostic_eqb d) acc then acc
                               else (acc ++ [d])%list)
                 diags (Diagnostics resp);
     State := State resp |}.

End resource.

(* ===================================================================== *)
(** ** Package [node_flash]                                               *)
(* ===================================================================== *)

Module node_flash.

(** NodeFlashResource defines the resource implementation. *)
Record NodeFlashResource := { r_client : client.Client }.

(** NodeFlashResourceModel describes the resource data model (the
    [timeouts] block only bounds the run in time and is left out). *)
Record NodeFlashResourceModel := {
  ID : tfval string;
  Node : tfval Z;
  ImageURL : tfval string;
  ImagePath : tfval string;
  SHA256 : tfval string;
  Cache : tfval string;
  SkipCRC : tfval bool;
  FlashStatus : tfval string;
  LastFlashed : tfval string;
}.

(** FlashResult contains the result of a flash operation. *)
Record FlashResult := { Result_SHA256 : string }.

(** The local variables [imagePath], [sha256] and [tempFile] of
    executeFlash, as they stand when the image source has been handled. *)
Record Resolved := { imagePath : string; sha256_ : string; tempFile : string }.

Section Flash.
Context {L : Libs}.

(** executeFlash, lines 311-393 ("Handle image source"): from the
    plan to the resolved image. *)
Definition resolveImage (cache : client.ImageCache)
    (plan : NodeFlashResourceModel) : M (res Resolved) :=
  let cacheLocation := ValueString (Cache plan) in
  if negb (IsNull (ImageURL plan)) && sne (ValueString (ImageURL plan)) "" then
    (* Download from URL *)
    tflog.Info "Downloading image from URL"
               [("url", LStr (ValueString (ImageURL plan)))] >>
    (* Check if expected SHA256 is provided *)
    looked <-
      (if negb (IsNull (SHA256 plan)) && sne (ValueString (SHA256 plan)) "" then
         let expectedSHA256 := ValueString (SHA256 plan) in
         (* Check cache first *)
         r <- client.GetCachedImagePath cache expectedSHA256 cacheLocation ;;
         match r with
         | Err err =>
             tflog.Warn "Failed to check cache"
                        [("error", LStr (error_string err))] >>
             ret (expectedSHA256, "", "")
         | Ok cachedPath =>
             if sne cachedPath "" then
               tflog.Info "Using cached image" [("path", LStr cachedPath)] >>
               ret (expectedSHA256, cachedPath, expectedSHA256)
             else ret (expectedSHA256, "", "")
         end
       else ret ("", "", "")) ;;
    let '(expectedSHA256, imagePath, sha256) := looked in
    (* Download if not cached *)
    if String.eqb imagePath "" then
      result <-[Wrapf "failed to download image: "]
        client.DownloadImage (ValueString (ImageURL plan))
          (Some {| client.ExpectedSHA256 := expectedSHA256;
                   client.DestDir := "" |}) ;;
      let imagePath := client.Path result in
      let sha256 := client.SHA256 result in
      let tempFile := client.Path result in (* Mark for cleanup later *)
      (* Cache the downloaded image if caching is enabled *)
      (if sne cacheLocation client.CacheLocationNone then
         r <- client.CacheImage cache imagePath sha256 cacheLocation ;;
         match r with
         | Err err =>
             tflog.Warn "Failed to cache image"
                        [("error", LStr (error_string err))]
         | Ok cachedPath =>
             tflog.Info "Image cached" [("path", LStr cachedPath)]
         end
       else ret tt) >>
      ret (Ok {| imagePath := imagePath; sha256_ := sha256;
                 tempFile := tempFile |})
    else
      ret (Ok {| imagePath := imagePath; sha256_ := sha256; tempFile := "" |})
  else
    (* Use local file *)
    let imagePath := ValueString (ImagePath plan) in
    (* Calculate SHA256 if not provided *)
    sha256 <-[fun err => err]
      (if negb (IsNull (SHA256 plan)) && sne (ValueString (SHA256 plan)) "" then
         ret (Ok (ValueString (SHA256 plan)))
       else
         calculatedSHA256 <-[Wrapf "failed to calculate SHA256: "]
           client.CalculateFileSHA256 imagePath ;;
         ret (Ok calculatedSHA256)) ;;
    (* Cache the local file if caching is enabled *)
    imagePath <-
      (if sne cacheLocation client.CacheLocationNone then
         r <- client.CacheImage cache imagePath sha256 cacheLocation ;;
         match r with
         | Err err =>
             tflog.Warn "Failed to cache image"
                        [("error", LStr (error_string err))] >>
             ret imagePath
         | Ok cachedPath =>
             tflog.Info "Image cached" [("path", LStr cachedPath)] >>
             ret cachedPath
         end
       else ret imagePath) ;;
    ret (Ok {| imagePath := imagePath; sha256_ := sha256; tempFile := "" |}).

(** executeFlash, lines 395-427: the deferred cleanup, the log line
    (whose [sha256[:16]] panics on a shorter string) and the flash
    operation itself. *)
Definition dispatchFlash (r : NodeFlashResource)
    (plan : NodeFlashResourceModel) (img : Resolved) : M (res FlashResult) :=
  let node := ValueInt64 (Node plan) in
  let cacheLocation := ValueString (Cache plan) in
  (* Cleanup temp file if we created one and it's not the cache path *)
  defer
    (if sne (tempFile img) "" && sne (tempFile img) (imagePath img)
     then os.Remove (tempFile img) else ret tt)
    ((* Perform flash operation *)
     match strings.slice_to (sha256_ img) 16 with
     | None => panic
     | Some prefix =>
         tflog.Info "Starting flash to node"
                    [("node", LInt node); ("image", LStr (imagePath img));
                     ("sha256", LStr (prefix ++ "..."))] >>
         (* Use FlashNodeLocal if the image is on BMC *)
         err <-
           (if String.eqb cacheLocation client.CacheLocationBMC then
              client.FlashNodeLocal (r_client r) node (imagePath img)
            else
              let opts := {| tpi.ImagePath := imagePath img;
                             tpi.SHA256 := sha256_ img;
                             tpi.SkipCRC := ValueBool (SkipCRC plan) |} in
              client.FlashNode (r_client r) node opts) ;;
         match err with
         | Err err => ret (Err (Wrapf "flash operation failed: " err))
         | Ok _ => ret (Ok {| Result_SHA256 := sha256_ img |})
         end
     end).

(** executeFlash handles the actual flash operation with caching. *)
Definition executeFlash (r : NodeFlashResource)
    (plan : NodeFlashResourceModel) : M (res FlashResult) :=
  (* Initialize cache *)
  cache <-[Wrapf "failed to initialize cache: "]
    client.NewImageCache (r_client r) ;;
  (* Handle image source *)
  img <-[fun err => err] resolveImage cache plan ;;
  dispatchFlash r plan img.

(** What Create and Update are handed besides the plan: the diagnostics
    of [plan.Timeouts.Create] (or [.Update]) on the [timeouts] block, whose
    duration only bounds the run in time, and the clock, as
    [time.Now().UTC().Format(time.RFC3339)] prints it. *)
Record Ambient := { TimeoutDiags : list Diagnostic; Now : string }.

Definition Create (r : NodeFlashResource)
    (req : resource.Request NodeFlashResourceModel) (amb : Ambient)
  : M (resource.Response NodeFlashResourceModel) :=
  let plan := resource.Plan req in
  let resp := {| resource.Diagnostics := resource.PlanDiags req;
                 resource.State := None |} in
  if HasError (resource.Diagnostics resp) then ret resp
  else
    (* Get timeout (default: 3 hours) *)
    let resp := resource.Diagnostics_Append resp (TimeoutDiags amb) in
    if HasError (resource.Diagnostics resp) then ret resp
    else
      tflog.Info "Starting flash operation"
                 [("node", LInt (ValueInt64 (Node plan)));
                  ("cache", LStr (ValueString (Cache plan)))] >>
      (* Execute flash *)
      res <- executeFlash r plan ;;
      match res with
      | Err err =>
          let resp :=
            resource.Diagnostics_AddError resp "Flash Operation Failed"
              ("Failed to flash node " ++ pretty (ValueInt64 (Node plan)) ++
               ": " ++ error_string err) in
          let plan :=
            {| ID := ID plan; Node := Node plan; ImageURL := ImageURL plan;
               ImagePath := ImagePath plan; SHA256 := SHA256 plan;
               Cache := Cache plan; SkipCRC := SkipCRC plan;
               FlashStatus := Known "failed"; LastFlashed := LastFlashed plan |} in
          ret (resource.State_Set resp plan)
      | Ok result =>
          (* Update model with results *)
          let node := ValueInt64 (Node plan) in
          match strings.slice_to (Result_SHA256 result) 8 with
          | None => panic
          | Some short =>
              let plan :=
                {| ID := Known ("node-" ++ pretty node ++ "-flash-" ++ short);
                   Node := Node plan; ImageURL := ImageURL plan;
                   ImagePath := ImagePath plan;
                   SHA256 := Known (Result_SHA256 result);
                   Cache := Cache plan; SkipCRC := SkipCRC plan;
                   FlashStatus := Known "success";
                   LastFlashed := Known (Now amb) |} in
              match strings.slice_to (Result_SHA256 result) 16 with
              | None => panic
              | Some prefix =>
                  tflog.Info "Flash operation completed successfully"
                             [("node", LInt node);
                              ("sha256", LStr (prefix ++ "..."))] >>
                  ret (resource.State_Set resp plan)
              end
          end
      end.

Definition Read (r : NodeFlashResource)
    (req : resource.Request NodeFlashResourceModel)
  : M (resource.Response NodeFlashResourceModel) :=
  let state := resource.Plan req in
  let resp := {| resource.Diagnostics := resource.PlanDiags req;
                 resource.State := None |} in
  if HasError (resource.Diagnostics resp) then ret resp
  else
    (* Flash resources are stateless on the BMC side - there's no API to
       query "what image is currently flashed". We just preserve the state
       as-is. *)
    ret (resource.State_Set resp state).

Definition Update (r : NodeFlashResource)
    (req : resource.Request NodeFlashResourceModel) (amb : Ambient)
  : M (resource.Response NodeFlashResourceModel) :=
  let plan := resource.Plan req in
  let resp := {| resource.Diagnostics := resource.PlanDiags req;
                 resource.State := None |} in
  if HasError (resource.Diagnostics resp) then ret resp
  else
    (* Get timeout (default: 3 hours) *)
    let resp := resource.Diagnostics_Append resp (TimeoutDiags amb) in
    if HasError (resource.Diagnostics resp) then ret resp
    else
      tflog.Info "Re-flashing node due to configuration change"
                 [("node", LInt (ValueInt64 (Node plan)))] >>
      (* Re-flash on changes to image_url, image_path, or sha256 *)
      res <- executeFlash r plan ;;
      match res with
      | Err err =>
          let resp :=
            resource.Diagnostics_AddError resp "Flash Update Failed"
              ("Failed to re-flash node " ++ pretty (ValueInt64 (Node plan)) ++
               ": " ++ error_string err) in
          let plan :=
            {| ID := ID plan; Node := Node plan; ImageURL := ImageURL plan;
               ImagePath := ImagePath plan; SHA256 := SHA256 plan;
               Cache := Cache plan; SkipCRC := SkipCRC plan;
               FlashStatus := Known "failed"; LastFlashed := LastFlashed plan |} in
          ret (resource.State_Set resp plan)
      | Ok result =>
          (* Update model with results *)
          let plan :=
            {| ID := ID plan; Node := Node plan; ImageURL := ImageURL plan;
               ImagePath := ImagePath plan;
               SHA256 := Known (Result_SHA256 result);
               Cache := Cache plan; SkipCRC := SkipCRC plan;
               FlashStatus := Known "success";
               LastFlashed := Known (Now amb) |} in
          ret (resource.State_Set resp plan)
      end.

End Flash.

End node_flash.

(* ===================================================================== *)
(** ** Package [node_power]                                               *)
(* ===================================================================== *)

Module node_power.

(** NodePowerResource defines the resource implementation. *)
Record NodePowerResource := { r_client : client.Client }.

(** NodePowerResourceModel describes the resource data model. *)
Record NodePowerResourceModel := {
  ID : tfval string;
  Node : tfval Z;
  PowerOn : tfval bool;
}.

Definition with_ID (id : string) (m : NodePowerResourceModel) :=
  {| ID := Known id; Node := Node m; PowerOn := PowerOn m |}.
Definition with_PowerOn (b : bool) (m : NodePowerResourceModel) :=
  {| ID := ID m; Node := Node m; PowerOn := Known b |}.

Definition Create (r : NodePowerResource)
    (req : resource.Request NodePowerResourceModel)
  : M (resource.Response NodePowerResourceModel) :=
  let plan := resource.Plan req in
  let resp := {| resource.Diagnostics := resource.PlanDiags req;
                 resource.State := None |} in
  if HasError (resource.Diagnostics resp) then ret resp
  else
    let node := ValueInt64 (Node plan) in
    let desiredState := ValueBool (PowerOn plan) in
    (* Check current state for idempotency *)
    s <- client.PowerStatus (r_client r) ;;
    match s with
    | Err err =>
        ret (resource.Diagnostics_AddError resp "Error Reading Power Status"
               ("Could not read power status: " ++ error_string err))
    | Ok status =>
        let currentState := default false (status !! node) in
        (* Only change if different (idempotent) *)
        e <- (if negb (Bool.eqb currentState desiredState) then
                if desiredState then client.PowerOn (r_client r) node
                else client.PowerOff (r_client r) node
              else ret (Ok tt)) ;;
        match e with
        | Err err =>
            ret (resource.Diagnostics_AddError resp "Error Setting Power State"
                   ("Could not set power state for node " ++ pretty node ++
                    ": " ++ error_string err))
        | Ok _ =>
            let plan := with_ID ("node-" ++ pretty node ++ "-power") plan in
            ret (resource.State_Set resp plan)
        end
    end.

Definition Read (r : NodePowerResource)
    (req : resource.Request NodePowerResourceModel)
  : M (resource.Response NodePowerResourceModel) :=
  let state := resource.Plan req in
  let resp := {| resource.Diagnostics := resource.PlanDiags req;
                 resource.State := None |} in
  if HasError (resource.Diagnostics resp) then ret resp
  else
    let node := ValueInt64 (Node state) in
    s <- client.PowerStatus (r_client r) ;;
    match s with
    | Err err =>
        ret (resource.Diagnostics_AddError resp "Error Reading Power Status"
               ("Could not read power status: " ++ error_string err))
    | Ok status =>
        let state := with_PowerOn (default false (status !! node)) state in
        ret (resource.State_Set resp state)
    end.

Definition Update (r : NodePowerResource)
    (req : resource.Request NodePowerResourceModel)
  : M (resource.Response NodePowerResourceModel) :=
  let plan := resource.Plan req in
  let resp := {| resource.Diagnostics := resource.PlanDiags req;
                 resource.State := None |} in
  if HasError (resource.Diagnostics resp) then ret resp
  else
    let node := ValueInt64 (Node plan) in
    let desiredState := ValueBool (PowerOn plan) in
    (* Check current state for idempotency *)
    s <- client.PowerStatus (r_client r) ;;
    match s with
    | Err err =>
        ret (resource.Diagnostics_AddError resp "Error Reading Power Status"
               ("Could not read power status: " ++ error_string err))
    | Ok status =>
        let currentState := default false (status !! node) in
        (* Only change if different *)
        e <- (if negb (Bool.eqb currentState desiredState) then
                if desiredState then client.PowerOn (r_client r) node
                else client.PowerOff (r_client r) node
              else ret (Ok tt)) ;;
        match e with
        | Err err =>
            ret (resource.Diagnostics_AddError resp "Error Setting Power State"
                   ("Could not set power state for node " ++ pretty node ++
                    ": " ++ error_string err))
        | Ok _ => ret (resource.State_Set resp plan)
        end
    end.

End node_power.

(* ===================================================================== *)
(** ** Package [node_usb]                                                 *)
(* ===================================================================== *)

Module node_usb.

(** NodeUsbResource defines the resource implementation. *)
Record NodeUsbResource := { r_client : client.Client }.

(** NodeUsbResourceModel describes the resource data model. *)
Record NodeUsbResourceModel := {
  ID : tfval string;
  Node : tfval Z;
  Mode : tfval string;
  BMC : tfval bool;
}.

Definition with_ID (id : string) (m : NodeUsbResourceModel) :=
  {| ID := Known id; Node := Node m; Mode := Mode m; BMC := BMC m |}.
Definition with_status (mode : string) (bmc : bool) (m : NodeUsbResourceModel) :=
  {| ID := ID m; Node := Node m; Mode := Known mode; BMC := Known bmc |}.

(** setUsbMode sets the USB mode for the specified node. *)
Definition setUsbMode (r : NodeUsbResource) (node : Z) (mode : string) (bmc : bool)
  : M (res unit) :=
  if String.eqb mode "host" then client.UsbSetHost (r_client r) node bmc
  else if String.eqb mode "device" then client.UsbSetDevice (r_client r) node bmc
  else if String.eqb mode "flash" then client.UsbSetFlash (r_client r) node bmc
  else ret (Err (Errorf ("unknown USB mode: " ++ mode))).

(** mapModeToLower converts the API mode response to lowercase. *)
Definition mapModeToLower (mode : string) : string :=
  if String.eqb mode "Host" then "host"
  else if String.eqb mode "Device" then "device"
  else if String.eqb mode "Flash" then "flash"
  else mode.

Definition Create (r : NodeUsbResource) (req : resource.Request NodeUsbResourceModel)
  : M (resource.Response NodeUsbResourceModel) :=
  let plan := resource.Plan req in
  let resp := {| resource.Diagnostics := resource.PlanDiags req;
                 resource.State := None |} in
  if HasError (resource.Diagnostics resp) then ret resp
  else
    let node := ValueInt64 (Node plan) in
    let mode := ValueString (Mode plan) in
    let bmc := ValueBool (BMC plan) in
    e <- setUsbMode r node mode bmc ;;
    match e with
    | Err err =>
        ret (resource.Diagnostics_AddError resp "Error Setting USB Mode"
               ("Could not set USB mode for node " ++ pretty node ++
                ": " ++ error_string err))
    | Ok _ =>
        ret (resource.State_Set resp (with_ID ("node-" ++ pretty node ++ "-usb") plan))
    end.

Definition Read (r : NodeUsbResource) (req : resource.Request NodeUsbResourceModel)
  : M (resource.Response NodeUsbResourceModel) :=
  let state := resource.Plan req in
  let resp := {| resource.Diagnostics := resource.PlanDiags req;
                 resource.State := None |} in
  if HasError (resource.Diagnostics resp) then ret resp
  else
    s <- client.UsbGetStatus (r_client r) ;;
    match s with
    | Err err =>
        ret (resource.Diagnostics_AddError resp "Error Reading USB Status"
               ("Could not read USB status: " ++ error_string err))
    | Ok status =>
        (* Map the status mode to our lowercase mode values *)
        let mode := mapModeToLower (tpi.Mode status) in
        (* Map route to bmc boolean *)
        ret (resource.State_Set resp
               (with_status mode (String.eqb (tpi.Route status) "BMC") state))
    end.

Definition Update (r : NodeUsbResource) (req : resource.Request NodeUsbResourceModel)
  : M (resource.Response NodeUsbResourceModel) :=
  let plan := resource.Plan req in
  let resp := {| resource.Diagnostics := resource.PlanDiags req;
                 resource.State := None |} in
  if HasError (resource.Diagnostics resp) then ret resp
  else
    let node := ValueInt64 (Node plan) in
    let mode := ValueString (Mode plan) in
    let bmc := ValueBool (BMC plan) in
    e <- setUsbMode r node mode bmc ;;
    match e with
    | Err err =>
        ret (resource.Diagnostics_AddError resp "Error Setting USB Mode"
               ("Could not set USB mode for node " ++ pretty node ++
                ": " ++ error_string err))
    | Ok _ => ret (resource.State_Set resp plan)
    end.

End node_usb.

(* ===================================================================== *)
(** ** Packages [power_status] and [usb_status] (data sources)            *)
(* ===================================================================== *)

(** The data sources read their configuration with [req.Config.Get] and
    answer like the resources; the same request and response records
    stand for both. *)
Module power_status.

(** PowerStatusDataSource defines the data source implementation. *)
Record PowerStatusDataSource := { d_client : client.Client }.

(** PowerStatusDataSourceModel describes the data source data model. *)
Record PowerStatusDataSourceModel := {
  ID : tfval string;
  Node1 : tfval bool;
  Node2 : tfval bool;
  Node3 : tfval bool;
  Node4 : tfval bool;
}.

Definition Read (d : PowerStatusDataSource)
    (req : resource.Request PowerStatusDataSourceModel)
  : M (resource.Response PowerStatusDataSourceModel) :=
  let resp := {| resource.Diagnostics := resource.PlanDiags req;
                 resource.State := None |} in
  if HasError (resource.Diagnostics resp) then ret resp
  else
    s <- client.PowerStatus (d_client d) ;;
    match s with
    | Err err =>
        ret (resource.Diagnostics_AddError resp "Unable to Read Power Status"
               ("Could not read power status: " ++ error_string err))
    | Ok status =>
        ret (resource.State_Set resp
               {| ID := Known "power-status";
                  Node1 := Known (default false (status !! 1));
                  Node2 := Known (default false (status !! 2));
                  Node3 := Known (default false (status !! 3));
                  Node4 := Known (default false (status !! 4)) |})
    end.

End power_status.

Module usb_status.

(** UsbStatusDataSource defines the data source implementation. *)
Record UsbStatusDataSource := { d_client : client.Client }.

(** UsbStatusDataSourceModel describes the data source data model. *)
Record UsbStatusDataSourceModel := {
  ID : tfval string;
  Node : tfval string;
  Mode : tfval string;
  Route : tfval string;
}.

Definition Read (d : UsbStatusDataSource)
    (req : resource.Request UsbStatusDataSourceModel)
  : M (resource.Response UsbStatusDataSourceModel) :=
  let resp := {| resource.Diagnostics := resource.PlanDiags req;
                 resource.State := None |} in
  if HasError (resource.Diagnostics resp) then ret resp
  else
    s <- client.UsbGetStatus (d_client d) ;;
    match s with
    | Err err =>
        ret (resource.Diagnostics_AddError resp "Unable to Read USB Status"
               ("Could not read USB status: " ++ error_string err))
    | Ok status =>
        ret (resource.State_Set resp
               {| ID := Known "usb-status";
                  Node := Known (tpi.Node status);
                  Mode := Known (tpi.Mode status);
                  Route := Known (tpi.Route status) |})
    end.

End usb_status.

(* ===================================================================== *)
(** ** Package [provider]                                                 *)
(* ===================================================================== *)

Module provider.

(** TuringPiProviderModel describes the provider data model. *)
Record TuringPiProviderModel := {
  Host : tfval string;
  Username : tfval string;
  Password : tfval string;
  SSHUser : tfval string;
  SSHPassword : tfval string;
  SSHPort : tfval Z;
}.

(** What [req.Config.Get(ctx, &config)] delivers. *)
Record ConfigureRequest := {
  Config : TuringPiProviderModel;
  ConfigDiags : list Diagnostic;
}.

Record ConfigureResponse := {
  Diagnostics : list Diagnostic;
  DataSourceData : option client.Client;
  ResourceData : option client.Client;
}.

Section Configure.
(** The environment of the process ([os.Getenv]; an unset variable
    reads as the empty string) and the constructor of the library. *)
Variable Getenv : string -> string.
Variable tpi_NewClient : string -> string -> string -> option error.

Definition Configure (req : ConfigureRequest) : ConfigureResponse :=
  let config := Config req in
  let diags := ConfigDiags req in
  if HasError diags then
    {| Diagnostics := diags; DataSourceData := None; ResourceData := None |}
  else
    (* Get host from config or environment *)
    let host := ValueString (Host config) in
    let host := if String.eqb host "" then Getenv "TURINGPI_HOST" else host in
    let diags :=
      if String.eqb host "" then
        AddError diags "Missing Turing Pi BMC Host"
          ("The provider cannot create the Turing Pi client as there is a missing or empty value for the BMC host. " ++
           "Set the host value in the configuration or use the TURINGPI_HOST environment variable.")
      else diags in
    (* Get username from config or environment, default to "root" *)
    let username := ValueString (Username config) in
    let username :=
      if String.eqb username "" then Getenv "TURINGPI_USERNAME" else username in
    let username := if String.eqb username "" then "root" else username in
    (* Get password from config or environment, default to "turing" *)
    let password := ValueString (Password config) in
    let password :=
      if String.eqb password "" then Getenv "TURINGPI_PASSWORD" else password in
    let password := if String.eqb password "" then "turing" else password in
    (* Get SSH credentials, defaulting to BMC credentials *)
    let sshUser := ValueString (SSHUser config) in
    let sshUser := if String.eqb sshUser "" then username else sshUser in
    let sshPassword := ValueString (SSHPassword config) in
    let sshPassword := if String.eqb sshPassword "" then password else sshPassword in
    let sshPort := ValueInt64 (SSHPort config) in
    let sshPort := if sshPort =? 0 then 22 else sshPort in
    if HasError diags then
      {| Diagnostics := diags; DataSourceData := None; ResourceData := None |}
    else
      (* Create client wrapper *)
      match client.NewClient tpi_NewClient host username password
                             sshUser sshPassword sshPort with
      | Err err =>
          {| Diagnostics :=
               AddError diags "Unable to Create Turing Pi Client"
                 ("An unexpected error occurred when creating the Turing Pi client. " ++
                  "If the error is not clear, please contact the provider developers." ++
                  String (ascii_of_nat 10) (String (ascii_of_nat 10) "") ++
                  "Error: " ++ error_string err);
             DataSourceData := None; ResourceData := None |}
      | Ok clientWrapper =>
          (* Make the client available to resources and data sources *)
          {| Diagnostics := diags;
             DataSourceData := Some clientWrapper;
             ResourceData := Some clientWrapper |}
      end.

End Configure.

End provider.

(* ===================================================================== *)
(** ** Vocabulary of the properties                                       *)
(* ===================================================================== *)

(** The head of the failure schedule and the world once it is consumed. *)
Definition next_fault (w : World) : option string :=
  match w_faults w with f :: _ => f | [] => None end.
Definition after_fault (w : World) : World :=
  match w_faults w with _ :: rest => set_faults rest w | [] => w end.

(** A physical transfer of an image into a cache: a copy into a local
    file, or an upload to the BMC. *)
Definition is_transfer (e : Event) : bool :=
  match e with EvCopy _ _ | EvUploadFile _ _ => true | _ => false end.

(** A network call of the fetcher. *)
Definition is_download (e : Event) : bool :=
  match e with EvHttpGet _ => true | _ => false end.

(** An event that writes a local file. *)
Definition is_file_write (e : Event) : bool :=
  match e with EvCreate _ | EvCopy _ _ => true | _ => false end.

(** A command that changes the state of the device (power or USB). *)
Definition is_state_change (e : Event) : bool :=
  match e with
  | EvPowerOn _ | EvPowerOff _
  | EvUsbSetHost _ _ | EvUsbSetDevice _ _ | EvUsbSetFlash _ _ => true
  | _ => false
  end.

(** A read of the state of the device. *)
Definition is_state_read (e : Event) : bool :=
  match e with EvPowerStatus | EvUsbGetStatus => true | _ => false end.

Definition count (p : Event -> bool) (t : list Event) : nat :=
  List.length (List.filter p t).

(** The three cache locations the provider knows. *)
Definition known_location (location : string) : bool :=
  String.eqb location client.CacheLocationLocal ||
  String.eqb location client.CacheLocationBMC ||
  String.eqb location client.CacheLocationNone.

(** Where the entry of a hash lives in each backend. *)
Definition cache_path (c : client.ImageCache) (hash location : string) : string :=
  if String.eqb location client.CacheLocationLocal
  then filepath.Join [client.localDir c; hash ++ ".img"]
  else client.bmcCacheDir ++ "/" ++ hash ++ ".img".

(** The bytes stored for a hash in a backend, if there is an entry. *)
Definition cache_entry (c : client.ImageCache) (hash location : string) (w : World)
  : option string :=
  if String.eqb location client.CacheLocationLocal
  then w_fs w !! cache_path c hash location
  else d ← w_bmc w !! client.bmcCacheDir; d !! (hash ++ ".img").

(** A string that can be a file name: no ['/'] in it. Every hex digest
    is one. *)
Fixpoint no_slash (s : string) : bool :=
  match s with
  | EmptyString => true
  | String c r => negb (Ascii.eqb c "/") && no_slash r
  end.




(** What the USB status reports, in the terms of the resource (as Read
    maps it), against the planned mode and routing. *)
Definition usb_as_planned (plan : node_usb.NodeUsbResourceModel) (w : World) : bool :=
  String.eqb (node_usb.mapModeToLower (tpi.Mode (w_usb w)))
             (ValueString (node_usb.Mode plan)) &&
  Bool.eqb (String.eqb (tpi.Route (w_usb w)) "BMC") (ValueBool (node_usb.BMC plan)).

(** The result of a continuation, with the events that came before. *)
Definition prepend {A} (t1 : list Event) (r : option A * World * list Event)
  : option A * World * list Event :=
  match r with (a, w, t) => (a, w, (t1 ++ t)%list) end.

Definition unknown_location (location : string) : option (res string) :=
  Some (Err (Errorf ("unknown cache location: " ++ location))).

(** The commands a power reconciliation sends after reading [current]. *)
Definition power_commands (node : Z) (current desired : bool) : list Event :=
  if Bool.eqb current desired then []
  else [if desired then EvPowerOn node else EvPowerOff node].

(** The one command [setUsbMode] sends for a mode the schema admits. *)
Definition usb_command (node : Z) (mode : string) (bmc : bool) : list Event :=
  if String.eqb mode "host" then [EvUsbSetHost node bmc]
  else if String.eqb mode "device" then [EvUsbSetDevice node bmc]
  else if String.eqb mode "flash" then [EvUsbSetFlash node bmc]
  else [].

Definition valid_usb_mode (mode : string) : bool :=
  String.eqb mode "host" || String.eqb mode "device" || String.eqb mode "flash".

Definition file_infos (d : gmap string string) : list tpi.FileInfo :=
  List.map (fun nc => {| tpi.Name := nc.1; tpi.Size := Z.of_nat (String.length nc.2) |})
           (map_to_list d).

(** The error DownloadImage returns for a response it does not accept. *)
Definition status_error (code : Z) : error :=
  Errorf ("download failed with status: " ++ pretty code).

Definition is_flash (e : Event) : bool :=
  match e with EvFlashNode _ _ | EvFlashNodeLocal _ _ => true | _ => false end.

Definition local_path (c : client.ImageCache) (hash : string) : string :=
  filepath.Join [client.localDir c; hash ++ ".img"].

Definition remote_path (hash : string) : string :=
  client.bmcCacheDir ++ "/" ++ hash ++ ".img".

Definition bmc_has (hash : string) (w : World) : Prop :=
  exists d, w_bmc w !! client.bmcCacheDir = Some d /\ is_Some (d !! (hash ++ ".img")).

Definition is_url_plan (plan : node_flash.NodeFlashResourceModel) : bool :=
  negb (IsNull (node_flash.ImageURL plan)) &&
  sne (ValueString (node_flash.ImageURL plan)) "".

Definition has_expected_hash (plan : node_flash.NodeFlashResourceModel) : bool :=
  negb (IsNull (node_flash.SHA256 plan)) &&
  sne (ValueString (node_flash.SHA256 plan)) "".

(** The flash operation the dispatch chooses for a resolved image. *)
Definition flash_event (plan : node_flash.NodeFlashResourceModel)
    (img : node_flash.Resolved) : Event :=
  let node := ValueInt64 (node_flash.Node plan) in
  if String.eqb (ValueString (node_flash.Cache plan)) client.CacheLocationBMC
  then EvFlashNodeLocal node (node_flash.imagePath img)
  else EvFlashNode node {| tpi.ImagePath := node_flash.imagePath img;
                           tpi.SHA256 := node_flash.sha256_ img;
                           tpi.SkipCRC := ValueBool (node_flash.SkipCRC plan) |}.

(** The deferred cleanup of executeFlash: whether it removes the
    temporary file, its events and its effect. *)
Definition cleans_up (img : node_flash.Resolved) : bool :=
  sne (node_flash.tempFile img) "" &&
  sne (node_flash.tempFile img) (node_flash.imagePath img).

Definition cleanup_events (img : node_flash.Resolved) : list Event :=
  if cleans_up img then [EvRemove (node_flash.tempFile img)] else [].

Definition cleanup_world (img : node_flash.Resolved) (w : World) : World :=
  if cleans_up img then set_fs (delete (node_flash.tempFile img) (w_fs w)) w else w.

Definition flash_log (plan : node_flash.NodeFlashResourceModel)
    (img : node_flash.Resolved) (prefix : string) : Event :=
  EvLog LevelInfo "Starting flash to node"
    [("node", LInt (ValueInt64 (node_flash.Node plan)));
     ("image", LStr (node_flash.imagePath img));
     ("sha256", LStr (prefix ++ "..."))].

(** What the flash operation of the dispatch answers in a world: the
    failure the schedule holds for it, and for FlashNodeLocal the missing
    file. *)
Definition flash_answer (plan : node_flash.NodeFlashResourceModel)
    (img : node_flash.Resolved) (w : World) : res unit :=
  match next_fault w with
  | Some m => Err (LibError m)
  | None =>
      if String.eqb (ValueString (node_flash.Cache plan)) client.CacheLocationBMC
      then match remote_file (w_bmc w) (node_flash.imagePath img) with
           | Some _ => Ok tt
           | None => Err (RemoteNotFound (node_flash.imagePath img))
           end
      else Ok tt
  end.

(** What executeFlash returns for that answer. *)
Definition flash_outcome (plan : node_flash.NodeFlashResourceModel)
    (img : node_flash.Resolved) (w : World) : res node_flash.FlashResult :=
  match flash_answer plan img w with
  | Err err => Err (Wrapf "flash operation failed: " err)
  | Ok _ => Ok {| node_flash.Result_SHA256 := node_flash.sha256_ img |}
  end.

Definition mismatch_error (expected got : string) : error :=
  Errorf ("SHA256 mismatch: expected " ++ expected ++ ", got " ++ got).

(** The last lines of DownloadImage ("Verify SHA256 if expected"), for
    the file and the hash the lines before them arrived at. *)
Definition verify (expected : string) (dr : client.DownloadResult)
  : M (res client.DownloadResult) :=
  if sne expected "" && sne (client.SHA256 dr) expected then
    bind (os.Remove (client.Path dr))
      (fun _ => ret (Err (mismatch_error expected (client.SHA256 dr))))
  else ret (Ok dr).

(** What a cache lookup says when it does not produce a path. *)
Definition is_miss (looked : res string) : bool :=
  match looked with Ok p => String.eqb p "" | Err _ => true end.

(** The events of the "check cache first" lines for a lookup that missed. *)
Definition miss_events (looked : res string) : list Event :=
  match looked with
  | Err err => [EvLog LevelWarn "Failed to check cache"
                  [("error", LStr (error_string err))]]
  | Ok _ => []
  end.

(** The hash executeFlash hands to the download: the sha256 of the plan
    when it gives one, and the empty string when it does not. *)
Definition expected_hash (plan : node_flash.NodeFlashResourceModel) : string :=
  if has_expected_hash plan then ValueString (node_flash.SHA256 plan) else "".

(** The "check cache first" lines of a plan with a URL, when they do not
    produce a path: with an expected hash the lookup is made and misses;
    without one no lookup is made. *)
Definition lookup_missed (cache : client.ImageCache)
    (plan : node_flash.NodeFlashResourceModel)
    (w : World) (looked : res string) (w2 : World) (t2 : list Event) : Prop :=
  if has_expected_hash plan
  then client.GetCachedImagePath cache (ValueString (node_flash.SHA256 plan))
         (ValueString (node_flash.Cache plan)) w = (Some looked, w2, t2) /\
       is_miss looked = true
  else looked = Ok "" /\ w2 = w /\ t2 = [].

(** The hash of a plan with a local file: the sha256 of the plan when
    it gives one, and else the digest CalculateFileSHA256 returns. *)
Definition local_hash (plan : node_flash.NodeFlashResourceModel)
    (w : World) (sha : string) (w2 : World) (t2 : list Event) : Prop :=
  if has_expected_hash plan
  then sha = ValueString (node_flash.SHA256 plan) /\ w2 = w /\ t2 = []
  else client.CalculateFileSHA256 (ValueString (node_flash.ImagePath plan)) w
       = (Some (Ok sha), w2, t2).

(** The image as executeFlash holds it before the store: the download,
    marked as temporary file, or the file of the plan. *)
Definition fetched (dr : client.DownloadResult) : node_flash.Resolved :=
  {| node_flash.imagePath := client.Path dr;
     node_flash.sha256_ := client.SHA256 dr;
     node_flash.tempFile := client.Path dr |}.

Definition plan_file (plan : node_flash.NodeFlashResourceModel) (sha : string)
  : node_flash.Resolved :=
  {| node_flash.imagePath := ValueString (node_flash.ImagePath plan);
     node_flash.sha256_ := sha;
     node_flash.tempFile := "" |}.

Definition download_log (plan : node_flash.NodeFlashResourceModel) : Event :=
  EvLog LevelInfo "Downloading image from URL"
    [("url", LStr (ValueString (node_flash.ImageURL plan)))].

(** A computation none of whose events satisfies [p], in any world. *)
Definition never (p : Event -> bool) {A} (m : M A) : Prop :=
  forall w, count p (events (m w)) = 0%nat.

Definition is_log (e : Event) : bool :=
  match e with EvLog _ _ _ => true | _ => false end.

(** The warning for a cache error [e]. *)
Definition cache_warning (e : error) : Event :=
  EvLog LevelWarn "Failed to cache image" [("error", LStr (error_string e))].

(** The warning the orchestrator logs when CacheImage returns an error. *)
Definition is_cache_warning (e : Event) : bool :=
  match e with
  | EvLog LevelWarn msg _ => String.eqb msg "Failed to cache image"
  | _ => false
  end.

(** A lower-case hexadecimal digit, and a string made of them. *)
Definition is_lower_hex (c : ascii) : bool :=
  let n := nat_of_ascii c in
  ((48 <=? n) && (n <=? 57) || (97 <=? n) && (n <=? 102))%nat.

Fixpoint lower_hex (s : string) : bool :=
  match s with
  | EmptyString => true
  | String c r => is_lower_hex c && lower_hex r
  end.

(** A computation that returns in every world: it never panics. *)
Definition safe {A} (m : M A) : Prop := forall w, outcome (m w) <> None.

(** A call that reaches the BMC. *)
Definition is_bmc_call (e : Event) : bool :=
  match e with
  | EvListDirectory _ | EvExecuteCommand _ | EvUploadFile _ _
  | EvFlashNode _ _ | EvFlashNodeLocal _ _
  | EvPowerStatus | EvPowerOn _ | EvPowerOff _
  | EvUsbGetStatus | EvUsbSetHost _ _ | EvUsbSetDevice _ _ | EvUsbSetFlash _ _ => true
  | _ => false
  end.

(** The removal of a local file. *)
Definition is_remove (e : Event) : bool :=
  match e with EvRemove _ => true | _ => false end.

(** The attribute of the power data source that belongs to a node. *)
Definition node_attribute (n : Z) (data : power_status.PowerStatusDataSourceModel)
  : tfval bool :=
  if n =? 1 then power_status.Node1 data
  else if n =? 2 then power_status.Node2 data
  else if n =? 3 then power_status.Node3 data
  else power_status.Node4 data.

(** What a power reconciliation amounts to, [stored] being the state it
    saves when it succeeds: the status is read; a node that already is in
    the desired state is left alone; otherwise one command is sent. *)
Definition power_applied (req : resource.Request node_power.NodePowerResourceModel)
    (stored : node_power.NodePowerResourceModel) (w : World)
  : option (resource.Response node_power.NodePowerResourceModel) * World * list Event :=
  let plan := resource.Plan req in
  let node := ValueInt64 (node_power.Node plan) in
  let desired := ValueBool (node_power.PowerOn plan) in
  let current := default false (w_power w !! node) in
  let failed s d := {| resource.Diagnostics := AddError (resource.PlanDiags req) s d;
                       resource.State := None |} in
  let done := {| resource.Diagnostics := resource.PlanDiags req;
                 resource.State := Some stored |} in
  match next_fault w with
  | Some m =>
      (Some (failed "Error Reading Power Status"
                    ("Could not read power status: " ++ m)),
       after_fault w, [EvPowerStatus])
  | None =>
      if Bool.eqb current desired then (Some done, after_fault w, [EvPowerStatus])
      else
        match next_fault (after_fault w) with
        | Some m =>
            (Some (failed "Error Setting Power State"
                          ("Could not set power state for node " ++ pretty node ++
                           ": " ++ m)),
             after_fault (after_fault w),
             EvPowerStatus :: power_commands node current desired)
        | None =>
            (Some done,
             set_power (<[node := desired]> (w_power w)) (after_fault (after_fault w)),
             EvPowerStatus :: power_commands node current desired)
        end
  end.

(** What setting the USB mode amounts to, [stored] being the state saved
    on success: no status is read; a mode the switch knows sends its one
    command, any other mode is refused without a call. *)
Definition usb_applied (req : resource.Request node_usb.NodeUsbResourceModel)
    (stored : node_usb.NodeUsbResourceModel) (w : World)
  : option (resource.Response node_usb.NodeUsbResourceModel) * World * list Event :=
  let plan := resource.Plan req in
  let node := ValueInt64 (node_usb.Node plan) in
  let mode := ValueString (node_usb.Mode plan) in
  let bmc := ValueBool (node_usb.BMC plan) in
  let failed m :=
    {| resource.Diagnostics :=
         AddError (resource.PlanDiags req) "Error Setting USB Mode"
           ("Could not set USB mode for node " ++ pretty node ++ ": " ++ m);
       resource.State := None |} in
  if valid_usb_mode mode then
    match next_fault w with
    | Some m => (Some (failed m), after_fault w, usb_command node mode bmc)
    | None =>
        (Some {| resource.Diagnostics := resource.PlanDiags req;
                 resource.State := Some stored |},
         TPI.usb_set (if String.eqb mode "host" then "Host"
                      else if String.eqb mode "device" then "Device" else "Flash")
                     node bmc (after_fault w),
         usb_command node mode bmc)
    end
  else (Some (failed ("unknown USB mode: " ++ mode)), w, []).

(** The error of the last branch of [decompress]. *)
Definition unsupported (compression : string) : error :=
  Errorf ("unsupported compression: " ++ compression).

(** A setting of the provider: the configured value, else the
    environment variable, else the built-in default. *)
Definition setting (configured env fallback : string) : string :=
  if String.eqb configured "" then
    if String.eqb env "" then fallback else env
  else configured.

(* ===================================================================== *)
(** ** Scenarios                                                          *)
(* ===================================================================== *)

Module Scenario.

(** Stand-ins for the decoders: an "xz" file is its payload behind the
    marker ["XZ:"]; gzip and zip files are never recognised. *)
Definition libs : Libs := {|
  url_ok := fun _ => true;
  xz_NewReader := fun s =>
    match cut_prefix "XZ:" s with
    | Some payload => Some (StreamReader payload true)
    | None => None
    end;
  gzip_NewReader := fun _ => None;
  zip_OpenReader := fun _ => None;
|}.

Definition bmc_client : client.Client :=
  {| client.Host := "192.168.1.90"; client.SSHUser := "root";
     client.SSHPassword := "turing"; client.SSHPort := 22 |}.

Definition image_url : string := "https://h/ubuntu.img.xz".

(** A board with node 1 off, the USB mux on node 1 as host through the
    USB-A port, no cache anywhere, and a server that answers the image
    URL with an xz file. *)
Definition fresh : World := {|
  w_home := Some "/home/u";
  w_fs := {[ "/images/local.img" := "local-image-bytes" ]};
  w_tmp := 7;
  w_http := {[ image_url := {| StatusCode := 200; ContentType := "";
                               Body := "XZ:image-bytes" |} ]};
  w_bmc := ∅;
  w_power := {[ 1 := false ]};
  w_usb := {| tpi.Mode := "Host"; tpi.Node := "Node 1"; tpi.Route := "USB-A" |};
  w_faults := [];
|}.

Definition with_faults (l : list (option string)) (w : World) : World :=
  set_faults l w.

(** The same board, the server answering the image URL with [code]. *)
Definition answering (code : Z) : World := {|
  w_home := w_home fresh; w_fs := w_fs fresh; w_tmp := w_tmp fresh;
  w_http := {[ image_url := {| StatusCode := code; ContentType := "";
                               Body := "XZ:image-bytes" |} ]};
  w_bmc := w_bmc fresh; w_power := w_power fresh; w_usb := w_usb fresh;
  w_faults := [];
|}.

Definition image_hash : string :=
  "2c8648d103e3dd7ad87660da0f126a1443b6d21ac1bd3ec000c5e24e2373a90c".

(** The board once the image is in the BMC cache, and the machine once
    it is in the local cache. *)
Definition bmc_cached : World :=
  set_bmc {[ "/tmp/tpi-cache" := {[ image_hash ++ ".img" := "image-bytes" ]} ]} fresh.

Definition cache : client.ImageCache :=
  {| client.cache_client := bmc_client;
     client.localDir := "/home/u/.cache/terraform-provider-turingpi" |}.

Definition flash_plan (sha : tfval string) (cacheLocation : string)
  : node_flash.NodeFlashResourceModel :=
  {| node_flash.ID := Unknown; node_flash.Node := Known 1;
     node_flash.ImageURL := Known image_url; node_flash.ImagePath := Null;
     node_flash.SHA256 := sha; node_flash.Cache := Known cacheLocation;
     node_flash.SkipCRC := Known false;
     node_flash.FlashStatus := Unknown; node_flash.LastFlashed := Unknown |}.

Definition local_plan (sha : tfval string) (cacheLocation : string)
  : node_flash.NodeFlashResourceModel :=
  {| node_flash.ID := Unknown; node_flash.Node := Known 1;
     node_flash.ImageURL := Null; node_flash.ImagePath := Known "/images/local.img";
     node_flash.SHA256 := sha; node_flash.Cache := Known cacheLocation;
     node_flash.SkipCRC := Known false;
     node_flash.FlashStatus := Unknown; node_flash.LastFlashed := Unknown |}.

Definition flash_resource : node_flash.NodeFlashResource :=
  {| node_flash.r_client := bmc_client |}.

Definition power_request (on : bool)
  : resource.Request node_power.NodePowerResourceModel :=
  {| resource.Plan := {| node_power.ID := Unknown; node_power.Node := Known 1;
                         node_power.PowerOn := Known on |};
     resource.PlanDiags := [] |}.

Definition usb_request (mode : string) (bmc : bool)
  : resource.Request node_usb.NodeUsbResourceModel :=
  {| resource.Plan := {| node_usb.ID := Unknown; node_usb.Node := Known 1;
                         node_usb.Mode := Known mode; node_usb.BMC := Known bmc |};
     resource.PlanDiags := [] |}.

End Scenario.

(* ===================================================================== *)
(** ** Running computations                                               *)
(* ===================================================================== *)

Lemma external_eq {A} (e : Event) fail (body : M (res A)) w :
  external e fail body w =
  match next_fault w with
  | Some m => (Some (Err (fail m)), after_fault w, [e])
  | None => match body (after_fault w) with (r, w', t) => (r, w', e :: t) end
  end.
Proof.
  unfold external, bind, emit, take_fault, next_fault, after_fault, ret.
  destruct (w_faults w) as [|[m|] rest]; simpl; try reflexivity.
  - destruct (body w) as [[r w'] t]; reflexivity.
  - destruct (body (set_faults rest w)) as [[r w'] t]; reflexivity.
Qed.

Lemma outcome_prepend {A} t1 (r : option A * World * list Event) :
  outcome (prepend t1 r) = outcome r.
Proof. by destruct r as [[a w] t]. Qed.
Lemma world_prepend {A} t1 (r : option A * World * list Event) :
  world_of (prepend t1 r) = world_of r.
Proof. by destruct r as [[a w] t]. Qed.
Lemma events_prepend {A} t1 (r : option A * World * list Event) :
  events (prepend t1 r) = (t1 ++ events r)%list.
Proof. by destruct r as [[a w] t]. Qed.
Lemma prepend_nil {A} (r : option A * World * list Event) : prepend [] r = r.
Proof. by destruct r as [[a w] t]. Qed.
Lemma prepend_prepend {A} t1 t2 (r : option A * World * list Event) :
  prepend t1 (prepend t2 r) = prepend (t1 ++ t2) r.
Proof. destruct r as [[a w] t]. unfold prepend. by rewrite app_assoc. Qed.
Lemma run_eta {A} (r : option A * World * list Event) :
  r = (outcome r, world_of r, events r).
Proof. by destruct r as [[a w] t]. Qed.

Lemma bind_eq {A B} (m : M A) (k : A -> M B) w a w1 t1 :
  m w = (Some a, w1, t1) -> bind m k w = prepend t1 (k a w1).
Proof. intros H. unfold bind. rewrite H. reflexivity. Qed.

Lemma bind_panic {A B} (m : M A) (k : A -> M B) w w1 t1 :
  m w = (None, w1, t1) -> bind m k w = (None, w1, t1).
Proof. intros H. unfold bind. rewrite H. reflexivity. Qed.

Lemma try_ok {A B} (m : M (res A)) f (k : A -> M (res B)) w a w1 t1 :
  m w = (Some (Ok a), w1, t1) -> try m f k w = prepend t1 (k a w1).
Proof. intros H. unfold try. rewrite (bind_eq _ _ _ _ _ _ H). reflexivity. Qed.

Lemma try_err {A B} (m : M (res A)) f (k : A -> M (res B)) w e w1 t1 :
  m w = (Some (Err e), w1, t1) ->
  try m f k w = (Some (Err (f e)), w1, t1).
Proof.
  intros H. unfold try. rewrite (bind_eq _ _ _ _ _ _ H). unfold ret, prepend.
  by rewrite app_nil_r.
Qed.

Lemma try_panic {A B} (m : M (res A)) f (k : A -> M (res B)) w w1 t1 :
  m w = (None, w1, t1) -> try m f k w = (None, w1, t1).
Proof. intros H. unfold try. by rewrite (bind_panic _ _ _ _ _ H). Qed.

Lemma after_fault_fs w : w_fs (after_fault w) = w_fs w.
Proof. unfold after_fault. by destruct (w_faults w). Qed.
Lemma after_fault_bmc w : w_bmc (after_fault w) = w_bmc w.
Proof. unfold after_fault. by destruct (w_faults w). Qed.
Lemma after_fault_power w : w_power (after_fault w) = w_power w.
Proof. unfold after_fault. by destruct (w_faults w). Qed.
Lemma after_fault_usb w : w_usb (after_fault w) = w_usb w.
Proof. unfold after_fault. by destruct (w_faults w). Qed.
Lemma after_fault_http w : w_http (after_fault w) = w_http w.
Proof. unfold after_fault. by destruct (w_faults w). Qed.
Lemma after_fault_home w : w_home (after_fault w) = w_home w.
Proof. unfold after_fault. by destruct (w_faults w). Qed.

(** Without a schedule nothing is injected, and nothing is consumed. *)
Lemma no_faults_next w : w_faults w = [] -> next_fault w = None.
Proof. unfold next_fault. by intros ->. Qed.
Lemma no_faults_after w : w_faults w = [] -> after_fault w = w.
Proof. unfold after_fault. by intros ->. Qed.

(* ===================================================================== *)
(** ** Cache locations                                                    *)
(* ===================================================================== *)

Lemma known_location_cases location :
  known_location location = true ->
  location = "local" \/ location = "bmc" \/ location = "none".
Proof.
  unfold known_location, client.CacheLocationLocal, client.CacheLocationBMC,
    client.CacheLocationNone.
  destruct (String.eqb_spec location "local"); [by left|].
  destruct (String.eqb_spec location "bmc"); [by right; left|].
  destruct (String.eqb_spec location "none"); [by right; right|].
  discriminate.
Qed.

Lemma lookup_unknown_location c hash location w :
  known_location location = false ->
  client.GetCachedImagePath c hash location w = (unknown_location location, w, []).
Proof.
  unfold known_location, client.GetCachedImagePath. intros H.
  apply orb_false_elim in H as [H H3]. apply orb_false_elim in H as [H1 H2].
  by rewrite H1, H2, H3.
Qed.

Lemma put_unknown_location c localPath hash location w :
  known_location location = false ->
  client.CacheImage c localPath hash location w = (unknown_location location, w, []).
Proof.
  unfold known_location, client.CacheImage. intros H.
  apply orb_false_elim in H as [H H3]. apply orb_false_elim in H as [H1 H2].
  by rewrite H1, H2, H3.
Qed.

(** The errors of the two local-backend operations and of the BMC ones
    are never the "unknown cache location" error. *)
Lemma getLocalCachePath_not_unknown c hash location w :
  outcome (client.getLocalCachePath c hash w) <> unknown_location location.
Proof.
  unfold client.getLocalCachePath, os.Stat, bind, outcome.
  rewrite external_eq.
  destruct (next_fault w); simpl; [discriminate|].
  unfold get_world, bind, ret; simpl.
  destruct (w_fs (after_fault w) !! _); simpl; discriminate.
Qed.

Lemma getBMCCachePath_ok c hash w :
  exists p, outcome (client.getBMCCachePath c hash w) = Some (Ok p).
Proof.
  unfold client.getBMCCachePath, client.ListDirectory, TPI.ListDirectory, bind, outcome.
  rewrite external_eq.
  destruct (next_fault w); simpl; [by eexists|].
  unfold get_world, bind, ret; simpl.
  destruct (w_bmc (after_fault w) !! _); simpl; [|by eexists].
  destruct (existsb _ _); simpl; by eexists.
Qed.

Lemma cacheLocally_not_unknown c localPath hash location w :
  outcome (client.cacheLocally c localPath hash w) <> unknown_location location.
Proof.
  unfold client.cacheLocally, try, os.Stat, os.Open, os.Create, io.Copy, os.Remove,
    bind, outcome.
  rewrite external_eq.
  destruct (next_fault w); simpl.
  - rewrite external_eq. destruct (next_fault _); simpl; [discriminate|].
    unfold get_world, bind, ret, modify, emit; simpl.
    destruct (w_fs _ !! localPath); simpl; [|discriminate].
    rewrite external_eq. destruct (next_fault _); simpl; [discriminate|].
    rewrite external_eq. destruct (next_fault _); simpl; discriminate.
  - unfold get_world, bind, ret; simpl.
    destruct (w_fs _ !! _); simpl; [discriminate|].
    rewrite external_eq. destruct (next_fault _); simpl; [discriminate|].
    unfold get_world, bind, ret, modify, emit; simpl.
    destruct (w_fs _ !! localPath); simpl; [|discriminate].
    rewrite external_eq. destruct (next_fault _); simpl; [discriminate|].
    rewrite external_eq. destruct (next_fault _); simpl; discriminate.
Qed.

Lemma cacheToBMC_not_unknown c localPath hash location w :
  outcome (client.cacheToBMC c localPath hash w) <> unknown_location location.
Proof.
  unfold client.cacheToBMC, try, bind, outcome.
  destruct (client.ExecuteCommand _ _ w) as [[[[o|e]|] w1] t1]; simpl; try discriminate.
  pose proof (getBMCCachePath_ok c hash w1) as [p Hp]. unfold outcome in Hp.
  destruct (client.getBMCCachePath c hash w1) as [[r w2] t2]; simpl in *. subst r.
  destruct (sne p ""); simpl; [unfold unknown_location; congruence|].
  destruct (client.UploadFile _ _ _ w2) as [[[[o'|e']|] w3] t3]; simpl;
    unfold unknown_location; congruence.
Qed.

(** C10. A location outside "local", "bmc" and "none" makes both lookup
    and put return the error "unknown cache location: <location>" without
    touching the file system or the BMC (no event, the world as it was);
    for each of the three locations neither operation returns that
    error, so these three are exactly the accepted values. *)
Theorem cache_location_values c localPath hash location w :
  if known_location location then
    outcome (client.GetCachedImagePath c hash location w) <> unknown_location location /\
    outcome (client.CacheImage c localPath hash location w) <> unknown_location location
  else
    client.GetCachedImagePath c hash location w = (unknown_location location, w, []) /\
    client.CacheImage c localPath hash location w = (unknown_location location, w, []).
Proof.
  destruct (known_location location) eqn:K.
  - destruct (known_location_cases _ K) as [-> | [-> | ->]]; split;
      cbn -[client.getLocalCachePath client.getBMCCachePath
            client.cacheLocally client.cacheToBMC].
    + apply getLocalCachePath_not_unknown.
    + apply cacheLocally_not_unknown.
    + destruct (getBMCCachePath_ok c hash w) as [p ->]. discriminate.
    + apply cacheToBMC_not_unknown.
    + discriminate.
    + discriminate.
  - split; [by apply lookup_unknown_location | by apply put_unknown_location].
Qed.

(* ===================================================================== *)
(** ** Power and USB resources                                            *)
(* ===================================================================== *)

Lemma PowerStatus_events c w r w1 t1 :
  client.PowerStatus c w = (r, w1, t1) -> t1 = [EvPowerStatus].
Proof.
  unfold client.PowerStatus, TPI.PowerStatus. rewrite external_eq.
  destruct (next_fault w); simpl; unfold get_world, bind, ret; simpl; congruence.
Qed.

Lemma PowerOn_events c node w : events (client.PowerOn c node w) = [EvPowerOn node].
Proof.
  unfold client.PowerOn, TPI.PowerOn. rewrite external_eq.
  by destruct (next_fault w).
Qed.

Lemma PowerOff_events c node w : events (client.PowerOff c node w) = [EvPowerOff node].
Proof.
  unfold client.PowerOff, TPI.PowerOff. rewrite external_eq.
  by destruct (next_fault w).
Qed.

Lemma PowerOn_returns c node w : exists r, outcome (client.PowerOn c node w) = Some r.
Proof.
  unfold client.PowerOn, TPI.PowerOn. rewrite external_eq.
  destruct (next_fault w); by eexists.
Qed.

Lemma PowerOff_returns c node w : exists r, outcome (client.PowerOff c node w) = Some r.
Proof.
  unfold client.PowerOff, TPI.PowerOff. rewrite external_eq.
  destruct (next_fault w); by eexists.
Qed.

Lemma power_Create_events r req w status w1 t1 :
  HasError (resource.PlanDiags req) = false ->
  client.PowerStatus (node_power.r_client r) w = (Some (Ok status), w1, t1) ->
  let plan := resource.Plan req in
  let node := ValueInt64 (node_power.Node plan) in
  events (node_power.Create r req w) =
  EvPowerStatus :: power_commands node (default false (status !! node))
                                  (ValueBool (node_power.PowerOn plan)).
Proof.
  intros HE HS plan node. unfold node_power.Create. simpl. rewrite HE.
  rewrite (bind_eq _ _ _ _ _ _ HS). rewrite (PowerStatus_events _ _ _ _ _ HS).
  unfold prepend.
  fold plan. fold node. unfold power_commands.
  destruct (Bool.eqb _ _); simpl.
  - reflexivity.
  - destruct (ValueBool _); unfold bind.
    + pose proof (PowerOn_events (node_power.r_client r) node w1) as He.
      destruct (PowerOn_returns (node_power.r_client r) node w1) as [x Hx].
      destruct (client.PowerOn _ _ w1) as [[o w2] t2]. unfold events, outcome in *.
      simpl in *. subst. by destruct x.
    + pose proof (PowerOff_events (node_power.r_client r) node w1) as He.
      destruct (PowerOff_returns (node_power.r_client r) node w1) as [x Hx].
      destruct (client.PowerOff _ _ w1) as [[o w2] t2]. unfold events, outcome in *.
      simpl in *. subst. by destruct x.
Qed.

Lemma power_Update_events r req w status w1 t1 :
  HasError (resource.PlanDiags req) = false ->
  client.PowerStatus (node_power.r_client r) w = (Some (Ok status), w1, t1) ->
  let plan := resource.Plan req in
  let node := ValueInt64 (node_power.Node plan) in
  events (node_power.Update r req w) =
  EvPowerStatus :: power_commands node (default false (status !! node))
                                  (ValueBool (node_power.PowerOn plan)).
Proof.
  intros HE HS plan node. unfold node_power.Update. simpl. rewrite HE.
  rewrite (bind_eq _ _ _ _ _ _ HS). rewrite (PowerStatus_events _ _ _ _ _ HS).
  unfold prepend.
  fold plan. fold node. unfold power_commands.
  destruct (Bool.eqb _ _); simpl.
  - reflexivity.
  - destruct (ValueBool _); unfold bind.
    + pose proof (PowerOn_events (node_power.r_client r) node w1) as He.
      destruct (PowerOn_returns (node_power.r_client r) node w1) as [x Hx].
      destruct (client.PowerOn _ _ w1) as [[o w2] t2]. unfold events, outcome in *.
      simpl in *. subst. by destruct x.
    + pose proof (PowerOff_events (node_power.r_client r) node w1) as He.
      destruct (PowerOff_returns (node_power.r_client r) node w1) as [x Hx].
      destruct (client.PowerOff _ _ w1) as [[o w2] t2]. unfold events, outcome in *.
      simpl in *. subst. by destruct x.
Qed.

Lemma setUsbMode_run r node mode bmc w :
  exists x w1, node_usb.setUsbMode r node mode bmc w =
               (Some x, w1, usb_command node mode bmc).
Proof.
  unfold node_usb.setUsbMode, usb_command, client.UsbSetHost, client.UsbSetDevice,
    client.UsbSetFlash, TPI.UsbSetHost, TPI.UsbSetDevice, TPI.UsbSetFlash.
  destruct (String.eqb mode "host").
  { rewrite external_eq. destruct (next_fault w); by do 2 eexists. }
  destruct (String.eqb mode "device").
  { rewrite external_eq. destruct (next_fault w); by do 2 eexists. }
  destruct (String.eqb mode "flash").
  { rewrite external_eq. destruct (next_fault w); by do 2 eexists. }
  by do 2 eexists.
Qed.

Lemma usb_Create_events r req w :
  HasError (resource.PlanDiags req) = false ->
  let plan := resource.Plan req in
  events (node_usb.Create r req w) =
  usb_command (ValueInt64 (node_usb.Node plan)) (ValueString (node_usb.Mode plan))
              (ValueBool (node_usb.BMC plan)).
Proof.
  intros HE plan. unfold node_usb.Create. simpl. rewrite HE. fold plan.
  destruct (setUsbMode_run r (ValueInt64 (node_usb.Node plan))
              (ValueString (node_usb.Mode plan)) (ValueBool (node_usb.BMC plan)) w)
    as (x & w1 & Hx).
  rewrite (bind_eq _ _ _ _ _ _ Hx). destruct x; simpl; by rewrite app_nil_r.
Qed.

Lemma usb_Update_events r req w :
  HasError (resource.PlanDiags req) = false ->
  let plan := resource.Plan req in
  events (node_usb.Update r req w) =
  usb_command (ValueInt64 (node_usb.Node plan)) (ValueString (node_usb.Mode plan))
              (ValueBool (node_usb.BMC plan)).
Proof.
  intros HE plan. unfold node_usb.Update. simpl. rewrite HE. fold plan.
  destruct (setUsbMode_run r (ValueInt64 (node_usb.Node plan))
              (ValueString (node_usb.Mode plan)) (ValueBool (node_usb.BMC plan)) w)
    as (x & w1 & Hx).
  rewrite (bind_eq _ _ _ _ _ _ Hx). destruct x; simpl; by rewrite app_nil_r.
Qed.

Lemma usb_command_counts node mode bmc :
  valid_usb_mode mode = true ->
  count is_state_change (usb_command node mode bmc) = 1%nat /\
  count is_state_read (usb_command node mode bmc) = 0%nat.
Proof.
  unfold valid_usb_mode, usb_command.
  destruct (String.eqb mode "host"); [done|].
  destruct (String.eqb mode "device"); [done|].
  destruct (String.eqb mode "flash"); [done|]. discriminate.
Qed.

Lemma power_commands_count node current desired :
  count is_state_change (EvPowerStatus :: power_commands node current desired) =
  if Bool.eqb current desired then 0%nat else 1%nat.
Proof. unfold power_commands. destruct (Bool.eqb _ _); [done|]. by destruct desired. Qed.

(** C3, as the code has it. Power Create and Update read the power
    status first; when the read succeeds they send no state-change command
    if the node already is in the desired state, and exactly one if it is
    not. USB Create and Update never read the USB status: for every mode
    the schema admits ("host", "device", "flash") they send exactly one
    set command, whatever the current state of the mux. *)
Theorem device_state_commands :
  (forall r req w status w1 t1,
      HasError (resource.PlanDiags req) = false ->
      client.PowerStatus (node_power.r_client r) w = (Some (Ok status), w1, t1) ->
      let node := ValueInt64 (node_power.Node (resource.Plan req)) in
      let desired := ValueBool (node_power.PowerOn (resource.Plan req)) in
      let current := default false (status !! node) in
      forall run, run = events (node_power.Create r req w) \/
                  run = events (node_power.Update r req w) ->
        (exists rest, run = EvPowerStatus :: rest /\
                      count is_state_read rest = 0%nat) /\
        count is_state_change run = if Bool.eqb current desired then 0%nat else 1%nat) /\
  (forall r req w,
      HasError (resource.PlanDiags req) = false ->
      valid_usb_mode (ValueString (node_usb.Mode (resource.Plan req))) = true ->
      forall run, run = events (node_usb.Create r req w) \/
                  run = events (node_usb.Update r req w) ->
        count is_state_read run = 0%nat /\
        count is_state_change run = 1%nat).
Proof.
  split.
  - intros r req w status w1 t1 HE HS node desired current run Hrun.
    assert (run = EvPowerStatus :: power_commands node current desired) as ->.
    { destruct Hrun as [-> | ->];
        [by eapply power_Create_events | by eapply power_Update_events]. }
    split; [|apply power_commands_count].
    eexists; split; [reflexivity|].
    unfold power_commands. destruct (Bool.eqb _ _); [done|]. by destruct desired.
  - intros r req w HE HV run Hrun.
    assert (run = usb_command (ValueInt64 (node_usb.Node (resource.Plan req)))
                    (ValueString (node_usb.Mode (resource.Plan req)))
                    (ValueBool (node_usb.BMC (resource.Plan req)))) as ->.
    { destruct Hrun as [-> | ->];
        [by apply usb_Create_events | by apply usb_Update_events]. }
    destruct (usb_command_counts (ValueInt64 (node_usb.Node (resource.Plan req)))
                _ (ValueBool (node_usb.BMC (resource.Plan req))) HV) as [H1 H0].
    by split.
Qed.

Lemma device_state_commands_witness :
  count is_state_change
    (events (node_power.Create {| node_power.r_client := Scenario.bmc_client |}
               (Scenario.power_request true) Scenario.fresh)) = 1%nat /\
  count is_state_change
    (events (node_power.Update {| node_power.r_client := Scenario.bmc_client |}
               (Scenario.power_request false) Scenario.fresh)) = 0%nat /\
  count is_state_change
    (events (node_usb.Update {| node_usb.r_client := Scenario.bmc_client |}
               (Scenario.usb_request "device" true) Scenario.fresh)) = 1%nat.
Proof.
  destruct device_state_commands as [HP HU]. split; [|split].
  - refine (proj2 (HP {| node_power.r_client := Scenario.bmc_client |}
                      (Scenario.power_request true) Scenario.fresh
                      {[ 1 := false ]} Scenario.fresh [EvPowerStatus]
                      eq_refl eq_refl _ (or_introl eq_refl))).
  - refine (proj2 (HP {| node_power.r_client := Scenario.bmc_client |}
                      (Scenario.power_request false) Scenario.fresh
                      {[ 1 := false ]} Scenario.fresh [EvPowerStatus]
                      eq_refl eq_refl _ (or_intror eq_refl))).
  - refine (proj2 (HU {| node_usb.r_client := Scenario.bmc_client |}
                      (Scenario.usb_request "device" true) Scenario.fresh
                      eq_refl eq_refl _ (or_intror eq_refl))).
Defined.

(** C3 as stated fails for the USB resource: the mux already is in host
    mode through the USB-A port, the plan asks for exactly that, and Create
    still sends a set command, without having read the status. *)
Lemma usb_create_sends_command_when_satisfied :
  let r := {| node_usb.r_client := Scenario.bmc_client |} in
  let req := Scenario.usb_request "host" false in
  usb_as_planned (resource.Plan req) Scenario.fresh = true /\
  events (node_usb.Create r req Scenario.fresh) = [EvUsbSetHost 1 false] /\
  count is_state_change (events (node_usb.Create r req Scenario.fresh)) <> 0%nat /\
  count is_state_read (events (node_usb.Create r req Scenario.fresh)) = 0%nat.
Proof. vm_compute. repeat split. discriminate. Qed.

(* ===================================================================== *)
(** ** What each primitive does, as an equation                           *)
(* ===================================================================== *)

Lemma Stat_eq path w :
  os.Stat path w =
  match next_fault w with
  | Some m => (Some (Err (PathError "stat" path (EIO m))), after_fault w, [EvStat path])
  | None =>
      match w_fs w !! path with
      | Some _ => (Some (Ok tt), after_fault w, [EvStat path])
      | None => (Some (Err (PathError "stat" path ENOENT)), after_fault w, [EvStat path])
      end
  end.
Proof.
  unfold os.Stat. rewrite external_eq. destruct (next_fault w); [done|].
  unfold bind, get_world, ret. simpl. rewrite after_fault_fs.
  by destruct (w_fs w !! path).
Qed.

Lemma Open_eq path w :
  os.Open path w =
  match next_fault w with
  | Some m => (Some (Err (PathError "open" path (EIO m))), after_fault w, [EvOpen path])
  | None =>
      match w_fs w !! path with
      | Some _ => (Some (Ok path), after_fault w, [EvOpen path])
      | None => (Some (Err (PathError "open" path ENOENT)), after_fault w, [EvOpen path])
      end
  end.
Proof.
  unfold os.Open. rewrite external_eq. destruct (next_fault w); [done|].
  unfold bind, get_world, ret. simpl. rewrite after_fault_fs.
  by destruct (w_fs w !! path).
Qed.

Lemma Create_eq path w :
  os.Create path w =
  match next_fault w with
  | Some m => (Some (Err (PathError "open" path (EIO m))), after_fault w, [EvCreate path])
  | None => (Some (Ok path), set_fs (<[path := ""]> (w_fs w)) (after_fault w),
             [EvCreate path])
  end.
Proof.
  unfold os.Create. rewrite external_eq. destruct (next_fault w); [done|].
  unfold bind, modify, ret. simpl. by rewrite after_fault_fs.
Qed.

Lemma Remove_eq path w :
  os.Remove path w = (Some tt, set_fs (delete path (w_fs w)) w, [EvRemove path]).
Proof. reflexivity. Qed.

Lemma Copy_eq dst src w :
  io.Copy dst src w =
  match next_fault w with
  | Some m => (Some (Err (LibError m)), after_fault w, [EvCopy dst src])
  | None =>
      match src with
      | FileReader p =>
          (Some (Ok tt),
           set_fs (<[dst := default "" (w_fs w !! p)]> (w_fs w)) (after_fault w),
           [EvCopy dst src])
      | StreamReader data ok =>
          (Some (if ok then Ok tt else Err (LibError "unexpected EOF")),
           set_fs (<[dst := data]> (w_fs w)) (after_fault w),
           [EvCopy dst src])
      end
  end.
Proof.
  unfold io.Copy. rewrite external_eq. destruct (next_fault w); [done|].
  unfold bind, get_world, modify, ret. simpl. rewrite after_fault_fs.
  by destruct src.
Qed.

Lemma CopyToSHA256_eq path w :
  io.CopyToSHA256 path w =
  match next_fault w with
  | Some m => (Some (Err (PathError "read" path (EIO m))), after_fault w,
               [EvHashFile path])
  | None => (Some (Ok (sha256.hex (default "" (w_fs w !! path)))), after_fault w,
             [EvHashFile path])
  end.
Proof.
  unfold io.CopyToSHA256. rewrite external_eq. destruct (next_fault w); [done|].
  unfold bind, get_world, ret. simpl. by rewrite after_fault_fs.
Qed.

Lemma MkdirAll_eq path w :
  os.MkdirAll path w =
  match next_fault w with
  | Some m => (Some (Err (PathError "mkdir" path (EIO m))), after_fault w,
               [EvMkdirAll path])
  | None => (Some (Ok tt), after_fault w, [EvMkdirAll path])
  end.
Proof. unfold os.MkdirAll. rewrite external_eq. by destruct (next_fault w). Qed.

Lemma MkdirTemp_eq pattern w :
  os.MkdirTemp pattern w =
  match next_fault w with
  | Some m => (Some (Err (PathError "mkdir" "/tmp" (EIO m))), after_fault w,
               [EvMkdirTemp pattern])
  | None => (Some (Ok ("/tmp/" ++ strings.TrimSuffix pattern "*" ++ pretty (w_tmp w))),
             set_tmp (N.succ (w_tmp w)) (after_fault w), [EvMkdirTemp pattern])
  end.
Proof.
  unfold os.MkdirTemp. rewrite external_eq. destruct (next_fault w); [done|].
  unfold bind, get_world, modify, ret. simpl.
  unfold after_fault. by destruct (w_faults w).
Qed.

Lemma UserHomeDir_eq w :
  os.UserHomeDir w =
  match w_home w with
  | Some h => (Some (Ok h), w, [EvUserHomeDir])
  | None => (Some (Err (LibError "$HOME is not defined")), w, [EvUserHomeDir])
  end.
Proof.
  unfold os.UserHomeDir, bind, emit, get_world, ret. simpl.
  by destruct (w_home w).
Qed.

Lemma Do_eq url w :
  http.Do url w =
  match next_fault w with
  | Some m => (Some (Err (LibError m)), after_fault w, [EvHttpGet url])
  | None =>
      match w_http w !! url with
      | Some r => (Some (Ok r), after_fault w, [EvHttpGet url])
      | None => (Some (Err (LibError "no such host")), after_fault w, [EvHttpGet url])
      end
  end.
Proof.
  unfold http.Do. rewrite external_eq. destruct (next_fault w); [done|].
  unfold bind, get_world, ret. simpl. rewrite after_fault_http.
  by destruct (w_http w !! url).
Qed.

Lemma ListDirectory_eq path w :
  TPI.ListDirectory path w =
  match next_fault w with
  | Some m => (Some (Err (LibError m)), after_fault w, [EvListDirectory path])
  | None =>
      match w_bmc w !! path with
      | Some d => (Some (Ok (file_infos d)), after_fault w, [EvListDirectory path])
      | None => (Some (Err (RemoteNotFound path)), after_fault w, [EvListDirectory path])
      end
  end.
Proof.
  unfold TPI.ListDirectory. rewrite external_eq. destruct (next_fault w); [done|].
  unfold bind, get_world, ret. simpl. rewrite after_fault_bmc.
  by destruct (w_bmc w !! path).
Qed.

Lemma mkdir_cache_eq w :
  TPI.ExecuteCommand ("mkdir -p " ++ client.bmcCacheDir) w =
  match next_fault w with
  | Some m => (Some (Err (LibError m)), after_fault w,
               [EvExecuteCommand ("mkdir -p " ++ client.bmcCacheDir)])
  | None =>
      (Some (Ok ""),
       match w_bmc w !! client.bmcCacheDir with
       | Some _ => after_fault w
       | None => set_bmc (<[client.bmcCacheDir := ∅]> (w_bmc w)) (after_fault w)
       end,
       [EvExecuteCommand ("mkdir -p " ++ client.bmcCacheDir)])
  end.
Proof.
  unfold TPI.ExecuteCommand. rewrite external_eq. destruct (next_fault w); [done|].
  unfold bind, get_world, client.bmcCacheDir. simpl. rewrite after_fault_bmc.
  by destruct (w_bmc w !! "/tmp/tpi-cache").
Qed.

Lemma UploadFile_eq localPath remotePath w :
  TPI.UploadFile localPath remotePath w =
  match next_fault w with
  | Some m => (Some (Err (LibError m)), after_fault w,
               [EvUploadFile localPath remotePath])
  | None =>
      match w_fs w !! localPath with
      | None => (Some (Err (PathError "open" localPath ENOENT)), after_fault w,
                 [EvUploadFile localPath remotePath])
      | Some content =>
          match split_path remotePath with
          | (Some dir, name) =>
              match w_bmc w !! dir with
              | Some d =>
                  (Some (Ok tt),
                   set_bmc (<[dir := <[name := content]> d]> (w_bmc w)) (after_fault w),
                   [EvUploadFile localPath remotePath])
              | None => (Some (Err (RemoteNotFound dir)), after_fault w,
                         [EvUploadFile localPath remotePath])
              end
          | (None, _) => (Some (Err (LibError "invalid remote path")), after_fault w,
                          [EvUploadFile localPath remotePath])
          end
      end
  end.
Proof.
  unfold TPI.UploadFile. rewrite external_eq. destruct (next_fault w); [done|].
  unfold bind, get_world, modify, ret. simpl.
  rewrite after_fault_fs, after_fault_bmc.
  destruct (w_fs w !! localPath); [|done].
  destruct (split_path remotePath) as [[dir|] name]; [|done].
  by destruct (w_bmc w !! dir).
Qed.

Lemma FlashNode_eq node opts w :
  TPI.FlashNode node opts w =
  match next_fault w with
  | Some m => (Some (Err (LibError m)), after_fault w, [EvFlashNode node opts])
  | None => (Some (Ok tt), after_fault w, [EvFlashNode node opts])
  end.
Proof. unfold TPI.FlashNode. rewrite external_eq. by destruct (next_fault w). Qed.

Lemma FlashNodeLocal_eq node path w :
  TPI.FlashNodeLocal node path w =
  (Some match next_fault w with
        | Some m => Err (LibError m)
        | None => match remote_file (w_bmc w) path with
                  | Some _ => Ok tt
                  | None => Err (RemoteNotFound path)
                  end
        end,
   after_fault w, [EvFlashNodeLocal node path]).
Proof.
  unfold TPI.FlashNodeLocal. rewrite external_eq. destruct (next_fault w); [done|].
  unfold bind, get_world. simpl. rewrite after_fault_bmc.
  by destruct (remote_file (w_bmc w) path).
Qed.

(* ===================================================================== *)
(** ** DownloadImage and the HTTP status                                  *)
(* ===================================================================== *)

Lemma try_not_err {A B} (m : M (res A)) f (k : A -> M (res B)) w e0 :
  (forall e, f e <> e0) ->
  (forall a w', outcome (k a w') <> Some (Err e0)) ->
  outcome (try m f k w) <> Some (Err e0).
Proof.
  intros Hf Hk. unfold try, bind, outcome.
  destruct (m w) as [[[[a|e]|] w1] t1]; simpl.
  - specialize (Hk a w1). unfold outcome in Hk.
    by destruct (k a w1) as [[r w2] t2].
  - intros [= E]. by apply (Hf e).
  - discriminate.
Qed.

Lemma try_id_not_err {A B} (m : M (res A)) (k : A -> M (res B)) w e0 :
  outcome (m w) <> Some (Err e0) ->
  (forall a w', outcome (k a w') <> Some (Err e0)) ->
  outcome (try m (fun err => err) k w) <> Some (Err e0).
Proof.
  intros Hm Hk. unfold try, bind, outcome in *.
  destruct (m w) as [[[[a|e]|] w1] t1]; simpl in *.
  - specialize (Hk a w1). unfold outcome in Hk.
    by destruct (k a w1) as [[r w2] t2].
  - congruence.
  - discriminate.
Qed.

Lemma bind_not_err {A B} (m : M A) (k : A -> M (res B)) w e0 :
  (forall a w', outcome (k a w') <> Some (Err e0)) ->
  outcome (bind m k w) <> Some (Err e0).
Proof.
  intros Hk. unfold bind, outcome.
  destruct (m w) as [[[a|] w1] t1]; simpl; [|discriminate].
  specialize (Hk a w1). unfold outcome in Hk.
  by destruct (k a w1) as [[r w2] t2].
Qed.

Lemma try_events_ok {A B} (m : M (res A)) f (k : A -> M (res B)) w a w1 t1 :
  m w = (Some (Ok a), w1, t1) ->
  events (try m f k w) = (t1 ++ events (k a w1))%list.
Proof. intros H. by rewrite (try_ok _ _ _ _ _ _ _ H), events_prepend. Qed.

Section DownloadStatus.
Context {L : Libs}.

Lemma destinationDir_frame opts w d w1 t1 :
  client.destinationDir opts w = (Some (Ok d), w1, t1) ->
  w_fs w1 = w_fs w /\ w_bmc w1 = w_bmc w /\ count is_file_write t1 = 0%nat.
Proof.
  unfold client.destinationDir. destruct (String.eqb _ _).
  - unfold try, bind. rewrite MkdirTemp_eq.
    destruct (next_fault w); simpl; [discriminate|].
    intros [= <- <- <-]. simpl. by rewrite after_fault_fs, after_fault_bmc.
  - unfold ret. by intros [= <- <- <-].
Qed.

Lemma Do_frame url w r w1 t1 :
  http.Do url w = (r, w1, t1) ->
  w_fs w1 = w_fs w /\ w_bmc w1 = w_bmc w /\ t1 = [EvHttpGet url].
Proof.
  rewrite Do_eq. destruct (next_fault w); [|destruct (w_http w !! url)];
    intros [= <- <- <-]; by rewrite after_fault_fs, after_fault_bmc.
Qed.

(** C9, as the code has it. Once the server has answered, DownloadImage
    returns the error "download failed with status: N" exactly when the
    status N is not 200: for status 200 the download proceeds (it goes on
    to create the download file, and never returns a status error), and
    for every other status, the other 2xx codes included, the status
    error is returned before any file is written. *)
Theorem DownloadImage_status url opts destDir w w1 t1 resp w2 t2 :
  url_ok url = true ->
  client.destinationDir
    (default {| client.ExpectedSHA256 := ""; client.DestDir := "" |} opts) w
    = (Some (Ok destDir), w1, t1) ->
  http.Do url w1 = (Some (Ok resp), w2, t2) ->
  let run := client.DownloadImage url opts w in
  if StatusCode resp =? 200 then
    (forall code, outcome run <> Some (Err (status_error code))) /\
    exists rest,
      events run =
      (t1 ++ t2 ++ EvCreate (filepath.Join [destDir; filepath.Base url]) :: rest)%list
  else
    run = (Some (Err (status_error (StatusCode resp))), w2, (t1 ++ t2)%list) /\
    count is_file_write (t1 ++ t2) = 0%nat /\
    w_fs w2 = w_fs w.
Proof.
  intros Hurl Hd Hdo run. subst run. unfold client.DownloadImage.
  set (o := default _ opts) in *.
  rewrite (try_ok _ _ _ _ _ _ _ Hd). rewrite Hurl. cbn [negb].
  rewrite (try_ok _ _ _ _ _ _ _ Hdo). unfold http.StatusOK.
  destruct (StatusCode resp =? 200) eqn:Hs; cbn [negb].
  - split.
    + intros code. rewrite !outcome_prepend.
      apply try_not_err; [discriminate|]. intros downloadFile w3.
      apply try_not_err; [discriminate|]. intros _ w4.
      apply try_id_not_err.
      * destruct (sne _ "").
        -- apply try_not_err; [discriminate|]. intros finalPath w5.
           apply bind_not_err. intros _ w6. discriminate.
        -- discriminate.
      * intros finalPath w5.
        apply try_not_err; [discriminate|]. intros sha256Hash w6.
        destruct (_ && _).
        -- apply bind_not_err. intros _ w7. discriminate.
        -- discriminate.
    + rewrite !events_prepend.
      set (p := filepath.Join [destDir; filepath.Base url]).
      pose proof (Create_eq p w2) as Hc.
      destruct (next_fault w2).
      * rewrite (try_err _ _ _ _ _ _ _ Hc). by exists [].
      * rewrite (try_events_ok _ _ _ _ _ _ _ Hc). by eexists.
  - destruct (destinationDir_frame _ _ _ _ _ Hd) as (F1 & _ & C1).
    destruct (Do_frame _ _ _ _ _ Hdo) as (F2 & _ & ->).
    split; [|split].
    + unfold ret, prepend. by rewrite app_nil_r.
    + unfold count in *. rewrite List.filter_app, length_app. simpl. lia.
    + congruence.
Qed.

End DownloadStatus.

Lemma DownloadImage_status_witness :
  client.DownloadImage (L := Scenario.libs) Scenario.image_url None
    (Scenario.answering 404)
  = (Some (Err (status_error 404)), set_tmp 8 (Scenario.answering 404),
     [EvMkdirTemp "turingpi-download-*"; EvHttpGet Scenario.image_url]) /\
  (forall code,
     outcome (client.DownloadImage (L := Scenario.libs) Scenario.image_url None
                (Scenario.answering 200))
     <> Some (Err (status_error code))).
Proof.
  split.
  - refine (proj1 (@DownloadImage_status Scenario.libs Scenario.image_url None
                     "/tmp/turingpi-download-7" (Scenario.answering 404)
                     (set_tmp 8 (Scenario.answering 404))
                     [EvMkdirTemp "turingpi-download-*"]
                     {| StatusCode := 404; ContentType := ""; Body := "XZ:image-bytes" |}
                     (set_tmp 8 (Scenario.answering 404))
                     [EvHttpGet Scenario.image_url] eq_refl _ _));
      vm_compute; reflexivity.
  - refine (proj1 (@DownloadImage_status Scenario.libs Scenario.image_url None
                     "/tmp/turingpi-download-7" (Scenario.answering 200)
                     (set_tmp 8 (Scenario.answering 200))
                     [EvMkdirTemp "turingpi-download-*"]
                     {| StatusCode := 200; ContentType := ""; Body := "XZ:image-bytes" |}
                     (set_tmp 8 (Scenario.answering 200))
                     [EvHttpGet Scenario.image_url] eq_refl _ _));
      vm_compute; reflexivity.
Defined.

(** C9 as stated fails: 204 is a 2xx status, and DownloadImage answers it
    with the status error, creating no file. *)
Lemma DownloadImage_rejects_204 :
  (200 <=? 204) && (204 <? 300) = true /\
  outcome (client.DownloadImage (L := Scenario.libs) Scenario.image_url None
             (Scenario.answering 204))
  = Some (Err (Errorf "download failed with status: 204")) /\
  count is_file_write
    (events (client.DownloadImage (L := Scenario.libs) Scenario.image_url None
               (Scenario.answering 204))) = 0%nat.
Proof. vm_compute. repeat split. Qed.

(* ===================================================================== *)
(** ** Lookup in the BMC cache                                            *)
(* ===================================================================== *)

(** Whatever makes the listing fail, getBMCCachePath answers "not
    cached" and no error. *)
Lemma getBMCCachePath_list_error c hash w e w1 t1 :
  client.ListDirectory (client.cache_client c) client.bmcCacheDir w
    = (Some (Err e), w1, t1) ->
  client.getBMCCachePath c hash w = (Some (Ok ""), w1, t1).
Proof.
  intros H. unfold client.getBMCCachePath.
  rewrite (bind_eq _ _ _ _ _ _ H). unfold ret, prepend. by rewrite app_nil_r.
Qed.

(** The first-use case: no cache directory on the BMC yet. *)
Lemma getBMCCachePath_no_directory c hash w :
  next_fault w = None ->
  w_bmc w !! client.bmcCacheDir = None ->
  client.getBMCCachePath c hash w
  = (Some (Ok ""), after_fault w, [EvListDirectory client.bmcCacheDir]).
Proof.
  intros Hf Hd.
  apply (getBMCCachePath_list_error _ _ _ (RemoteNotFound client.bmcCacheDir)).
  unfold client.ListDirectory. rewrite ListDirectory_eq, Hf, Hd. reflexivity.
Qed.

(** C2 at its failing input. The image is in the BMC cache, the SFTP
    session behind the listing breaks (a failure that is not "no such
    directory"), and the lookup reports a cache miss with no error, where
    the claim has the failure propagated. With no cache directory at all
    the answer is the same miss. *)
Theorem getBMCCachePath_hides_list_failure :
  let w := Scenario.with_faults [Some "ssh: handshake failed"] Scenario.bmc_cached in
  cache_entry Scenario.cache Scenario.image_hash "bmc" w = Some "image-bytes" /\
  outcome (client.ListDirectory Scenario.bmc_client client.bmcCacheDir w)
  = Some (Err (LibError "ssh: handshake failed")) /\
  outcome (client.getBMCCachePath Scenario.cache Scenario.image_hash w)
  = Some (Ok "") /\
  outcome (client.GetCachedImagePath Scenario.cache Scenario.image_hash "bmc" w)
  = Some (Ok "") /\
  outcome (client.GetCachedImagePath Scenario.cache Scenario.image_hash "bmc"
             Scenario.bmc_cached)
  = Some (Ok ("/tmp/tpi-cache/" ++ Scenario.image_hash ++ ".img")) /\
  outcome (client.GetCachedImagePath Scenario.cache Scenario.image_hash "bmc"
             Scenario.fresh)
  = Some (Ok "").
Proof. vm_compute. repeat split. Qed.

(* ===================================================================== *)
(** ** The flash dispatch after a download                                *)
(* ===================================================================== *)

(** C1 at its failing input. A provisioning run with cache = "bmc" and
    no expected hash downloads the image, uploads it to
    /tmp/tpi-cache/<hash>.img, and then calls FlashNodeLocal with the path
    of the downloaded file on the local disk, not with the path in the
    BMC cache. *)
Theorem flash_after_download_uses_local_path :
  let run := node_flash.executeFlash (L := Scenario.libs) Scenario.flash_resource
               (Scenario.flash_plan Unknown "bmc") Scenario.fresh in
  let downloaded := "/tmp/turingpi-download-7/ubuntu.img" in
  let cached := "/tmp/tpi-cache/" ++ Scenario.image_hash ++ ".img" in
  In (EvUploadFile downloaded cached) (events run) /\
  In (EvLog LevelInfo "Image cached" [("path", LStr cached)]) (events run) /\
  cache_entry Scenario.cache Scenario.image_hash "bmc" (world_of run)
  = Some "image-bytes" /\
  List.filter is_flash (events run) = [EvFlashNodeLocal 1 downloaded] /\
  w_fs (world_of run) !! downloaded = Some "image-bytes" /\
  downloaded <> cached.
Proof. vm_compute. repeat split; auto 20. discriminate. Qed.

(* ===================================================================== *)
(** ** The cache: put                                                     *)
(* ===================================================================== *)

Lemma split_path_name name :
  no_slash name = true -> split_path name = (None, name).
Proof.
  induction name as [|c r IH]; simpl; [done|].
  intros [Hc Hr]%andb_true_iff. rewrite (IH Hr).
  apply negb_true_iff in Hc. by rewrite Hc.
Qed.

Lemma split_path_join dir name :
  no_slash name = true -> split_path (dir ++ "/" ++ name) = (Some dir, name).
Proof.
  intros Hn. induction dir as [|c d IH].
  - change (split_path (String "/" name) = (Some "", name)).
    cbn [split_path]. by rewrite (split_path_name _ Hn).
  - change (split_path (String c (d ++ "/" ++ name)) = (Some (String c d), name)).
    cbn [split_path]. by rewrite IH.
Qed.

Lemma no_slash_app a b : no_slash (a ++ b) = no_slash a && no_slash b.
Proof. induction a as [|c r IH]; simpl; [done|]. by rewrite IH, andb_assoc. Qed.

Lemma listed_iff (d : gmap string string) name :
  existsb (fun f => String.eqb (tpi.Name f) name) (file_infos d) = true <->
  is_Some (d !! name).
Proof.
  unfold file_infos. rewrite existsb_exists. split.
  - intros (f & Hin & Heq). apply in_map_iff in Hin as ([n c] & <- & Hin).
    simpl in Heq. apply String.eqb_eq in Heq as ->.
    apply list_elem_of_In, elem_of_map_to_list in Hin. by eexists.
  - intros [c Hc]. exists {| tpi.Name := name; tpi.Size := Z.of_nat (String.length c) |}.
    split; [|simpl; apply String.eqb_refl].
    apply in_map_iff. exists (name, c). split; [done|].
    by apply list_elem_of_In, elem_of_map_to_list.
Qed.

Lemma after_fault_no_faults w : w_faults w = [] -> w_faults (after_fault w) = [].
Proof. intros H. by rewrite (no_faults_after _ H). Qed.

Ltac no_faults Hw :=
  repeat rewrite (no_faults_after _ Hw) in *;
  repeat rewrite (no_faults_next _ Hw) in *;
  try discriminate;
  try (match goal with
       | F : next_fault _ = Some _ |- _ =>
           unfold next_fault in F; simpl in F; rewrite Hw in F; discriminate
       end);
  repeat (first [apply after_fault_no_faults | progress simpl]); try exact Hw.

Ltac sound_case :=
  split;
  [ let Hp := fresh "Hp" in
    intros ? Hp; simpl in Hp; try discriminate Hp;
    try (injection Hp as <-; split;
         [reflexivity | repeat (progress (simpl; rewrite ?after_fault_fs, ?lookup_insert_eq));
          try match goal with H : ?x = Some _ |- is_Some ?x => rewrite H end;
          eauto])
  | split;
    [ unfold count; simpl; lia
    | split;
      [ repeat (progress (simpl; rewrite ?after_fault_bmc)); reflexivity
      | let Hw := fresh "Hw" in intros Hw; no_faults Hw ] ] ].

Lemma cacheLocally_sound c src hash w :
  let r := client.cacheLocally c src hash w in
  (forall p, outcome r = Some (Ok p) ->
     p = local_path c hash /\ is_Some (w_fs (world_of r) !! local_path c hash)) /\
  (count is_transfer (events r) <= 1)%nat /\
  w_bmc (world_of r) = w_bmc w /\
  (w_faults w = [] -> w_faults (world_of r) = []).
Proof.
  cbv zeta. unfold outcome, world_of, events, client.cacheLocally, try, bind.
  fold (local_path c hash). set (dest := local_path c hash).
  rewrite Stat_eq.
  destruct (next_fault w) eqn:F1; [|destruct (w_fs w !! dest) eqn:E1]; simpl.
  2: by sound_case.
  all: rewrite Open_eq;
    destruct (next_fault (after_fault w)) eqn:F2;
      [|destruct (w_fs (after_fault w) !! src) eqn:E2]; simpl.
  all: try by sound_case.
  all: rewrite Create_eq;
    destruct (next_fault (after_fault (after_fault w))) eqn:F3; simpl.
  all: try by sound_case.
  all: rewrite Copy_eq; simpl.
  all: match goal with |- context [next_fault ?x] => destruct (next_fault x) eqn:F4 end; simpl.
  all: by sound_case.
Qed.

Lemma split_remote_path hash :
  no_slash hash = true ->
  split_path (remote_path hash) = (Some client.bmcCacheDir, hash ++ ".img").
Proof.
  intros H. unfold remote_path. apply split_path_join.
  rewrite no_slash_app, H. reflexivity.
Qed.

Lemma getBMCCachePath_eq c hash w :
  client.getBMCCachePath c hash w =
  (Some (Ok (match next_fault w, w_bmc w !! client.bmcCacheDir with
             | None, Some d =>
                 if existsb (fun f => String.eqb (tpi.Name f) (hash ++ ".img"))
                            (file_infos d)
                 then remote_path hash else ""
             | _, _ => ""
             end)),
   after_fault w, [EvListDirectory client.bmcCacheDir]).
Proof.
  unfold client.getBMCCachePath, client.ListDirectory, bind.
  rewrite ListDirectory_eq.
  destruct (next_fault w); [done|].
  destruct (w_bmc w !! client.bmcCacheDir); [|done].
  by destruct (existsb _ _).
Qed.

Lemma cacheToBMC_sound c localPath hash w :
  no_slash hash = true ->
  let r := client.cacheToBMC c localPath hash w in
  (forall p, outcome r = Some (Ok p) ->
     p = remote_path hash /\ bmc_has hash (world_of r)) /\
  (count is_transfer (events r) <= 1)%nat /\
  w_fs (world_of r) = w_fs w /\
  (w_faults w = [] -> w_faults (world_of r) = []).
Proof.
  intros Hh. cbv zeta.
  unfold outcome, world_of, events, client.cacheToBMC, try, bind, client.ExecuteCommand.
  fold (remote_path hash).
  rewrite mkdir_cache_eq.
  destruct (next_fault w) eqn:F1; simpl.
  { split; [intros ? [=]|]. split; [unfold count; simpl; lia|].
    split; [by rewrite after_fault_fs|]. intros Hw. by no_faults Hw. }
  set (w1 := match w_bmc w !! client.bmcCacheDir with
             | Some _ => after_fault w
             | None => set_bmc (<[client.bmcCacheDir:=∅]> (w_bmc w)) (after_fault w)
             end).
  assert (w_fs w1 = w_fs w) as Hfs1.
  { subst w1. destruct (w_bmc w !! _); simpl; by rewrite after_fault_fs. }
  assert (w_faults w = [] -> w_faults w1 = []) as Hf1.
  { intros Hw. subst w1. destruct (w_bmc w !! _); by no_faults Hw. }
  rewrite getBMCCachePath_eq. simpl.
  destruct (next_fault w1) eqn:F2; [|destruct (w_bmc w1 !! client.bmcCacheDir) as [d|] eqn:E2;
    [destruct (existsb _ _) eqn:X|]]; simpl.
  2: { (* found *)
       split.
       { intros p [= <-]. split; [done|]. exists d.
         rewrite after_fault_bmc. split; [done|]. by apply listed_iff. }
       split; [unfold count; simpl; lia|].
       split; [by rewrite after_fault_fs|].
       intros Hw. specialize (Hf1 Hw). by apply after_fault_no_faults. }
  all: unfold client.UploadFile; rewrite UploadFile_eq;
    rewrite (split_remote_path _ Hh); rewrite ?after_fault_fs, ?after_fault_bmc.
  all: destruct (next_fault (after_fault w1)) eqn:F3;
    [|destruct (w_fs w1 !! localPath) as [content|] eqn:E3;
      [destruct (w_bmc w1 !! client.bmcCacheDir) as [d'|] eqn:E4|]]; simpl.
  all: split;
    [ intros p Hp; try discriminate Hp
    | split; [unfold count; simpl; lia
      | split; [repeat (progress (simpl; rewrite ?after_fault_fs)); done
        | intros Hw; specialize (Hf1 Hw);
          repeat (first [apply after_fault_no_faults | progress simpl]); done ] ] ].
  all: injection Hp as <-; split; [done|].
  all: eexists; simpl; rewrite lookup_insert_eq; split; [done|];
    rewrite lookup_insert_eq; by eexists.
Qed.

Lemma cacheLocally_hit c src hash w :
  w_faults w = [] ->
  is_Some (w_fs w !! local_path c hash) ->
  client.cacheLocally c src hash w
  = (Some (Ok (local_path c hash)), w, [EvStat (local_path c hash)]).
Proof.
  intros Hw [x Hx]. unfold client.cacheLocally, bind. fold (local_path c hash).
  rewrite Stat_eq, (no_faults_next _ Hw), (no_faults_after _ Hw), Hx. reflexivity.
Qed.

Lemma cacheToBMC_hit c localPath hash w :
  w_faults w = [] ->
  bmc_has hash w ->
  client.cacheToBMC c localPath hash w
  = (Some (Ok (remote_path hash)), w,
     [EvExecuteCommand ("mkdir -p " ++ client.bmcCacheDir);
      EvListDirectory client.bmcCacheDir]).
Proof.
  intros Hw (d & Hd & Hn).
  unfold client.cacheToBMC, try, bind, client.ExecuteCommand.
  rewrite mkdir_cache_eq, (no_faults_next _ Hw), (no_faults_after _ Hw), Hd.
  rewrite getBMCCachePath_eq, (no_faults_next _ Hw), (no_faults_after _ Hw), Hd.
  apply listed_iff in Hn. rewrite Hn. reflexivity.
Qed.


Lemma cache_entry_bmc c hash w :
  is_Some (cache_entry c hash "bmc" w) <-> bmc_has hash w.
Proof.
  unfold cache_entry, bmc_has. simpl.
  destruct (w_bmc w !! client.bmcCacheDir) as [d|]; simpl.
  - split; [intros H; by exists d | by intros (d' & [= <-] & H)].
  - split; [by intros [x [=]] | by intros (d' & [=] & _)].
Qed.

Lemma CacheImage_hit c localPath hash location w :
  location = "local" \/ location = "bmc" ->
  w_faults w = [] ->
  is_Some (cache_entry c hash location w) ->
  exists t,
    client.CacheImage c localPath hash location w
    = (Some (Ok (cache_path c hash location)), w, t) /\
    count is_transfer t = 0%nat.
Proof.
  intros [-> | ->] Hw He.
  - eexists. split; [by apply cacheLocally_hit | done].
  - apply cache_entry_bmc in He. eexists.
    split; [by apply cacheToBMC_hit | done].
Qed.








(* ===================================================================== *)
(** ** The cache: lookup after put                                        *)
(* ===================================================================== *)











(* ===================================================================== *)
(** ** executeFlash: cache hit, integrity failure                         *)
(* ===================================================================== *)

Lemma count_app p (a b : list Event) : count p (a ++ b) = (count p a + count p b)%nat.
Proof. unfold count. by rewrite List.filter_app, length_app. Qed.

Lemma log_info_bind {B} msg fields (k : unit -> M B) w :
  bind (tflog.Info msg fields) k w = prepend [EvLog LevelInfo msg fields] (k tt w).
Proof. reflexivity. Qed.

Lemma log_warn_bind {B} msg fields (k : unit -> M B) w :
  bind (tflog.Warn msg fields) k w = prepend [EvLog LevelWarn msg fields] (k tt w).
Proof. reflexivity. Qed.

Lemma sne_true a b : sne a b = true <-> a <> b.
Proof. unfold sne. rewrite negb_true_iff. by destruct (String.eqb_spec a b). Qed.

Lemma flash_outcome_ok plan img w result :
  flash_outcome plan img w = Ok result ->
  node_flash.Result_SHA256 result = node_flash.sha256_ img.
Proof.
  unfold flash_outcome. destruct (flash_answer plan img w); [|discriminate].
  by intros [= <-].
Qed.

Lemma flash_outcome_err plan img w err :
  flash_outcome plan img w = Err err ->
  exists cause, err = Wrapf "flash operation failed: " cause.
Proof.
  unfold flash_outcome. destruct (flash_answer plan img w); [discriminate|].
  intros [= <-]. by eexists.
Qed.

Lemma dispatchFlash_eq r plan img w :
  node_flash.dispatchFlash r plan img w =
  match strings.slice_to (node_flash.sha256_ img) 16 with
  | None => (None, cleanup_world img w, cleanup_events img)
  | Some prefix =>
      (Some (flash_outcome plan img w),
       cleanup_world img (after_fault w),
       (flash_log plan img prefix :: flash_event plan img :: cleanup_events img)%list)
  end.
Proof.
  unfold node_flash.dispatchFlash, defer, cleanup_world, cleanup_events, flash_event,
    flash_log. fold (cleans_up img).
  destruct (strings.slice_to _ 16) as [prefix|]; simpl.
  2: { unfold panic. by destruct (cleans_up img). }
  rewrite log_info_bind.
  unfold bind, client.FlashNodeLocal, client.FlashNode, flash_outcome, flash_answer.
  destruct (String.eqb _ client.CacheLocationBMC).
  - rewrite FlashNodeLocal_eq. destruct (next_fault w); simpl;
      [|destruct (remote_file _ _)]; by destruct (cleans_up img).
  - rewrite FlashNode_eq. destruct (next_fault w); simpl;
      by destruct (cleans_up img).
Qed.

Section Flash.
Context {L : Libs}.

Lemma resolveImage_cache_hit cache plan w path w2 t2 :
  is_url_plan plan = true ->
  has_expected_hash plan = true ->
  client.GetCachedImagePath cache (ValueString (node_flash.SHA256 plan))
    (ValueString (node_flash.Cache plan)) w = (Some (Ok path), w2, t2) ->
  path <> "" ->
  node_flash.resolveImage cache plan w
  = (Some (Ok {| node_flash.imagePath := path;
                 node_flash.sha256_ := ValueString (node_flash.SHA256 plan);
                 node_flash.tempFile := "" |}),
     w2,
     (EvLog LevelInfo "Downloading image from URL"
        [("url", LStr (ValueString (node_flash.ImageURL plan)))] :: t2 ++
      [EvLog LevelInfo "Using cached image" [("path", LStr path)]])%list).
Proof.
  unfold is_url_plan, has_expected_hash. intros Hu Hh Hlook Hp.
  unfold node_flash.resolveImage. rewrite Hu, Hh.
  rewrite log_info_bind.
  erewrite (bind_eq (bind _ _)); cycle 1.
  { rewrite (bind_eq _ _ _ _ _ _ Hlook). rewrite (proj2 (sne_true _ _) Hp).
    rewrite log_info_bind. unfold ret, prepend. reflexivity. }
  cbv beta iota.
  assert (String.eqb path "" = false) as -> by (by apply String.eqb_neq).
  unfold ret, prepend. simpl. by rewrite app_nil_r.
Qed.


Lemma NewImageCache_frame c w r w1 t1 :
  client.NewImageCache c w = (r, w1, t1) ->
  w_fs w1 = w_fs w /\ w_bmc w1 = w_bmc w /\
  count is_download t1 = 0%nat /\ count is_transfer t1 = 0%nat.
Proof.
  unfold client.NewImageCache, try, bind. rewrite UserHomeDir_eq.
  destruct (w_home w); simpl; [|by intros [= <- <- <-]].
  rewrite MkdirAll_eq. destruct (next_fault w); simpl;
    intros [= <- <- <-]; by rewrite after_fault_fs, after_fault_bmc.
Qed.

Lemma GetCachedImagePath_frame c hash location w r w1 t1 :
  client.GetCachedImagePath c hash location w = (r, w1, t1) ->
  w_fs w1 = w_fs w /\ w_bmc w1 = w_bmc w /\
  count is_download t1 = 0%nat /\ count is_transfer t1 = 0%nat.
Proof.
  unfold client.GetCachedImagePath.
  destruct (String.eqb location client.CacheLocationLocal).
  { unfold client.getLocalCachePath, bind. rewrite Stat_eq.
    destruct (next_fault w); [|destruct (w_fs w !! _)]; simpl;
      intros [= <- <- <-]; by rewrite after_fault_fs, after_fault_bmc. }
  destruct (String.eqb location client.CacheLocationBMC).
  { rewrite getBMCCachePath_eq. intros [= <- <- <-].
    by rewrite after_fault_fs, after_fault_bmc. }
  destruct (String.eqb location client.CacheLocationNone); by intros [= <- <- <-].
Qed.

Lemma dispatchFlash_no_download r plan img w :
  count is_download (events (node_flash.dispatchFlash r plan img w)) = 0%nat.
Proof.
  rewrite dispatchFlash_eq. unfold cleanup_events, flash_event, flash_log.
  destruct (strings.slice_to (node_flash.sha256_ img) 16); destruct (cleans_up img);
    destruct (String.eqb (ValueString (node_flash.Cache plan)) client.CacheLocationBMC);
    reflexivity.
Qed.

Lemma dispatchFlash_result r plan img w result :
  outcome (node_flash.dispatchFlash r plan img w) = Some (Ok result) ->
  node_flash.Result_SHA256 result = node_flash.sha256_ img.
Proof.
  rewrite dispatchFlash_eq.
  destruct (strings.slice_to _ 16); [|discriminate].
  unfold outcome, flash_outcome. simpl.
  destruct (flash_answer plan img w); [|discriminate]. by intros [= <-].
Qed.

(** C6. A provision from a URL with an expected hash, whose cache lookup
    for that hash at the configured location returns a path: no download
    is made (no HTTP request in the run), the run goes from the lookup
    straight to the flash stage with the cached path, and whenever it
    reports a content hash, that hash is the expected one. *)
Theorem cache_hit_skips_download r plan w cache w1 t1 path w2 t2 :
  is_url_plan plan = true ->
  has_expected_hash plan = true ->
  client.NewImageCache (node_flash.r_client r) w = (Some (Ok cache), w1, t1) ->
  client.GetCachedImagePath cache (ValueString (node_flash.SHA256 plan))
    (ValueString (node_flash.Cache plan)) w1 = (Some (Ok path), w2, t2) ->
  path <> "" ->
  let run := node_flash.executeFlash r plan w in
  let hit := {| node_flash.imagePath := path;
                node_flash.sha256_ := ValueString (node_flash.SHA256 plan);
                node_flash.tempFile := "" |} in
  count is_download (events run) = 0%nat /\
  outcome run = outcome (node_flash.dispatchFlash r plan hit w2) /\
  (forall result, outcome run = Some (Ok result) ->
     node_flash.Result_SHA256 result = ValueString (node_flash.SHA256 plan)).
Proof.
  intros Hu Hh Hnew Hlook Hp run hit. subst run.
  unfold node_flash.executeFlash.
  rewrite (try_ok _ _ _ _ _ _ _ Hnew).
  rewrite (try_ok _ _ _ _ _ _ _ (resolveImage_cache_hit _ _ _ _ _ _ Hu Hh Hlook Hp)).
  fold hit. rewrite !outcome_prepend, !events_prepend.
  destruct (NewImageCache_frame _ _ _ _ _ Hnew) as (_ & _ & D1 & _).
  destruct (GetCachedImagePath_frame _ _ _ _ _ _ _ Hlook) as (_ & _ & D2 & _).
  split; [|split].
  - rewrite !count_app, D1, dispatchFlash_no_download.
    change (?a :: t2 ++ ?b)%list with ([a] ++ t2 ++ b)%list.
    rewrite !count_app, D2. reflexivity.
  - reflexivity.
  - intros result Hr. by apply dispatchFlash_result in Hr.
Qed.

End Flash.

Lemma cache_hit_skips_download_witness :
  let run := node_flash.executeFlash (L := Scenario.libs) Scenario.flash_resource
               (Scenario.flash_plan (Known Scenario.image_hash) "bmc")
               Scenario.bmc_cached in
  count is_download (events run) = 0%nat /\
  outcome run = Some (Ok {| node_flash.Result_SHA256 := Scenario.image_hash |}).
Proof.
  intros run.
  assert (client.NewImageCache Scenario.bmc_client Scenario.bmc_cached
          = (Some (Ok Scenario.cache), Scenario.bmc_cached,
             [EvUserHomeDir; EvMkdirAll "/home/u/.cache/terraform-provider-turingpi"]))
    as Hnew by (vm_compute; reflexivity).
  assert (client.GetCachedImagePath Scenario.cache Scenario.image_hash "bmc"
            Scenario.bmc_cached
          = (Some (Ok ("/tmp/tpi-cache/" ++ Scenario.image_hash ++ ".img")),
             Scenario.bmc_cached, [EvListDirectory "/tmp/tpi-cache"]))
    as Hlook by (vm_compute; reflexivity).
  destruct (cache_hit_skips_download (L := Scenario.libs) Scenario.flash_resource
              (Scenario.flash_plan (Known Scenario.image_hash) "bmc")
              Scenario.bmc_cached _ _ _ _ _ _ eq_refl eq_refl Hnew Hlook
              ltac:(discriminate))
    as (Hd & Ho & _).
  split; [exact Hd|]. etransitivity; [exact Ho|]. vm_compute. reflexivity.
Defined.

Lemma try_assoc {A B C} (m : M (res A)) f (k : A -> M (res B)) g
    (k' : B -> M (res C)) w :
  try (try m f k) g k' w = try m (fun e => g (f e)) (fun a => try (k a) g k') w.
Proof.
  unfold try, bind, ret.
  destruct (m w) as [[[[a|e]|] w1] t1]; simpl;
    [| by rewrite !app_nil_r | reflexivity].
  destruct (k a w1) as [[[[b|e']|] w2] t2]; simpl; [| | reflexivity].
  - destruct (k' b w2) as [[r w3] t3]. by rewrite app_assoc.
  - by rewrite app_assoc.
Qed.

Lemma try_ext {A B} (m : M (res A)) f (k k' : A -> M (res B)) w :
  (forall a w', k a w' = k' a w') -> try m f k w = try m f k' w.
Proof.
  intros H. unfold try, bind.
  destruct (m w) as [[[[a|e]|] w1] t1]; [|reflexivity|reflexivity].
  by rewrite H.
Qed.

Lemma try_ret_ok {A B} (a : A) g (k : A -> M (res B)) w :
  try (ret (Ok a)) g k w = k a w.
Proof. unfold try, bind, ret. by destruct (k a w) as [[r w1] t1]. Qed.

Lemma try_ret_err {A B} (e : error) (k : A -> M (res B)) w :
  try (ret (Err e)) (fun err => err) k w = ret (Err e) w.
Proof. reflexivity. Qed.

Lemma try_inv_ok {A B} (m : M (res A)) f (k : A -> M (res B)) w b w' t :
  try m f k w = (Some (Ok b), w', t) ->
  exists a w1 t1 t2,
    m w = (Some (Ok a), w1, t1) /\ k a w1 = (Some (Ok b), w', t2) /\
    t = (t1 ++ t2)%list.
Proof.
  unfold try, bind. destruct (m w) as [[[[a|e]|] w1] t1]; simpl; [| discriminate..].
  destruct (k a w1) as [[r w2] t2] eqn:E. intros [= -> -> <-].
  by exists a, w1, t1, t2.
Qed.

Lemma bind_inv {A B} (m : M A) (k : A -> M B) w b w' t :
  bind m k w = (Some b, w', t) ->
  exists a w1 t1 t2,
    m w = (Some a, w1, t1) /\ k a w1 = (Some b, w', t2) /\ t = (t1 ++ t2)%list.
Proof.
  unfold bind. destruct (m w) as [[[a|] w1] t1]; simpl; [| discriminate].
  destruct (k a w1) as [[r w2] t2] eqn:E. intros [= -> -> <-].
  by exists a, w1, t1, t2.
Qed.

Section FlashMore.
Context {L : Libs}.

(** DownloadImage with an expected hash is DownloadImage without one,
    followed by the verification. *)
Lemma DownloadImage_verify url expected dir w :
  client.DownloadImage url
    (Some {| client.ExpectedSHA256 := expected; client.DestDir := dir |}) w
  = try (client.DownloadImage url
           (Some {| client.ExpectedSHA256 := ""; client.DestDir := dir |}))
        (fun err => err) (verify expected) w.
Proof.
  unfold client.DownloadImage. simpl default.
  unfold client.destinationDir. simpl client.DestDir. simpl client.ExpectedSHA256.
  rewrite try_assoc. apply try_ext. intros destDir w1.
  destruct (negb (url_ok url)); [reflexivity|].
  rewrite try_assoc. apply try_ext. intros resp w2.
  destruct (negb (StatusCode resp =? http.StatusOK)); [reflexivity|].
  rewrite try_assoc. apply try_ext. intros downloadFile w3.
  rewrite try_assoc. apply try_ext. intros _ w4.
  rewrite try_assoc. apply try_ext. intros finalPath w5.
  rewrite try_assoc. apply try_ext. intros sha256Hash w6.
  change (sne "" "") with false. cbn [andb].
  by rewrite try_ret_ok.
Qed.

Lemma DownloadImage_mismatch url expected dir w dr w1 t1 :
  expected <> "" ->
  client.DownloadImage url
    (Some {| client.ExpectedSHA256 := ""; client.DestDir := dir |}) w
    = (Some (Ok dr), w1, t1) ->
  client.SHA256 dr <> expected ->
  client.DownloadImage url
    (Some {| client.ExpectedSHA256 := expected; client.DestDir := dir |}) w
  = (Some (Err (mismatch_error expected (client.SHA256 dr))),
     set_fs (delete (client.Path dr) (w_fs w1)) w1,
     (t1 ++ [EvRemove (client.Path dr)])%list).
Proof.
  intros He H Hne. rewrite DownloadImage_verify, (try_ok _ _ _ _ _ _ _ H).
  unfold verify. rewrite (proj2 (sne_true _ _) He), (proj2 (sne_true _ _) Hne).
  reflexivity.
Qed.

(** A decompression that succeeds writes its output file and nothing
    else. *)
Lemma decompress_frame path compression w out w' t :
  client.decompress path compression w = (Some (Ok out), w', t) ->
  w_bmc w' = w_bmc w /\
  forall p, p <> out -> w_fs w' !! p = w_fs w !! p.
Proof.
  unfold client.decompress.
  set (dst := if String.eqb _ path then _ else _). clearbody dst.
  destruct (String.eqb compression "xz"); [|destruct (String.eqb compression "gz");
    [|destruct (String.eqb compression "zip"); [|discriminate]]].
  - unfold client.decompressXZ. intros H.
    apply try_inv_ok in H as (srcFile & wa & ta & tb & Ha & H & ->).
    rewrite Open_eq in Ha.
    destruct (next_fault w); [discriminate|].
    destruct (w_fs w !! path); [|discriminate]. injection Ha as <- <- <-.
    unfold bind, get_world in H. simpl in H.
    destruct (xz_NewReader _) as [reader|]; [|discriminate].
    destruct (try _ _ _ _) as [[r wb] tc] eqn:E. injection H as -> -> <-.
    apply try_inv_ok in E as (dstFile & wc & td & te & Hc & E & ->).
    rewrite Create_eq in Hc. destruct (next_fault _); [discriminate|].
    injection Hc as <- <- <-.
    apply try_inv_ok in E as (u & wd & tf & tg & Hd & E & ->).
    rewrite Copy_eq in Hd. destruct (next_fault _); [discriminate|].
    injection E as <- <- <-.
    destruct reader as [p0|data ok]; injection Hd as _ <- <-; simpl;
      rewrite ?after_fault_bmc, ?after_fault_fs; simpl;
      rewrite ?after_fault_bmc, ?after_fault_fs; (split; [done|]);
      intros p Hp; by rewrite !lookup_insert_ne.
  - unfold client.decompressGzip. intros H.
    apply try_inv_ok in H as (srcFile & wa & ta & tb & Ha & H & ->).
    rewrite Open_eq in Ha.
    destruct (next_fault w); [discriminate|].
    destruct (w_fs w !! path); [|discriminate]. injection Ha as <- <- <-.
    unfold bind, get_world in H. simpl in H.
    destruct (gzip_NewReader _) as [reader|]; [|discriminate].
    destruct (try _ _ _ _) as [[r wb] tc] eqn:E. injection H as -> -> <-.
    apply try_inv_ok in E as (dstFile & wc & td & te & Hc & E & ->).
    rewrite Create_eq in Hc. destruct (next_fault _); [discriminate|].
    injection Hc as <- <- <-.
    apply try_inv_ok in E as (u & wd & tf & tg & Hd & E & ->).
    rewrite Copy_eq in Hd. destruct (next_fault _); [discriminate|].
    injection E as <- <- <-.
    destruct reader as [p0|data ok]; injection Hd as _ <- <-; simpl;
      rewrite ?after_fault_bmc, ?after_fault_fs; simpl;
      rewrite ?after_fault_bmc, ?after_fault_fs; (split; [done|]);
      intros p Hp; by rewrite !lookup_insert_ne.
  - unfold client.decompressZip. intros H.
    apply try_inv_ok in H as (archive & wa & ta & tb & Ha & H & ->).
    rewrite Open_eq in Ha.
    destruct (next_fault w); [discriminate|].
    destruct (w_fs w !! path); [|discriminate]. injection Ha as <- <- <-.
    unfold bind, get_world in H. simpl in H.
    destruct (zip_OpenReader _) as [[|[reader|] files]|]; try discriminate.
    destruct (try _ _ _ _) as [[r wb] tc] eqn:E. injection H as -> -> <-.
    apply try_inv_ok in E as (dstFile & wc & td & te & Hc & E & ->).
    rewrite Create_eq in Hc. destruct (next_fault _); [discriminate|].
    injection Hc as <- <- <-.
    apply try_inv_ok in E as (u & wd & tf & tg & Hd & E & ->).
    rewrite Copy_eq in Hd. destruct (next_fault _); [discriminate|].
    injection E as <- <- <-.
    destruct reader as [p0|data ok]; injection Hd as _ <- <-; simpl;
      rewrite ?after_fault_bmc, ?after_fault_fs; simpl;
      rewrite ?after_fault_bmc, ?after_fault_fs; (split; [done|]);
      intros p Hp; by rewrite !lookup_insert_ne.
Qed.

Lemma calculateSHA256_frame path w r w' t :
  client.calculateSHA256 path w = (r, w', t) ->
  w_fs w' = w_fs w /\ w_bmc w' = w_bmc w.
Proof.
  unfold client.calculateSHA256, try, bind. rewrite Open_eq.
  destruct (next_fault w); [|destruct (w_fs w !! path)]; simpl;
    try (intros [= <- <- <-]; by rewrite after_fault_fs, after_fault_bmc).
  rewrite CopyToSHA256_eq. destruct (next_fault _); simpl;
    intros [= <- <- <-]; by rewrite !after_fault_fs, !after_fault_bmc.
Qed.

(** A download that succeeds leaves one new file behind, its result:
    every other file on the disk afterwards was there before, and the BMC
    is as it was. *)
Lemma DownloadImage_leaves_result url dir w dr w' t :
  client.DownloadImage url
    (Some {| client.ExpectedSHA256 := ""; client.DestDir := dir |}) w
    = (Some (Ok dr), w', t) ->
  w_bmc w' = w_bmc w /\
  forall p c, p <> client.Path dr -> w_fs w' !! p = Some c -> w_fs w !! p = Some c.
Proof.
  unfold client.DownloadImage. simpl default. intros H.
  apply try_inv_ok in H as (destDir & wa & ta & tb & Ha & H & ->).
  apply destinationDir_frame in Ha as (Fa & Ba & _).
  destruct (negb (url_ok url)); [discriminate|].
  apply try_inv_ok in H as (resp & wb & tc & td & Hb & H & ->).
  apply Do_frame in Hb as (Fb & Bb & _).
  destruct (negb (StatusCode resp =? http.StatusOK)); [discriminate|].
  set (dp := filepath.Join [destDir; filepath.Base url]) in *.
  apply try_inv_ok in H as (downloadFile & wc & te & tf & Hc & H & ->).
  rewrite Create_eq in Hc. destruct (next_fault wb); [discriminate|].
  injection Hc as <- <- <-.
  apply try_inv_ok in H as (u & wd & tg & th & Hd & H & ->).
  rewrite Copy_eq in Hd. destruct (next_fault _); [discriminate|].
  injection Hd as <- <-.
  apply try_inv_ok in H as (finalPath & we & ti & tj & He & H & ->).
  apply try_inv_ok in H as (sha256Hash & wf & tk & tl & Hf & H & ->).
  apply calculateSHA256_frame in Hf as (Ff & Bf).
  simpl in H. injection H as <- <- <-. simpl.
  destruct (sne _ "").
  - apply try_inv_ok in He as (out & wx & tm & tn & Hx & He & ->).
    apply decompress_frame in Hx as (Bx & Fx).
    injection He as <- <- <-.
    split.
    { rewrite Bf. simpl. rewrite Bx.
      repeat (progress (simpl; rewrite ?after_fault_bmc)). by rewrite Bb, Ba. }
    intros p c Hp. rewrite Ff. simpl.
    destruct (decide (p = dp)) as [->|Hdp]; [by rewrite lookup_delete_eq|].
    rewrite lookup_delete_ne by done. rewrite (Fx p Hp).
    repeat (progress (simpl; rewrite ?after_fault_fs)).
    rewrite !lookup_insert_ne by done. by rewrite Fb, Fa.
  - injection He as <- <- <-.
    split.
    { rewrite Bf. repeat (progress (simpl; rewrite ?after_fault_bmc)).
      by rewrite Bb, Ba. }
    intros p c Hp. rewrite Ff.
    repeat (progress (simpl; rewrite ?after_fault_fs)).
    rewrite !lookup_insert_ne by done. by rewrite Fb, Fa.
Qed.

Lemma resolveImage_download cache plan w looked w2 t2 :
  is_url_plan plan = true ->
  has_expected_hash plan = true ->
  client.GetCachedImagePath cache (ValueString (node_flash.SHA256 plan))
    (ValueString (node_flash.Cache plan)) w = (Some looked, w2, t2) ->
  is_miss looked = true ->
  node_flash.resolveImage cache plan w
  = prepend
      (EvLog LevelInfo "Downloading image from URL"
         [("url", LStr (ValueString (node_flash.ImageURL plan)))]
       :: t2 ++ miss_events looked)%list
      (try (client.DownloadImage (ValueString (node_flash.ImageURL plan))
              (Some {| client.ExpectedSHA256 := ValueString (node_flash.SHA256 plan);
                       client.DestDir := "" |}))
         (Wrapf "failed to download image: ")
         (fun result =>
            bind
              (if sne (ValueString (node_flash.Cache plan)) client.CacheLocationNone
               then
                 bind (client.CacheImage cache (client.Path result)
                         (client.SHA256 result) (ValueString (node_flash.Cache plan)))
                   (fun r => match r with
                             | Ok cachedPath =>
                                 tflog.Info "Image cached" [("path", LStr cachedPath)]
                             | Err err =>
                                 tflog.Warn "Failed to cache image"
                                   [("error", LStr (error_string err))]
                             end)
               else ret tt)
              (fun _ => ret (Ok {| node_flash.imagePath := client.Path result;
                                   node_flash.sha256_ := client.SHA256 result;
                                   node_flash.tempFile := client.Path result |})))
         w2).
Proof.
  unfold is_url_plan, has_expected_hash. intros Hu Hh Hlook Hm.
  unfold node_flash.resolveImage. rewrite Hu, Hh.
  rewrite log_info_bind.
  destruct looked as [p|err]; simpl in Hm.
  - apply String.eqb_eq in Hm as ->.
    erewrite (bind_eq (bind _ _)); cycle 1.
    { rewrite (bind_eq _ _ _ _ _ _ Hlook). change (sne "" "") with false.
      unfold ret, prepend. reflexivity. }
    cbv beta iota. change (String.eqb "" "") with true. cbv iota.
    rewrite prepend_prepend. simpl. rewrite ?app_nil_r. reflexivity.
  - erewrite (bind_eq (bind _ _)); cycle 1.
    { rewrite (bind_eq _ _ _ _ _ _ Hlook). rewrite log_warn_bind.
      unfold ret, prepend. reflexivity. }
    cbv beta iota. change (String.eqb "" "") with true. cbv iota.
    rewrite prepend_prepend. simpl. rewrite ?app_nil_r. reflexivity.
Qed.

(** C5. A provision from a URL with an expected hash that is not in the
    cache, whose download as such succeeds but yields a file with another
    SHA-256: DownloadImage removes that file and returns the mismatch
    error; executeFlash fails with it; the removal is the last thing the
    run does; afterwards the output file is gone, nothing is on the local
    disk that was not there before, the BMC is untouched, and so no
    backend has an entry under the expected hash that it did not have. *)
Theorem integrity_failure_stores_nothing r plan w cache w1 t1 looked w2 t2 dr w3 t3 :
  is_url_plan plan = true ->
  has_expected_hash plan = true ->
  client.NewImageCache (node_flash.r_client r) w = (Some (Ok cache), w1, t1) ->
  client.GetCachedImagePath cache (ValueString (node_flash.SHA256 plan))
    (ValueString (node_flash.Cache plan)) w1 = (Some looked, w2, t2) ->
  is_miss looked = true ->
  client.DownloadImage (ValueString (node_flash.ImageURL plan))
    (Some {| client.ExpectedSHA256 := ""; client.DestDir := "" |}) w2
    = (Some (Ok dr), w3, t3) ->
  client.SHA256 dr <> ValueString (node_flash.SHA256 plan) ->
  let expected := ValueString (node_flash.SHA256 plan) in
  let failure := mismatch_error expected (client.SHA256 dr) in
  let run := node_flash.executeFlash r plan w in
  client.DownloadImage (ValueString (node_flash.ImageURL plan))
    (Some {| client.ExpectedSHA256 := expected; client.DestDir := "" |}) w2
    = (Some (Err failure), set_fs (delete (client.Path dr) (w_fs w3)) w3,
       (t3 ++ [EvRemove (client.Path dr)])%list) /\
  outcome run = Some (Err (Wrapf "failed to download image: " failure)) /\
  (exists before, events run = (before ++ [EvRemove (client.Path dr)])%list) /\
  w_fs (world_of run) !! client.Path dr = None /\
  w_fs (world_of run) ⊆ w_fs w /\
  w_bmc (world_of run) = w_bmc w /\
  (forall location stored,
     cache_entry cache expected location (world_of run) = Some stored ->
     cache_entry cache expected location w = Some stored).
Proof.
  intros Hu Hh Hnew Hlook Hm Hdl Hne expected failure run.
  assert (expected <> "") as He.
  { unfold has_expected_hash in Hh. apply andb_true_iff in Hh as [_ Hh].
    by apply sne_true in Hh. }
  pose proof (DownloadImage_mismatch _ _ _ _ _ _ _ He Hdl Hne) as Hbad.
  fold failure in Hbad.
  assert (run = (Some (Err (Wrapf "failed to download image: " failure)),
                 set_fs (delete (client.Path dr) (w_fs w3)) w3,
                 (t1 ++ (EvLog LevelInfo "Downloading image from URL"
                           [("url", LStr (ValueString (node_flash.ImageURL plan)))]
                         :: t2 ++ miss_events looked) ++
                  t3 ++ [EvRemove (client.Path dr)])%list)) as Hrun.
  { subst run. unfold node_flash.executeFlash.
    rewrite (try_ok _ _ _ _ _ _ _ Hnew).
    erewrite try_err; [reflexivity|].
    rewrite (resolveImage_download _ _ _ _ _ _ Hu Hh Hlook Hm).
    by rewrite (try_err _ _ _ _ _ _ _ Hbad). }
  destruct (NewImageCache_frame _ _ _ _ _ Hnew) as (F1 & B1 & _).
  destruct (GetCachedImagePath_frame _ _ _ _ _ _ _ Hlook) as (F2 & B2 & _).
  destruct (DownloadImage_leaves_result _ _ _ _ _ _ Hdl) as (B3 & F3).
  assert (w_fs (world_of run) ⊆ w_fs w) as Hsub.
  { rewrite Hrun. simpl. apply map_subseteq_spec. intros p c Hp.
    apply lookup_delete_Some in Hp as [Hp1 Hp2].
    rewrite <- F1, <- F2. by apply F3. }
  assert (w_bmc (world_of run) = w_bmc w) as Hbmc.
  { rewrite Hrun. simpl. by rewrite B3, B2, B1. }
  split; [exact Hbad|]. split; [by rewrite Hrun|].
  split.
  { rewrite Hrun. unfold events. simpl.
    exists (t1 ++ (EvLog LevelInfo "Downloading image from URL"
                    [("url", LStr (ValueString (node_flash.ImageURL plan)))]
                  :: t2 ++ miss_events looked) ++ t3)%list.
    repeat (rewrite <- app_assoc; simpl). reflexivity. }
  split; [rewrite Hrun; simpl; apply lookup_delete_eq|].
  split; [exact Hsub|]. split; [exact Hbmc|].
  intros location stored. unfold cache_entry.
  destruct (String.eqb location client.CacheLocationLocal).
  - intros Hs. by eapply lookup_weaken.
  - by rewrite Hbmc.
Qed.

End FlashMore.

(* ===================================================================== *)
(** ** executeFlash: what a run logs                                    *)
(* ===================================================================== *)

Lemma never_ret p {A} (a : A) : never p (ret a).
Proof. by intros w. Qed.

Lemma never_panic p {A} : never p (@panic A).
Proof. by intros w. Qed.

Lemma never_get p : never p get_world.
Proof. by intros w. Qed.

Lemma never_modify p f : never p (modify f).
Proof. by intros w. Qed.

Lemma never_take_fault p : never p take_fault.
Proof. intros w. unfold take_fault. by destruct (w_faults w). Qed.

Lemma never_emit p e : p e = false -> never p (emit e).
Proof. intros H w. unfold emit, events, count. simpl. by rewrite H. Qed.

Lemma never_bind p {A B} (m : M A) (k : A -> M B) :
  never p m -> (forall a, never p (k a)) -> never p (bind m k).
Proof.
  intros Hm Hk w. unfold bind. specialize (Hm w).
  destruct (m w) as [[[a|] w1] t1]; [|exact Hm].
  specialize (Hk a w1). destruct (k a w1) as [[r w2] t2].
  unfold events in *. simpl in *. rewrite count_app. lia.
Qed.

Lemma never_try p {A B} (m : M (res A)) f (k : A -> M (res B)) :
  never p m -> (forall a, never p (k a)) -> never p (try m f k).
Proof.
  intros Hm Hk. unfold try. apply never_bind; [done|].
  intros [a|e]; [apply Hk | apply never_ret].
Qed.

Lemma never_external p {A} e fail (body : M (res A)) :
  p e = false -> never p body -> never p (external e fail body).
Proof.
  intros He Hb. unfold external. apply never_bind; [by apply never_emit|].
  intros _. apply never_bind; [apply never_take_fault|].
  intros [m|]; [apply never_ret | done].
Qed.

Lemma never_defer p {A} (cleanup : M unit) (body : M A) :
  never p cleanup -> never p body -> never p (defer cleanup body).
Proof.
  intros Hc Hb w. unfold defer. specialize (Hb w).
  destruct (body w) as [[r w1] t1]. specialize (Hc w1).
  destruct (cleanup w1) as [[u w2] t2].
  unfold events in *. simpl in *. rewrite count_app. lia.
Qed.

Lemma never_In p {A} (m : M A) w e :
  never p m -> In e (events (m w)) -> p e = false.
Proof.
  intros H Hin. specialize (H w). unfold count in H.
  destruct (p e) eqn:E; [|done].
  assert (In e (List.filter p (events (m w)))) as Hf by (apply filter_In; done).
  destruct (List.filter p (events (m w))); [done | discriminate].
Qed.

Ltac never_step :=
  first
    [ apply never_ret | apply never_panic | apply never_get | apply never_modify
    | apply never_external; [reflexivity|]
    | apply never_emit; reflexivity
    | apply never_try; [|intros ?]
    | apply never_bind; [|intros ?]
    | apply never_defer
    | match goal with
      | |- never _ (if ?c then _ else _) => destruct c
      | |- never _ (match ?x with _ => _ end) => destruct x
      | |- never _ (let '(_, _) := ?x in _) => destruct x
      end ].

Ltac never_all := repeat never_step.

Section Quiet.
Context {L : Libs}.

Lemma DownloadImage_never_logs url opts : never is_log (client.DownloadImage url opts).
Proof.
  unfold client.DownloadImage, client.destinationDir, client.calculateSHA256,
    client.decompress, client.decompressXZ, client.decompressGzip,
    client.decompressZip, os.MkdirTemp, os.Create, os.Open, os.Remove,
    io.Copy, io.CopyToSHA256, http.Do.
  never_all.
Qed.

Lemma CacheImage_never_logs c localPath hash location :
  never is_log (client.CacheImage c localPath hash location).
Proof.
  unfold client.CacheImage, client.cacheLocally, client.cacheToBMC,
    client.getBMCCachePath, client.ExecuteCommand, client.UploadFile,
    client.ListDirectory, TPI.ExecuteCommand, TPI.UploadFile, TPI.ListDirectory,
    os.Stat, os.Open, os.Create, os.Remove, io.Copy.
  never_all.
Qed.

Lemma GetCachedImagePath_never_logs c hash location :
  never is_log (client.GetCachedImagePath c hash location).
Proof.
  unfold client.GetCachedImagePath, client.getLocalCachePath, client.getBMCCachePath,
    client.ListDirectory, TPI.ListDirectory, os.Stat.
  never_all.
Qed.

Lemma NewImageCache_never_logs c : never is_log (client.NewImageCache c).
Proof.
  unfold client.NewImageCache, os.UserHomeDir, os.MkdirAll. never_all.
Qed.

Lemma CalculateFileSHA256_never_logs path :
  never is_log (client.CalculateFileSHA256 path).
Proof.
  unfold client.CalculateFileSHA256, client.calculateSHA256, os.Open, io.CopyToSHA256.
  never_all.
Qed.

Lemma dispatchFlash_never_warns r plan img :
  never is_cache_warning (node_flash.dispatchFlash r plan img).
Proof.
  unfold node_flash.dispatchFlash, client.FlashNodeLocal, client.FlashNode,
    TPI.FlashNodeLocal, TPI.FlashNode, tflog.Info, os.Remove.
  never_all.
Qed.

End Quiet.

Lemma never_weaken (p q : Event -> bool) {A} (m : M A) :
  (forall e, q e = true -> p e = true) -> never p m -> never q m.
Proof.
  intros Hpq Hm w. specialize (Hm w). unfold count in *.
  induction (events (m w)) as [|e t IH]; [done|]. simpl in *.
  destruct (p e) eqn:Ep; [discriminate|].
  destruct (q e) eqn:Eq; [by rewrite (Hpq e Eq) in Ep|]. by apply IH.
Qed.

Lemma cache_warning_is_log e : is_cache_warning e = true -> is_log e = true.
Proof. by destruct e. Qed.

Lemma In_bind_never p {A B} (m : M A) (k : A -> M B) w e :
  never p m -> p e = true ->
  In e (events (bind m k w)) ->
  exists a w1, In e (events (k a w1)) /\ outcome (bind m k w) = outcome (k a w1).
Proof.
  intros Hn Hp. pose proof (never_In p m w e Hn) as Hm. unfold bind.
  destruct (m w) as [[[a|] w1] t1]; unfold events in *; simpl in *.
  - destruct (k a w1) as [[r w2] t2] eqn:E. simpl. intros Hin.
    apply in_app_or in Hin as [Hin | Hin]; [apply Hm in Hin; congruence|].
    exists a, w1. by rewrite E.
  - intros Hin. apply Hm in Hin. congruence.
Qed.

Lemma In_try_never p {A B} (m : M (res A)) f (k : A -> M (res B)) w e :
  never p m -> p e = true ->
  In e (events (try m f k w)) ->
  exists a w1, In e (events (k a w1)) /\ outcome (try m f k w) = outcome (k a w1).
Proof.
  intros Hn Hp Hin. unfold try in *.
  apply (In_bind_never p) in Hin as ([a|err] & w1 & Hin & Hout); [| |done..].
  - by exists a, w1.
  - destruct Hin.
Qed.


Section Absorb.
Context {L : Libs}.

Lemma DownloadImage_never_warns url opts :
  never is_cache_warning (client.DownloadImage url opts).
Proof.
  apply (never_weaken is_log); [apply cache_warning_is_log|].
  apply DownloadImage_never_logs.
Qed.

Lemma CacheImage_never_warns c localPath hash location :
  never is_cache_warning (client.CacheImage c localPath hash location).
Proof.
  apply (never_weaken is_log); [apply cache_warning_is_log|].
  apply CacheImage_never_logs.
Qed.

Lemma GetCachedImagePath_never_warns c hash location :
  never is_cache_warning (client.GetCachedImagePath c hash location).
Proof.
  apply (never_weaken is_log); [apply cache_warning_is_log|].
  apply GetCachedImagePath_never_logs.
Qed.

Lemma NewImageCache_never_warns c : never is_cache_warning (client.NewImageCache c).
Proof.
  apply (never_weaken is_log); [apply cache_warning_is_log|].
  apply NewImageCache_never_logs.
Qed.

Lemma CalculateFileSHA256_never_warns path :
  never is_cache_warning (client.CalculateFileSHA256 path).
Proof.
  apply (never_weaken is_log); [apply cache_warning_is_log|].
  apply CalculateFileSHA256_never_logs.
Qed.

Lemma not_in_events p {A} (m : M A) w r w' t e :
  never p m -> m w = (r, w', t) -> p e = true -> ~ In e t.
Proof.
  intros Hn Hm Hp Hin. pose proof (never_In p m w e Hn) as H.
  rewrite Hm in H. specialize (H Hin). congruence.
Qed.

End Absorb.


(* ===================================================================== *)
(** ** The theorems on executeFlash, at work                              *)
(* ===================================================================== *)

Lemma integrity_failure_stores_nothing_witness :
  let wrong := "0000000000000000000000000000000000000000000000000000000000000000" in
  let run := node_flash.executeFlash (L := Scenario.libs) Scenario.flash_resource
               (Scenario.flash_plan (Known wrong) "local") Scenario.fresh in
  outcome run
  = Some (Err (Wrapf "failed to download image: "
                 (mismatch_error wrong Scenario.image_hash))) /\
  w_fs (world_of run) !! "/tmp/turingpi-download-7/ubuntu.img" = None /\
  w_fs (world_of run) ⊆ w_fs Scenario.fresh /\
  w_bmc (world_of run) = w_bmc Scenario.fresh.
Proof.
  intros wrong run.
  set (dl := client.DownloadImage (L := Scenario.libs) Scenario.image_url
               (Some {| client.ExpectedSHA256 := ""; client.DestDir := "" |})
               Scenario.fresh).
  assert (client.NewImageCache Scenario.bmc_client Scenario.fresh
          = (Some (Ok Scenario.cache), Scenario.fresh,
             [EvUserHomeDir; EvMkdirAll "/home/u/.cache/terraform-provider-turingpi"]))
    as Hnew by (vm_compute; reflexivity).
  assert (client.GetCachedImagePath Scenario.cache wrong "local" Scenario.fresh
          = (Some (Ok ""), Scenario.fresh,
             [EvStat ("/home/u/.cache/terraform-provider-turingpi/" ++ wrong ++ ".img")]))
    as Hlook by (vm_compute; reflexivity).
  assert (dl = (Some (Ok {| client.Path := "/tmp/turingpi-download-7/ubuntu.img";
                            client.SHA256 := Scenario.image_hash |}),
                world_of dl, events dl)) as Hdl by (vm_compute; reflexivity).
  destruct (integrity_failure_stores_nothing (L := Scenario.libs)
              Scenario.flash_resource (Scenario.flash_plan (Known wrong) "local")
              Scenario.fresh _ _ _ _ _ _ _ _ _ eq_refl eq_refl Hnew Hlook eq_refl Hdl
              ltac:(discriminate))
    as (_ & Hout & _ & Hgone & Hsub & Hbmc & _).
  split; [exact Hout|]. split; [exact Hgone|]. split; [exact Hsub | exact Hbmc].
Defined.

(* ===================================================================== *)
(** ** Hashing and downloading                                           *)
(* ===================================================================== *)

Lemma hex_digit_lower x : is_lower_hex (sha256.hex_digit x) = true.
Proof.
  unfold sha256.hex_digit.
  assert (N.land x 15 < 16)%N as Hd.
  { change 15%N with (N.ones 4). rewrite N.land_ones. by apply N.mod_lt. }
  set (d := N.land x 15) in *. clearbody d.
  assert (d = 0 \/ d = 1 \/ d = 2 \/ d = 3 \/ d = 4 \/ d = 5 \/ d = 6 \/ d = 7 \/
          d = 8 \/ d = 9 \/ d = 10 \/ d = 11 \/ d = 12 \/ d = 13 \/ d = 14 \/
          d = 15)%N as H by lia.
  repeat (destruct H as [-> | H]; [vm_compute; reflexivity|]).
  subst d. vm_compute. reflexivity.
Qed.

Lemma lower_hex_app a b : lower_hex (a ++ b) = lower_hex a && lower_hex b.
Proof. induction a as [|c r IH]; simpl; [done|]. by rewrite IH, andb_assoc. Qed.

Lemma hex32_lower x : lower_hex (sha256.hex32 x) = true.
Proof. unfold sha256.hex32. cbn [lower_hex]. by rewrite !hex_digit_lower. Qed.

Lemma hex32_length x : String.length (sha256.hex32 x) = 8%nat.
Proof. reflexivity. Qed.

Lemma length_app_string (a b : string) :
  String.length (a ++ b) = (String.length a + String.length b)%nat.
Proof. induction a as [|c r IH]; simpl; [done|]. by rewrite IH. Qed.

Lemma hex_length data : String.length (sha256.hex data) = 64%nat.
Proof.
  unfold sha256.hex. generalize (sha256.sum data). intros s.
  unfold sha256.hex_of_state. rewrite !length_app_string, !hex32_length.
  reflexivity.
Qed.

Lemma hex_lower data : lower_hex (sha256.hex data) = true.
Proof.
  unfold sha256.hex. generalize (sha256.sum data). intros s.
  unfold sha256.hex_of_state. rewrite !lower_hex_app, !hex32_lower.
  reflexivity.
Qed.

Lemma lower_hex_no_slash s : lower_hex s = true -> no_slash s = true.
Proof.
  induction s as [|c r IH]; simpl; [done|].
  intros [Hc Hr]%andb_true_iff. rewrite (IH Hr), andb_true_r.
  apply negb_true_iff, Ascii.eqb_neq. intros ->. discriminate Hc.
Qed.

Section Digest.
Context {L : Libs}.

Lemma calculateSHA256_eq path w :
  client.calculateSHA256 path w =
  match next_fault w with
  | Some m => (Some (Err (PathError "open" path (EIO m))), after_fault w, [EvOpen path])
  | None =>
      match w_fs w !! path with
      | None => (Some (Err (PathError "open" path ENOENT)), after_fault w, [EvOpen path])
      | Some content =>
          match next_fault (after_fault w) with
          | Some m => (Some (Err (PathError "read" path (EIO m))),
                       after_fault (after_fault w), [EvOpen path; EvHashFile path])
          | None => (Some (Ok (sha256.hex content)),
                     after_fault (after_fault w), [EvOpen path; EvHashFile path])
          end
      end
  end.
Proof.
  unfold client.calculateSHA256, try, bind. rewrite Open_eq.
  destruct (next_fault w); [done|].
  destruct (w_fs w !! path) as [content|] eqn:E; [|done]. simpl.
  rewrite CopyToSHA256_eq, after_fault_fs, E.
  by destruct (next_fault (after_fault w)).
Qed.

(** X1. CalculateFileSHA256 only reads: the files are as they were,
    whatever it returns. When it returns a hash, the file exists and the
    hash is the SHA-256 of its content, written as 64 lower-case
    hexadecimal digits (so it has no ['/'] and can name a cache entry),
    after one open and one read. For a file that does not exist it
    returns the error of os.Open as it is, not wrapped. *)
Theorem CalculateFileSHA256_digest path w :
  let run := client.CalculateFileSHA256 path w in
  w_fs (world_of run) = w_fs w /\
  (forall h, outcome run = Some (Ok h) ->
     (exists content, w_fs w !! path = Some content /\ h = sha256.hex content) /\
     String.length h = 64%nat /\ lower_hex h = true /\ no_slash h = true /\
     events run = [EvOpen path; EvHashFile path]) /\
  (w_fs w !! path = None -> next_fault w = None ->
     run = (Some (Err (PathError "open" path ENOENT)), after_fault w, [EvOpen path])).
Proof.
  cbv zeta. unfold client.CalculateFileSHA256. rewrite calculateSHA256_eq.
  unfold outcome, world_of, events.
  split; [|split].
  - destruct (next_fault w); [|destruct (w_fs w !! path);
      [destruct (next_fault (after_fault w))|]]; simpl;
      by rewrite ?after_fault_fs.
  - intros h.
    destruct (next_fault w); [discriminate|].
    destruct (w_fs w !! path) as [content|]; [|discriminate].
    destruct (next_fault (after_fault w)); [discriminate|].
    intros [= <-]. split; [by exists content|].
    split; [apply hex_length|]. split; [apply hex_lower|].
    split; [apply lower_hex_no_slash, hex_lower | done].
  - by intros -> ->.
Qed.

End Digest.

Section DownloadResult.
Context {L : Libs}.

Lemma decompress_no_download path compression :
  never is_download (client.decompress path compression).
Proof.
  unfold client.decompress, client.decompressXZ, client.decompressGzip,
    client.decompressZip, os.Create, os.Open, io.Copy.
  never_all.
Qed.

Lemma destinationDir_no_download opts :
  never is_download (client.destinationDir opts).
Proof. unfold client.destinationDir, os.MkdirTemp. never_all. Qed.

(** A download without an expected hash: what it leaves and what it did. *)
Lemma DownloadImage_plain_result url dir w dr w' t :
  client.DownloadImage url
    (Some {| client.ExpectedSHA256 := ""; client.DestDir := dir |}) w
    = (Some (Ok dr), w', t) ->
  (exists content, w_fs w' !! client.Path dr = Some content /\
                   client.SHA256 dr = sha256.hex content) /\
  count is_download t = 1%nat.
Proof.
  unfold client.DownloadImage. simpl default. intros H.
  apply try_inv_ok in H as (destDir & wa & ta & tb & Ha & H & ->).
  pose proof (destinationDir_no_download
                {| client.ExpectedSHA256 := ""; client.DestDir := dir |} w) as Na.
  rewrite Ha in Na. unfold events in Na. simpl in Na.
  destruct (negb (url_ok url)); [discriminate|].
  apply try_inv_ok in H as (resp & wb & tc & td & Hb & H & ->).
  apply Do_frame in Hb as (_ & _ & ->).
  destruct (negb (StatusCode resp =? http.StatusOK)); [discriminate|].
  set (dp := filepath.Join [destDir; filepath.Base url]) in *.
  apply try_inv_ok in H as (downloadFile & wc & te & tf & Hc & H & ->).
  rewrite Create_eq in Hc. destruct (next_fault wb); [discriminate|].
  injection Hc as <- <- <-.
  apply try_inv_ok in H as (u & wd & tg & th & Hd & H & ->).
  rewrite Copy_eq in Hd. destruct (next_fault _); [discriminate|].
  injection Hd as <- <-.
  apply try_inv_ok in H as (finalPath & we & ti & tj & He & H & ->).
  apply try_inv_ok in H as (sha256Hash & wf & tk & tl & Hf & H & ->).
  simpl in H. injection H as <- <- <-. simpl client.Path. simpl client.SHA256.
  rewrite calculateSHA256_eq in Hf.
  destruct (next_fault we); [discriminate|].
  destruct (w_fs we !! finalPath) as [content|] eqn:Ec; [|discriminate].
  destruct (next_fault (after_fault we)); [discriminate|].
  injection Hf as <- <- <-.
  split.
  { exists content. by rewrite !after_fault_fs. }
  assert (count is_download ti = 0%nat) as Ni.
  { destruct (sne _ "").
    - apply try_inv_ok in He as (out & wx & tm & tn & Hx & He & ->).
      pose proof (decompress_no_download dp
                    (client.detectCompression url (ContentType resp))) as Nx.
      match type of Hx with ?m ?w0 = _ => specialize (Nx w0) end.
      rewrite Hx in Nx. unfold events in Nx. simpl in Nx.
      injection He as <- <- <-. rewrite count_app, Nx. reflexivity.
    - by injection He as <- <- <-. }
  subst. rewrite !count_app, Na, Ni. reflexivity.
Qed.

Lemma verify_ok expected dr0 w1 dr w' t :
  verify expected dr0 w1 = (Some (Ok dr), w', t) ->
  dr = dr0 /\ w' = w1 /\ t = [] /\
  (expected <> "" -> client.SHA256 dr0 = expected).
Proof.
  unfold verify.
  destruct (sne expected "") eqn:E1; [destruct (sne _ expected) eqn:E2|]; simpl.
  - discriminate.
  - intros [= <- <- <-]. repeat split; try done.
    intros _. unfold sne in E2. apply negb_false_iff in E2.
    by apply String.eqb_eq in E2.
  - intros [= <- <- <-]. repeat split; try done.
    intros Hne. apply sne_true in Hne. congruence.
Qed.

(** X2. DownloadImage, when it succeeds: the path it returns names a
    file that exists afterwards, and the hash it returns is the SHA-256 of
    that file's content; with an expected hash in the options, the hash
    returned is the expected one; every other file on the disk afterwards
    was there before, with the same content; the BMC is untouched; and
    exactly one HTTP request was made. *)
Theorem DownloadImage_result url opts w dr w' t :
  client.DownloadImage url opts w = (Some (Ok dr), w', t) ->
  (exists content, w_fs w' !! client.Path dr = Some content /\
                   client.SHA256 dr = sha256.hex content) /\
  (forall o, opts = Some o -> client.ExpectedSHA256 o <> "" ->
             client.SHA256 dr = client.ExpectedSHA256 o) /\
  (forall p c, p <> client.Path dr ->
               w_fs w' !! p = Some c -> w_fs w !! p = Some c) /\
  w_bmc w' = w_bmc w /\
  count is_download t = 1%nat.
Proof.
  intros H.
  assert (exists expected dir,
            client.DownloadImage url
              (Some {| client.ExpectedSHA256 := expected; client.DestDir := dir |}) w
            = (Some (Ok dr), w', t) /\
            (forall o, opts = Some o -> client.ExpectedSHA256 o = expected))
    as (expected & dir & H' & Ho).
  { destruct opts as [[expected dir]|].
    - exists expected, dir. split; [exact H|]. by intros o [= <-].
    - exists "", "". split; [exact H|]. by intros o [=]. }
  clear H. rewrite DownloadImage_verify in H'.
  apply try_inv_ok in H' as (dr0 & w1 & t1 & t2 & Hplain & Hv & ->).
  apply verify_ok in Hv as (-> & -> & -> & Hexp).
  destruct (DownloadImage_plain_result _ _ _ _ _ _ Hplain) as (Hc & Hn).
  destruct (DownloadImage_leaves_result _ _ _ _ _ _ Hplain) as (Hb & Hf).
  split; [exact Hc|]. split.
  { intros o Eo Hne. rewrite (Ho o Eo) in *. by apply Hexp. }
  split; [exact Hf|]. split; [exact Hb|].
  by rewrite app_nil_r.
Qed.

End DownloadResult.

Lemma DownloadImage_result_witness :
  let run := client.DownloadImage (L := Scenario.libs) Scenario.image_url
               (Some {| client.ExpectedSHA256 := Scenario.image_hash;
                        client.DestDir := "" |}) Scenario.fresh in
  exists dr,
    outcome run = Some (Ok dr) /\
    client.Path dr = "/tmp/turingpi-download-7/ubuntu.img" /\
    client.SHA256 dr = Scenario.image_hash /\
    (exists content, w_fs (world_of run) !! client.Path dr = Some content /\
                     client.SHA256 dr = sha256.hex content) /\
    count is_download (events run) = 1%nat.
Proof.
  intros run.
  set (dr := {| client.Path := "/tmp/turingpi-download-7/ubuntu.img";
                client.SHA256 := Scenario.image_hash |}).
  assert (run = (Some (Ok dr), world_of run, events run)) as Hrun
      by (vm_compute; reflexivity).
  destruct (DownloadImage_result (L := Scenario.libs) _ _ _ _ _ _ Hrun)
    as (Hc & He & _ & _ & Hn).
  exists dr. split; [by rewrite Hrun|]. split; [reflexivity|].
  split; [apply (He _ eq_refl); discriminate|]. split; [exact Hc | exact Hn].
Defined.

(* ===================================================================== *)
(** ** Computations that always return                                   *)
(* ===================================================================== *)

Lemma safe_ret {A} (a : A) : safe (ret a).
Proof. by intros w. Qed.
Lemma safe_get : safe get_world.
Proof. by intros w. Qed.
Lemma safe_modify f : safe (modify f).
Proof. by intros w. Qed.
Lemma safe_emit e : safe (emit e).
Proof. by intros w. Qed.
Lemma safe_take_fault : safe take_fault.
Proof. intros w. unfold take_fault. by destruct (w_faults w). Qed.
Lemma safe_bind {A B} (m : M A) (k : A -> M B) :
  safe m -> (forall a, safe (k a)) -> safe (bind m k).
Proof.
  intros Hm Hk w. unfold bind, outcome. specialize (Hm w). unfold outcome in Hm.
  destruct (m w) as [[[a|] w1] t1]; [|done].
  specialize (Hk a w1). unfold outcome in Hk.
  by destruct (k a w1) as [[r w2] t2].
Qed.
Lemma safe_try {A B} (m : M (res A)) f (k : A -> M (res B)) :
  safe m -> (forall a, safe (k a)) -> safe (try m f k).
Proof.
  intros Hm Hk. unfold try. apply safe_bind; [done|].
  intros [a|e]; [apply Hk | apply safe_ret].
Qed.
Lemma safe_external {A} e fail (body : M (res A)) :
  safe body -> safe (external e fail body).
Proof.
  intros Hb. unfold external. apply safe_bind; [apply safe_emit|].
  intros _. apply safe_bind; [apply safe_take_fault|].
  intros [m|]; [apply safe_ret | done].
Qed.

Ltac safe_step :=
  first
    [ apply safe_ret | apply safe_get | apply safe_modify | apply safe_emit
    | apply safe_external
    | apply safe_try; [|intros ?]
    | apply safe_bind; [|intros ?]
    | match goal with
      | |- safe (if ?c then _ else _) => destruct c
      | |- safe (match ?x with _ => _ end) => destruct x
      | |- safe (let '(_, _) := ?x in _) => destruct x
      end ].
Ltac safe_all := repeat safe_step.

Section Safe.
Context {L : Libs}.

Lemma CacheImage_safe c localPath hash location :
  safe (client.CacheImage c localPath hash location).
Proof.
  unfold client.CacheImage, client.cacheLocally, client.cacheToBMC,
    client.getBMCCachePath, client.ExecuteCommand, client.UploadFile,
    client.ListDirectory, TPI.ExecuteCommand, TPI.UploadFile, TPI.ListDirectory,
    os.Stat, os.Open, os.Create, os.Remove, io.Copy.
  safe_all.
Qed.

Lemma GetCachedImagePath_safe c hash location :
  safe (client.GetCachedImagePath c hash location).
Proof.
  unfold client.GetCachedImagePath, client.getLocalCachePath, client.getBMCCachePath,
    client.ListDirectory, TPI.ListDirectory, os.Stat.
  safe_all.
Qed.

Lemma NewImageCache_safe c : safe (client.NewImageCache c).
Proof. unfold client.NewImageCache, os.UserHomeDir, os.MkdirAll. safe_all. Qed.

Lemma decompress_safe path compression : safe (client.decompress path compression).
Proof.
  unfold client.decompress, client.decompressXZ, client.decompressGzip,
    client.decompressZip, os.Create, os.Open, io.Copy.
  cbv zeta. safe_all.
Qed.

Lemma resolveImage_safe cache plan : safe (node_flash.resolveImage cache plan).
Proof.
  unfold node_flash.resolveImage, tflog.Info, tflog.Warn.
  safe_all;
    first [ apply GetCachedImagePath_safe | apply decompress_safe
          | apply CacheImage_safe ].
Qed.

End Safe.

Section Resolve.
Context {L : Libs}.

(** What resolveImage hands to the flash stage. *)
Lemma resolveImage_inv cache plan w img w' t :
  node_flash.resolveImage cache plan w = (Some (Ok img), w', t) ->
  (node_flash.tempFile img = "" \/
   node_flash.tempFile img = node_flash.imagePath img) /\
  ((has_expected_hash plan = true /\
    node_flash.sha256_ img = ValueString (node_flash.SHA256 plan)) \/
   String.length (node_flash.sha256_ img) = 64%nat).
Proof.
  unfold node_flash.resolveImage.
  fold (is_url_plan plan). fold (has_expected_hash plan).
  destruct (is_url_plan plan).
  - intros H.
    apply bind_inv in H as (u & w1 & t1 & t2 & _ & H & ->).
    apply bind_inv in H as ([[expected imagePath] sha256] & w2 & t3 & t4 & Hl & H & ->).
    destruct (String.eqb imagePath "") eqn:Ei.
    + apply try_inv_ok in H as (dr & w3 & t5 & t6 & Hd & H & ->).
      apply bind_inv in H as (u' & w4 & t7 & t8 & _ & H & ->).
      injection H as <- <- <-. simpl. split; [by right|]. right.
      rewrite DownloadImage_verify in Hd.
      apply try_inv_ok in Hd as (dr0 & w5 & t9 & t10 & Hplain & Hv & ->).
      apply verify_ok in Hv as (-> & _).
      destruct (DownloadImage_plain_result _ _ _ _ _ _ Hplain) as ((content & _ & ->) & _).
      apply hex_length.
    + injection H as <- <- <-. simpl. split; [by left|]. left.
      destruct (has_expected_hash plan).
      * split; [done|].
        apply bind_inv in Hl as ([p|err] & w3 & t5 & t6 & _ & Hl & ->).
        -- destruct (sne p "").
           ++ apply bind_inv in Hl as (u' & w4 & t7 & t8 & _ & Hl & ->).
              by injection Hl as <- <- <-.
           ++ injection Hl as <- <- <-. by rewrite String.eqb_refl in Ei.
        -- apply bind_inv in Hl as (u' & w4 & t7 & t8 & _ & Hl & ->).
           injection Hl as <- <- <-. by rewrite String.eqb_refl in Ei.
      * injection Hl as <- <- <-. by rewrite String.eqb_refl in Ei.
  - intros H.
    apply try_inv_ok in H as (sha256 & w1 & t1 & t2 & Hs & H & ->).
    apply bind_inv in H as (p & w2 & t3 & t4 & _ & H & ->).
    injection H as <- <- <-. simpl. split; [by left|].
    destruct (has_expected_hash plan).
    + left. split; [done|]. by injection Hs as <- <- <-.
    + right. apply try_inv_ok in Hs as (h & w3 & t5 & t6 & Hc & Hs & ->).
      injection Hs as <- <- <-.
      unfold client.CalculateFileSHA256 in Hc. rewrite calculateSHA256_eq in Hc.
      destruct (next_fault w); [discriminate|].
      destruct (w_fs w !! _); [|discriminate].
      destruct (next_fault (after_fault w)); [discriminate|].
      injection Hc as <- _ _. apply hex_length.
Qed.

End Resolve.

(* ===================================================================== *)
(** ** executeFlash, stage by stage                                      *)
(* ===================================================================== *)

Lemma flash_is_bmc_call e : is_flash e = true -> is_bmc_call e = true.
Proof. by destruct e. Qed.

Lemma slice_to_Some s n :
  (n <= String.length s)%nat -> exists p, strings.slice_to s n = Some p.
Proof.
  intros H. unfold strings.slice_to.
  destruct (Nat.leb_spec n (String.length s)); [by eexists | lia].
Qed.

Lemma slice_to_None s n :
  (String.length s < n)%nat -> strings.slice_to s n = None.
Proof.
  intros H. unfold strings.slice_to.
  destruct (Nat.leb_spec n (String.length s)); [lia | done].
Qed.

Lemma slice_to_length s n p :
  strings.slice_to s n = Some p -> (n <= String.length s)%nat.
Proof.
  unfold strings.slice_to.
  destruct (Nat.leb_spec n (String.length s)); [done | discriminate].
Qed.

Section Run.
Context {L : Libs}.

Lemma NewImageCache_no_bmc c : never is_bmc_call (client.NewImageCache c).
Proof. unfold client.NewImageCache, os.UserHomeDir, os.MkdirAll. never_all. Qed.

Lemma decompress_no_bmc path compression :
  never is_bmc_call (client.decompress path compression).
Proof.
  unfold client.decompress, client.decompressXZ, client.decompressGzip,
    client.decompressZip, os.Create, os.Open, io.Copy.
  cbv zeta. never_all.
Qed.

Lemma GetCachedImagePath_no_bmc c hash location :
  location <> "bmc" -> never is_bmc_call (client.GetCachedImagePath c hash location).
Proof.
  intros Hb. apply String.eqb_neq in Hb.
  unfold client.GetCachedImagePath, client.CacheLocationBMC. rewrite Hb.
  unfold client.getLocalCachePath, os.Stat. never_all.
Qed.

Lemma CacheImage_no_bmc c localPath hash location :
  location <> "bmc" -> never is_bmc_call (client.CacheImage c localPath hash location).
Proof.
  intros Hb. apply String.eqb_neq in Hb.
  unfold client.CacheImage, client.CacheLocationBMC. rewrite Hb.
  unfold client.cacheLocally, os.Stat, os.Open, os.Create, os.Remove, io.Copy.
  never_all.
Qed.

Lemma resolveImage_no_bmc cache plan :
  ValueString (node_flash.Cache plan) <> "bmc" ->
  never is_bmc_call (node_flash.resolveImage cache plan).
Proof.
  intros Hb. unfold node_flash.resolveImage, tflog.Info, tflog.Warn.
  never_all;
    first [ by apply GetCachedImagePath_no_bmc | apply decompress_no_bmc
          | by apply CacheImage_no_bmc ].
Qed.

Lemma CacheImage_never_flashes c localPath hash location :
  never is_flash (client.CacheImage c localPath hash location).
Proof.
  unfold client.CacheImage, client.cacheLocally, client.cacheToBMC,
    client.getBMCCachePath, client.ExecuteCommand, client.UploadFile,
    client.ListDirectory, TPI.ExecuteCommand, TPI.UploadFile, TPI.ListDirectory,
    os.Stat, os.Open, os.Create, os.Remove, io.Copy.
  never_all.
Qed.

Lemma GetCachedImagePath_never_flashes c hash location :
  never is_flash (client.GetCachedImagePath c hash location).
Proof.
  unfold client.GetCachedImagePath, client.getLocalCachePath, client.getBMCCachePath,
    client.ListDirectory, TPI.ListDirectory, os.Stat.
  never_all.
Qed.

Lemma NewImageCache_never_flashes c : never is_flash (client.NewImageCache c).
Proof.
  apply (never_weaken is_bmc_call); [apply flash_is_bmc_call|].
  apply NewImageCache_no_bmc.
Qed.

Lemma resolveImage_never_flashes cache plan :
  never is_flash (node_flash.resolveImage cache plan).
Proof.
  unfold node_flash.resolveImage, tflog.Info, tflog.Warn.
  never_all;
    first [ apply GetCachedImagePath_never_flashes
          | apply (never_weaken is_bmc_call);
              [apply flash_is_bmc_call | apply decompress_no_bmc]
          | apply CacheImage_never_flashes ].
Qed.

Lemma resolved_no_cleanup cache plan w img w' t :
  node_flash.resolveImage cache plan w = (Some (Ok img), w', t) ->
  cleans_up img = false.
Proof.
  intros H. destruct (resolveImage_inv _ _ _ _ _ _ H) as ([E | E] & _);
    unfold cleans_up; rewrite E.
  - reflexivity.
  - unfold sne at 2. rewrite String.eqb_refl. apply andb_false_r.
Qed.

(** The run of executeFlash, stage by stage. *)
Lemma executeFlash_cases r plan w :
  let run := node_flash.executeFlash r plan w in
  (exists t, events run = t /\ count is_flash t = 0%nat /\
             (forall p, is_bmc_call p = true -> In p t -> 
                        ValueString (node_flash.Cache plan) = "bmc") /\
             (outcome run = None \/ exists e, outcome run = Some (Err e)) /\
             (outcome run = None ->
                exists cache w1 t1 img w2 t2,
                  client.NewImageCache (node_flash.r_client r) w
                    = (Some (Ok cache), w1, t1) /\
                  node_flash.resolveImage cache plan w1 = (Some (Ok img), w2, t2) /\
                  strings.slice_to (node_flash.sha256_ img) 16 = None)) \/
  (exists cache w1 t1 img w2 t2 prefix,
     client.NewImageCache (node_flash.r_client r) w = (Some (Ok cache), w1, t1) /\
     node_flash.resolveImage cache plan w1 = (Some (Ok img), w2, t2) /\
     strings.slice_to (node_flash.sha256_ img) 16 = Some prefix /\
     run = (Some (flash_outcome plan img w2),
            after_fault w2,
            (t1 ++ t2 ++ [flash_log plan img prefix; flash_event plan img])%list)).
Proof.
  cbv zeta. unfold node_flash.executeFlash.
  pose proof (NewImageCache_never_flashes (node_flash.r_client r) w) as N1.
  pose proof (NewImageCache_no_bmc (node_flash.r_client r) w) as B1.
  pose proof (NewImageCache_safe (node_flash.r_client r) w) as S1.
  destruct (client.NewImageCache (node_flash.r_client r) w)
    as [[[[cache|e]|] w1] t1] eqn:EN; unfold events, outcome in N1, B1, S1;
    simpl in N1, B1, S1; [| |done].
  2: { left. rewrite (try_err _ _ _ _ _ _ _ EN). eexists. split; [reflexivity|].
       split; [exact N1|]. split.
       { intros p Hp Hin. exfalso.
         pose proof (never_In _ _ w p (NewImageCache_no_bmc (node_flash.r_client r))) as Hn.
         rewrite EN in Hn. specialize (Hn Hin). congruence. }
       split; [right; by eexists | discriminate]. }
  rewrite (try_ok _ _ _ _ _ _ _ EN).
  pose proof (resolveImage_never_flashes cache plan w1) as N2.
  pose proof (resolveImage_safe cache plan w1) as S2.
  destruct (node_flash.resolveImage cache plan w1) as [[[[img|e]|] w2] t2] eqn:ER;
    unfold events, outcome in N2, S2; simpl in N2, S2; [| |done].
  2: { left. rewrite (try_err _ _ _ _ _ _ _ ER). unfold prepend, events, outcome. simpl.
       eexists. split; [reflexivity|]. split; [by rewrite count_app, N1, N2|].
       split.
       { intros p Hp Hin. destruct (decide (ValueString (node_flash.Cache plan) = "bmc"))
           as [|Hb]; [done|]. exfalso.
         apply in_app_or in Hin as [Hin|Hin].
         - pose proof (never_In _ _ w p (NewImageCache_no_bmc (node_flash.r_client r))) as Hn.
           rewrite EN in Hn. specialize (Hn Hin). congruence.
         - pose proof (never_In _ _ w1 p (resolveImage_no_bmc cache plan Hb)) as Hn.
           rewrite ER in Hn. specialize (Hn Hin). congruence. }
       split; [right; by eexists | discriminate]. }
  rewrite (try_ok _ _ _ _ _ _ _ ER), prepend_prepend, dispatchFlash_eq.
  unfold cleanup_world, cleanup_events. rewrite (resolved_no_cleanup _ _ _ _ _ _ ER).
  destruct (strings.slice_to (node_flash.sha256_ img) 16) as [prefix|] eqn:Es.
  - right. exists cache, w1, t1, img, w2, t2, prefix.
    repeat (split; [done|]). unfold prepend. by rewrite <- app_assoc.
  - left. unfold prepend, events, outcome. simpl. rewrite app_nil_r.
    eexists. split; [reflexivity|]. split; [by rewrite count_app, N1, N2|].
    split.
    { intros p Hp Hin. destruct (decide (ValueString (node_flash.Cache plan) = "bmc"))
        as [|Hb]; [done|]. exfalso.
      apply in_app_or in Hin as [Hin|Hin].
      - pose proof (never_In _ _ w p (NewImageCache_no_bmc (node_flash.r_client r))) as Hn.
        rewrite EN in Hn. specialize (Hn Hin). congruence.
      - pose proof (never_In _ _ w1 p (resolveImage_no_bmc cache plan Hb)) as Hn.
        rewrite ER in Hn. specialize (Hn Hin). congruence. }
    split; [by left|]. intros _. by exists cache, w1, t1, img, w2, t2.
Qed.


(** A plan for a local file that names its hash resolves without
    reading the file, to that hash. *)
Lemma resolveImage_local_given cache plan w :
  is_url_plan plan = false -> has_expected_hash plan = true ->
  exists img w2 t2,
    node_flash.resolveImage cache plan w = (Some (Ok img), w2, t2) /\
    node_flash.sha256_ img = ValueString (node_flash.SHA256 plan) /\
    count is_flash t2 = 0%nat.
Proof.
  intros Hu Hh.
  pose proof (resolveImage_never_flashes cache plan w) as Hn.
  revert Hn. unfold node_flash.resolveImage.
  fold (is_url_plan plan). fold (has_expected_hash plan). rewrite Hu, Hh.
  rewrite try_ret_ok.
  match goal with
  | |- context [bind ?m ?k w] =>
      assert (safe m) as Hs;
      [ unfold tflog.Info, tflog.Warn; safe_all; apply CacheImage_safe
      | specialize (Hs w); unfold outcome in Hs;
        destruct (m w) as [[[p|] w2] t2] eqn:Em; [|done];
        rewrite (bind_eq m k w p w2 t2 Em) ]
  end.
  unfold ret, prepend, events. simpl. intros Hn.
  eexists _, w2, _. split; [reflexivity|]. split; [reflexivity|]. exact Hn.
Qed.

(** X10. Every run of executeFlash either issues no flash operation at
    all, and then does not succeed, or ends with its one flash operation:
    no flash operation comes before it and nothing, no cleanup either,
    comes after it. *)
Theorem executeFlash_flash_is_last r plan w :
  let run := node_flash.executeFlash r plan w in
  (count is_flash (events run) = 0%nat /\
   forall result, outcome run <> Some (Ok result)) \/
  (exists before img,
     events run = (before ++ [flash_event plan img])%list /\
     count is_flash before = 0%nat /\
     outcome run <> None).
Proof.
  intros run. destruct (executeFlash_cases r plan w) as [H | H]; fold run in H.
  - left. destruct H as (t & <- & Hc & _ & Ho & _). split; [exact Hc|].
    intros result Hr. destruct Ho as [Ho | [e Ho]]; congruence.
  - right. destruct H as (cache & w1 & t1 & img & w2 & t2 & prefix & EN & ER & Es & ->).
    exists (t1 ++ t2 ++ [flash_log plan img prefix])%list, img.
    unfold events, outcome. simpl. split; [by rewrite <- !app_assoc|].
    split; [|done].
    pose proof (NewImageCache_never_flashes (node_flash.r_client r) w) as N1.
    pose proof (resolveImage_never_flashes cache plan w1) as N2.
    rewrite EN in N1. rewrite ER in N2. unfold events in N1, N2. simpl in N1, N2.
    by rewrite !count_app, N1, N2.
Qed.

(** X11. The deferred cleanup of executeFlash (lines 395-400) never
    removes anything: for every image the source handling resolves, the
    temporary file is either empty or the image path itself, so the
    condition of the cleanup is false; the flash stage leaves the disk as
    it finds it and removes no file. A downloaded image stays in its
    temporary directory. *)
Theorem executeFlash_cleanup_is_idle cache plan w img w' t :
  node_flash.resolveImage cache plan w = (Some (Ok img), w', t) ->
  cleans_up img = false /\
  forall r w0,
    let flash := node_flash.dispatchFlash r plan img w0 in
    w_fs (world_of flash) = w_fs w0 /\ count is_remove (events flash) = 0%nat.
Proof.
  intros H. pose proof (resolved_no_cleanup _ _ _ _ _ _ H) as Hc.
  split; [exact Hc|]. intros r w0. cbv zeta. rewrite dispatchFlash_eq.
  unfold cleanup_world, cleanup_events, flash_event. rewrite Hc.
  destruct (strings.slice_to _ 16); unfold world_of, events; simpl;
    rewrite ?after_fault_fs; [|done].
  split; [done|]. by destruct (String.eqb _ client.CacheLocationBMC).
Qed.

(** X12. When the plan gives no sha256, or one of at least sixteen
    characters, executeFlash returns (it does not panic on [sha256[:16]]);
    a result it returns carries a hash of at least sixteen characters,
    and, when the plan gave none, of exactly 64: the computed digest. *)
Theorem executeFlash_never_panics r plan w :
  has_expected_hash plan = false \/
  (16 <= String.length (ValueString (node_flash.SHA256 plan)))%nat ->
  let run := node_flash.executeFlash r plan w in
  outcome run <> None /\
  forall result, outcome run = Some (Ok result) ->
    (16 <= String.length (node_flash.Result_SHA256 result))%nat /\
    (has_expected_hash plan = false ->
     String.length (node_flash.Result_SHA256 result) = 64%nat).
Proof.
  intros Hp run. destruct (executeFlash_cases r plan w) as [H | H]; fold run in H.
  - destruct H as (t & _ & _ & _ & Ho & Hn). split.
    + intros Hnone. destruct (Hn Hnone) as (cache & w1 & t1 & img & w2 & t2 & _ & ER & Es).
      destruct (resolveImage_inv _ _ _ _ _ _ ER) as (_ & [[Hh Hs] | Hs]).
      * destruct Hp as [Hp | Hp]; [congruence|].
        rewrite <- Hs in Hp. destruct (slice_to_Some _ _ Hp). congruence.
      * assert (16 <= String.length (node_flash.sha256_ img))%nat as Hl by lia.
        destruct (slice_to_Some _ _ Hl). congruence.
    + intros result Hr. destruct Ho as [Ho | [e Ho]]; congruence.
  - destruct H as (cache & w1 & t1 & img & w2 & t2 & prefix & EN & ER & Es & ->).
    unfold outcome. simpl. split; [done|].
    intros result Hr. injection Hr as Hr. apply flash_outcome_ok in Hr.
    rewrite Hr.
    split; [by apply slice_to_length in Es|].
    intros Hh. destruct (resolveImage_inv _ _ _ _ _ _ ER) as (_ & [[Hh' _] | Hs]);
      [congruence | exact Hs].
Qed.

(** X13. A plan for a local file whose sha256 is given but shorter
    than sixteen characters: once the cache is initialised, executeFlash
    panics at the log line before the flash ([sha256[:16]]), and no flash
    operation is issued. *)
Theorem executeFlash_short_hash_panics r plan w cache w1 t1 :
  is_url_plan plan = false ->
  has_expected_hash plan = true ->
  (String.length (ValueString (node_flash.SHA256 plan)) < 16)%nat ->
  client.NewImageCache (node_flash.r_client r) w = (Some (Ok cache), w1, t1) ->
  let run := node_flash.executeFlash r plan w in
  outcome run = None /\ count is_flash (events run) = 0%nat.
Proof.
  intros Hu Hh Hlen EN run. subst run. unfold node_flash.executeFlash.
  rewrite (try_ok _ _ _ _ _ _ _ EN).
  destruct (resolveImage_local_given cache plan w1 Hu Hh) as (img & w2 & t2 & ER & Hs & N2).
  rewrite (try_ok _ _ _ _ _ _ _ ER), prepend_prepend, dispatchFlash_eq.
  rewrite Hs, (slice_to_None _ _ Hlen).
  unfold cleanup_events. rewrite (resolved_no_cleanup _ _ _ _ _ _ ER).
  unfold prepend, outcome, events. simpl. split; [done|].
  pose proof (NewImageCache_never_flashes (node_flash.r_client r) w) as N1.
  rewrite EN in N1. unfold events in N1. simpl in N1.
  by rewrite !count_app, N1, N2.
Qed.

(** X14. With a cache location other than "bmc", the only call of
    executeFlash that reaches the BMC is the flash itself: a BMC call in a
    run means that the cache was initialised and the source handling
    resolved an image, and the call is FlashNode with the path and the
    hash of that very image, the plan's node and skip_crc; it is the last
    event of the run, after the events of the two stages and the log line
    of the flash, and no BMC call comes before it. *)
Theorem executeFlash_bmc_contact r plan w e :
  ValueString (node_flash.Cache plan) <> "bmc" ->
  In e (events (node_flash.executeFlash r plan w)) ->
  is_bmc_call e = true ->
  exists cache w1 t1 img w2 t2 before,
    client.NewImageCache (node_flash.r_client r) w = (Some (Ok cache), w1, t1) /\
    node_flash.resolveImage cache plan w1 = (Some (Ok img), w2, t2) /\
    e = EvFlashNode (ValueInt64 (node_flash.Node plan))
          {| tpi.ImagePath := node_flash.imagePath img;
             tpi.SHA256 := node_flash.sha256_ img;
             tpi.SkipCRC := ValueBool (node_flash.SkipCRC plan) |} /\
    events (node_flash.executeFlash r plan w) = (before ++ [e])%list /\
    (exists log, before = (t1 ++ t2 ++ [log])%list /\ is_log log = true) /\
    count is_bmc_call before = 0%nat.
Proof.
  intros Hb Hin He. destruct (executeFlash_cases r plan w) as [H | H].
  - destruct H as (t & <- & _ & Hbmc & _). by specialize (Hbmc e He Hin).
  - destruct H as (cache & w1 & t1 & img & w2 & t2 & prefix & EN & ER & Es & Hrun).
    rewrite Hrun in *. unfold events in *. simpl in *.
    pose proof (NewImageCache_no_bmc (node_flash.r_client r) w) as N1.
    pose proof (resolveImage_no_bmc cache plan Hb w1) as N2.
    rewrite EN in N1. rewrite ER in N2. unfold events in N1, N2. simpl in N1, N2.
    assert (flash_event plan img
            = EvFlashNode (ValueInt64 (node_flash.Node plan))
                {| tpi.ImagePath := node_flash.imagePath img;
                   tpi.SHA256 := node_flash.sha256_ img;
                   tpi.SkipCRC := ValueBool (node_flash.SkipCRC plan) |}) as Hf.
    { unfold flash_event. apply String.eqb_neq in Hb.
      unfold client.CacheLocationBMC. by rewrite Hb. }
    assert (e = flash_event plan img) as ->.
    { apply in_app_or in Hin as [Hin|Hin].
      { pose proof (never_In _ _ w e (NewImageCache_no_bmc (node_flash.r_client r))) as Hn.
        rewrite EN in Hn. specialize (Hn Hin). congruence. }
      apply in_app_or in Hin as [Hin|Hin].
      { pose proof (never_In _ _ w1 e (resolveImage_no_bmc cache plan Hb)) as Hn.
        rewrite ER in Hn. specialize (Hn Hin). congruence. }
      destruct Hin as [<- | [<- | []]]; [discriminate He | done]. }
    exists cache, w1, t1, img, w2, t2, (t1 ++ t2 ++ [flash_log plan img prefix])%list.
    split; [exact EN|]. split; [exact ER|]. split; [exact Hf|].
    split; [by rewrite <- !app_assoc|].
    split; [by exists (flash_log plan img prefix)|].
    by rewrite !count_app, N1, N2.
Qed.

End Run.

Lemma executeFlash_bmc_contact_witness :
  let plan := Scenario.flash_plan Unknown "local" in
  let run := node_flash.executeFlash (L := Scenario.libs) Scenario.flash_resource plan
               Scenario.fresh in
  let e := EvFlashNode 1
             {| tpi.ImagePath := "/tmp/turingpi-download-7/ubuntu.img";
                tpi.SHA256 := Scenario.image_hash; tpi.SkipCRC := false |} in
  In e (events run) /\
  exists cache w1 t1 img w2 t2 before,
    client.NewImageCache Scenario.bmc_client Scenario.fresh
      = (Some (Ok cache), w1, t1) /\
    node_flash.resolveImage (L := Scenario.libs) cache plan w1
      = (Some (Ok img), w2, t2) /\
    node_flash.imagePath img = "/tmp/turingpi-download-7/ubuntu.img" /\
    node_flash.sha256_ img = Scenario.image_hash /\
    events run = (before ++ [e])%list /\
    count is_bmc_call before = 0%nat.
Proof.
  intros plan run e.
  assert (In e (events run)) as Hin by (vm_compute; auto 30).
  split; [exact Hin|].
  destruct (executeFlash_bmc_contact (L := Scenario.libs) Scenario.flash_resource plan
              Scenario.fresh e ltac:(discriminate) Hin eq_refl)
    as (cache & w1 & t1 & img & w2 & t2 & before & EN & ER & He & Hb & _ & Hc).
  exists cache, w1, t1, img, w2, t2, before.
  split; [exact EN|]. split; [exact ER|].
  split; [by injection He as <- _|]. split; [by injection He as _ <-|].
  split; [exact Hb | exact Hc].
Defined.

Lemma executeFlash_short_hash_panics_witness :
  let run := node_flash.executeFlash (L := Scenario.libs) Scenario.flash_resource
               (Scenario.local_plan (Known "2c8648d1") "none") Scenario.fresh in
  outcome run = None /\ count is_flash (events run) = 0%nat.
Proof.
  intros run.
  apply (executeFlash_short_hash_panics (L := Scenario.libs) Scenario.flash_resource
           (Scenario.local_plan (Known "2c8648d1") "none") Scenario.fresh
           Scenario.cache Scenario.fresh
           [EvUserHomeDir; EvMkdirAll "/home/u/.cache/terraform-provider-turingpi"]
           eq_refl eq_refl).
  - vm_compute. lia.
  - vm_compute. reflexivity.
Defined.

Lemma executeFlash_never_panics_witness :
  let run := node_flash.executeFlash (L := Scenario.libs) Scenario.flash_resource
               (Scenario.local_plan Unknown "none") Scenario.fresh in
  outcome run
  = Some (Ok {| node_flash.Result_SHA256 := sha256.hex "local-image-bytes" |}) /\
  outcome run <> None /\
  String.length (sha256.hex "local-image-bytes") = 64%nat.
Proof.
  intros run.
  destruct (executeFlash_never_panics (L := Scenario.libs) Scenario.flash_resource
              (Scenario.local_plan Unknown "none") Scenario.fresh (or_introl eq_refl))
    as (Hn & Hl).
  assert (outcome run
          = Some (Ok {| node_flash.Result_SHA256 := sha256.hex "local-image-bytes" |}))
    as Hrun by (vm_compute; reflexivity).
  split; [exact Hrun|]. split; [exact Hn|].
  destruct (Hl _ Hrun) as (_ & H64). by apply H64.
Defined.

Lemma executeFlash_cleanup_is_idle_witness :
  let plan := Scenario.flash_plan Unknown "none" in
  exists img w' t,
    node_flash.resolveImage (L := Scenario.libs) Scenario.cache plan Scenario.fresh
    = (Some (Ok img), w', t) /\
    node_flash.tempFile img = "/tmp/turingpi-download-7/ubuntu.img" /\
    cleans_up img = false /\
    is_Some (w_fs (world_of (node_flash.dispatchFlash Scenario.flash_resource plan img w'))
             !! node_flash.tempFile img).
Proof.
  intros plan.
  set (run := node_flash.resolveImage (L := Scenario.libs) Scenario.cache plan
                Scenario.fresh).
  set (img := {| node_flash.imagePath := "/tmp/turingpi-download-7/ubuntu.img";
                 node_flash.sha256_ := Scenario.image_hash;
                 node_flash.tempFile := "/tmp/turingpi-download-7/ubuntu.img" |}).
  assert (run = (Some (Ok img), world_of run, events run)) as Hrun
      by (vm_compute; reflexivity).
  destruct (executeFlash_cleanup_is_idle (L := Scenario.libs) _ _ _ _ _ _ Hrun)
    as (Hc & Hd).
  exists img, (world_of run), (events run).
  split; [exact Hrun|]. split; [reflexivity|]. split; [exact Hc|].
  destruct (Hd Scenario.flash_resource (world_of run)) as (Hfs & _).
  rewrite Hfs. vm_compute. by eexists.
Defined.

(* ===================================================================== *)
(** ** executeFlash: a failing cache store                                *)
(* ===================================================================== *)

Section StoreFailure.
Context {L : Libs}.

Lemma bind_ret {A B} (a : A) (k : A -> M B) w : bind (ret a) k w = k a w.
Proof. unfold bind, ret. by destruct (k a w) as [[b w1] t1]. Qed.

Lemma expected_hash_given plan :
  has_expected_hash plan = true ->
  expected_hash plan = ValueString (node_flash.SHA256 plan).
Proof. unfold expected_hash. by intros ->. Qed.

(** The source handling of a plan with a URL whose cache lookup, if
    any, misses: the download, then the store. *)
Lemma resolveImage_fetch cache plan w looked w2 t2 :
  is_url_plan plan = true ->
  lookup_missed cache plan w looked w2 t2 ->
  node_flash.resolveImage cache plan w
  = prepend (download_log plan :: t2 ++ miss_events looked)%list
      (try (client.DownloadImage (ValueString (node_flash.ImageURL plan))
              (Some {| client.ExpectedSHA256 := expected_hash plan;
                       client.DestDir := "" |}))
         (Wrapf "failed to download image: ")
         (fun result =>
            bind
              (if sne (ValueString (node_flash.Cache plan)) client.CacheLocationNone
               then
                 bind (client.CacheImage cache (client.Path result)
                         (client.SHA256 result) (ValueString (node_flash.Cache plan)))
                   (fun r => match r with
                             | Ok cachedPath =>
                                 tflog.Info "Image cached" [("path", LStr cachedPath)]
                             | Err err =>
                                 tflog.Warn "Failed to cache image"
                                   [("error", LStr (error_string err))]
                             end)
               else ret tt)
              (fun _ => ret (Ok (fetched result))))
         w2).
Proof.
  intros Hu Hl. unfold lookup_missed in Hl.
  destruct (has_expected_hash plan) eqn:Hh.
  - destruct Hl as [Hlook Hm]. rewrite (expected_hash_given _ Hh).
    exact (resolveImage_download _ _ _ _ _ _ Hu Hh Hlook Hm).
  - destruct Hl as (-> & -> & ->). unfold expected_hash. rewrite Hh.
    unfold is_url_plan, has_expected_hash in Hu, Hh.
    unfold node_flash.resolveImage. rewrite Hu, Hh.
    rewrite log_info_bind, bind_ret. cbv beta iota.
    change (String.eqb "" "") with true. cbv iota. reflexivity.
Qed.

(** The source handling of a plan with a local file, once its hash is
    there: the store. *)
Lemma resolveImage_local cache plan w sha w2 t2 :
  is_url_plan plan = false ->
  local_hash plan w sha w2 t2 ->
  node_flash.resolveImage cache plan w
  = prepend t2
      (bind
         (if sne (ValueString (node_flash.Cache plan)) client.CacheLocationNone
          then
            bind (client.CacheImage cache (ValueString (node_flash.ImagePath plan))
                    sha (ValueString (node_flash.Cache plan)))
              (fun r => match r with
                        | Err err =>
                            bind (tflog.Warn "Failed to cache image"
                                    [("error", LStr (error_string err))])
                                 (fun _ => ret (ValueString (node_flash.ImagePath plan)))
                        | Ok cachedPath =>
                            bind (tflog.Info "Image cached" [("path", LStr cachedPath)])
                                 (fun _ => ret cachedPath)
                        end)
          else ret (ValueString (node_flash.ImagePath plan)))
         (fun imagePath =>
            ret (Ok {| node_flash.imagePath := imagePath;
                       node_flash.sha256_ := sha;
                       node_flash.tempFile := "" |}))
         w2).
Proof.
  intros Hu Hl. unfold local_hash in Hl.
  destruct (has_expected_hash plan) eqn:Hh.
  - destruct Hl as (-> & -> & ->).
    unfold is_url_plan, has_expected_hash in Hu, Hh.
    unfold node_flash.resolveImage. rewrite Hu, Hh.
    rewrite try_ret_ok. by rewrite prepend_nil.
  - unfold is_url_plan, has_expected_hash in Hu, Hh.
    unfold node_flash.resolveImage. rewrite Hu, Hh.
    rewrite try_assoc, (try_ok _ _ _ _ _ _ _ Hl), try_ret_ok. reflexivity.
Qed.

(** A failed store after a download: the warning, and the image as
    downloaded. *)
Lemma resolveImage_store_failed_after_download cache plan w looked w2 t2 dr w3 t3
    e w4 t4 :
  is_url_plan plan = true ->
  lookup_missed cache plan w looked w2 t2 ->
  client.DownloadImage (ValueString (node_flash.ImageURL plan))
    (Some {| client.ExpectedSHA256 := expected_hash plan; client.DestDir := "" |}) w2
    = (Some (Ok dr), w3, t3) ->
  ValueString (node_flash.Cache plan) <> "none" ->
  client.CacheImage cache (client.Path dr) (client.SHA256 dr)
    (ValueString (node_flash.Cache plan)) w3 = (Some (Err e), w4, t4) ->
  node_flash.resolveImage cache plan w
  = (Some (Ok (fetched dr)), w4,
     ((download_log plan :: t2 ++ miss_events looked) ++ t3 ++ t4 ++
      [cache_warning e])%list).
Proof.
  intros Hu Hl Hdl Hn Hput.
  rewrite (resolveImage_fetch _ _ _ _ _ _ Hu Hl), (try_ok _ _ _ _ _ _ _ Hdl).
  apply sne_true in Hn. unfold client.CacheLocationNone. rewrite Hn.
  erewrite (bind_eq (bind _ _)); cycle 1.
  { rewrite (bind_eq _ _ _ _ _ _ Hput). unfold tflog.Warn, emit, prepend.
    reflexivity. }
  unfold ret, prepend, cache_warning. by rewrite app_nil_r.
Qed.

(** A failed store of a local file: the warning, and the file of the
    plan. *)
Lemma resolveImage_store_failed_local cache plan w sha w2 t2 e w3 t3 :
  is_url_plan plan = false ->
  local_hash plan w sha w2 t2 ->
  ValueString (node_flash.Cache plan) <> "none" ->
  client.CacheImage cache (ValueString (node_flash.ImagePath plan)) sha
    (ValueString (node_flash.Cache plan)) w2 = (Some (Err e), w3, t3) ->
  node_flash.resolveImage cache plan w
  = (Some (Ok (plan_file plan sha)), w3, (t2 ++ t3 ++ [cache_warning e])%list).
Proof.
  intros Hu Hl Hn Hput.
  rewrite (resolveImage_local _ _ _ _ _ _ Hu Hl).
  apply sne_true in Hn. unfold client.CacheLocationNone. rewrite Hn.
  erewrite (bind_eq (bind _ _)); cycle 1.
  { rewrite (bind_eq _ _ _ _ _ _ Hput), log_warn_bind. unfold ret, prepend.
    reflexivity. }
  unfold ret, prepend, cache_warning, plan_file. by rewrite app_nil_r.
Qed.


Lemma never_count p {A} (m : M A) w r w' t :
  never p m -> m w = (r, w', t) -> count p t = 0%nat.
Proof. intros Hn Hm. specialize (Hn w). by rewrite Hm in Hn. Qed.

Lemma lookup_missed_never_warns cache plan w looked w2 t2 :
  lookup_missed cache plan w looked w2 t2 ->
  count is_cache_warning (t2 ++ miss_events looked) = 0%nat.
Proof.
  unfold lookup_missed. destruct (has_expected_hash plan).
  - intros [Hl _]. rewrite count_app.
    rewrite (never_count _ _ _ _ _ _ (GetCachedImagePath_never_warns _ _ _) Hl).
    by destruct looked.
  - by intros (-> & _ & ->).
Qed.

Lemma local_hash_never_warns plan w sha w2 t2 :
  local_hash plan w sha w2 t2 -> count is_cache_warning t2 = 0%nat.
Proof.
  unfold local_hash. destruct (has_expected_hash plan).
  - by intros (_ & _ & ->).
  - apply never_count, CalculateFileSHA256_never_warns.
Qed.

Lemma dispatchFlash_outcome r plan img w :
  outcome (node_flash.dispatchFlash r plan img w)
  = match strings.slice_to (node_flash.sha256_ img) 16 with
    | None => None
    | Some _ => Some (flash_outcome plan img w)
    end.
Proof. rewrite dispatchFlash_eq. by destruct (strings.slice_to _ 16). Qed.

(** C8. What executeFlash does when CacheImage returns an error, at
    both places where it calls it: after a download (lines 350-362) and
    for a local file (lines 379-392). The error is not returned: it is
    logged as the one warning "Failed to cache image" of the run, and the
    run goes on into the flash stage with the image as it was before the
    store: the downloaded file, or the file of the plan. The run then
    ends as the flash operation does. That is where the cache failure
    comes back: with cache "bmc" the flash operation is FlashNodeLocal,
    which is now handed the path of the local file; when the BMC holds no
    file under that path, the run fails with "flash operation failed",
    although the store was the only thing that had failed. *)
Theorem cache_failure_is_absorbed :
  (forall r plan w cache w1 t1 looked w2 t2 dr w3 t3 e w4 t4,
     is_url_plan plan = true ->
     client.NewImageCache (node_flash.r_client r) w = (Some (Ok cache), w1, t1) ->
     lookup_missed cache plan w1 looked w2 t2 ->
     client.DownloadImage (ValueString (node_flash.ImageURL plan))
       (Some {| client.ExpectedSHA256 := expected_hash plan;
                client.DestDir := "" |}) w2
       = (Some (Ok dr), w3, t3) ->
     ValueString (node_flash.Cache plan) <> "none" ->
     client.CacheImage cache (client.Path dr) (client.SHA256 dr)
       (ValueString (node_flash.Cache plan)) w3 = (Some (Err e), w4, t4) ->
     let run := node_flash.executeFlash r plan w in
     let before :=
       (t1 ++ (download_log plan :: t2 ++ miss_events looked) ++ t3 ++ t4)%list in
     run = prepend (before ++ [cache_warning e])
             (node_flash.dispatchFlash r plan (fetched dr) w4) /\
     count is_cache_warning (events run) = 1%nat /\
     outcome run
     = match strings.slice_to (client.SHA256 dr) 16 with
       | None => None
       | Some _ => Some (flash_outcome plan (fetched dr) w4)
       end) /\
  (forall r plan w cache w1 t1 sha w2 t2 e w3 t3,
     is_url_plan plan = false ->
     client.NewImageCache (node_flash.r_client r) w = (Some (Ok cache), w1, t1) ->
     local_hash plan w1 sha w2 t2 ->
     ValueString (node_flash.Cache plan) <> "none" ->
     client.CacheImage cache (ValueString (node_flash.ImagePath plan)) sha
       (ValueString (node_flash.Cache plan)) w2 = (Some (Err e), w3, t3) ->
     let run := node_flash.executeFlash r plan w in
     let path := ValueString (node_flash.ImagePath plan) in
     run = prepend (t1 ++ t2 ++ t3 ++ [cache_warning e])
             (node_flash.dispatchFlash r plan (plan_file plan sha) w3) /\
     count is_cache_warning (events run) = 1%nat /\
     outcome run
     = match strings.slice_to sha 16 with
       | None => None
       | Some _ => Some (flash_outcome plan (plan_file plan sha) w3)
       end /\
     (ValueString (node_flash.Cache plan) = "bmc" ->
      remote_file (w_bmc w3) path = None ->
      (16 <= String.length sha)%nat ->
      List.filter is_flash (events run)
      = [EvFlashNodeLocal (ValueInt64 (node_flash.Node plan)) path] /\
      outcome run
      = Some (Err (Wrapf "flash operation failed: "
                     match next_fault w3 with
                     | Some m => LibError m
                     | None => RemoteNotFound path
                     end)))).
Proof.
  split.
  - intros r plan w cache w1 t1 looked w2 t2 dr w3 t3 e w4 t4
      Hu EN Hl Hdl Hn Hput run before.
    assert (run = prepend (before ++ [cache_warning e])
                    (node_flash.dispatchFlash r plan (fetched dr) w4)) as Hrun.
    { subst run before. unfold node_flash.executeFlash.
      rewrite (try_ok _ _ _ _ _ _ _ EN).
      rewrite (try_ok _ _ _ _ _ _ _
                 (resolveImage_store_failed_after_download _ _ _ _ _ _ _ _ _ _ _ _
                    Hu Hl Hdl Hn Hput)).
      rewrite prepend_prepend. f_equal. by rewrite <- !app_assoc. }
    split; [exact Hrun|]. rewrite Hrun, events_prepend, outcome_prepend.
    split; [|apply dispatchFlash_outcome].
    subst before. change (download_log plan :: ?t)%list with ([download_log plan] ++ t)%list.
    rewrite !count_app.
    rewrite (never_count _ _ _ _ _ _ (NewImageCache_never_warns _) EN).
    rewrite <- count_app, (lookup_missed_never_warns _ _ _ _ _ _ Hl).
    rewrite (never_count _ _ _ _ _ _ (DownloadImage_never_warns _ _) Hdl).
    rewrite (never_count _ _ _ _ _ _ (CacheImage_never_warns _ _ _ _) Hput).
    by rewrite (dispatchFlash_never_warns r plan (fetched dr) w4).
  - intros r plan w cache w1 t1 sha w2 t2 e w3 t3 Hu EN Hl Hn Hput run path.
    assert (run = prepend (t1 ++ t2 ++ t3 ++ [cache_warning e])
                    (node_flash.dispatchFlash r plan (plan_file plan sha) w3)) as Hrun.
    { subst run. unfold node_flash.executeFlash.
      rewrite (try_ok _ _ _ _ _ _ _ EN).
      rewrite (try_ok _ _ _ _ _ _ _
                 (resolveImage_store_failed_local _ _ _ _ _ _ _ _ _ Hu Hl Hn Hput)).
      by rewrite prepend_prepend. }
    split; [exact Hrun|]. rewrite Hrun, events_prepend, outcome_prepend.
    split; [|split; [apply dispatchFlash_outcome|]].
    + rewrite !count_app.
      rewrite (never_count _ _ _ _ _ _ (NewImageCache_never_warns _) EN).
      rewrite (local_hash_never_warns _ _ _ _ _ Hl).
      rewrite (never_count _ _ _ _ _ _ (CacheImage_never_warns _ _ _ _) Hput).
      by rewrite (dispatchFlash_never_warns r plan (plan_file plan sha) w3).
    + intros Hb Hr Hs. destruct (slice_to_Some _ _ Hs) as [prefix Hp].
      rewrite dispatchFlash_eq. cbn [node_flash.sha256_ plan_file]. rewrite Hp.
      unfold outcome, events. cbn [fst snd].
      unfold flash_outcome, flash_answer, flash_event, cleanup_events, cleans_up.
      cbn [node_flash.imagePath node_flash.tempFile plan_file].
      unfold client.CacheLocationBMC. rewrite Hb. fold path. rewrite Hr.
      split; [|by destruct (next_fault w3)].
      assert (forall t, count is_flash t = 0%nat -> List.filter is_flash t = []) as Hz.
      { intros t Ht. unfold count in Ht. by destruct (List.filter is_flash t). }
      pose proof (never_count _ _ _ _ _ _ (NewImageCache_never_flashes _) EN) as N1.
      pose proof (never_count _ _ _ _ _ _ (resolveImage_never_flashes cache plan)
                    (resolveImage_store_failed_local _ _ _ _ _ _ _ _ _ Hu Hl Hn Hput))
        as N2.
      rewrite <- !app_assoc, List.filter_app, (Hz _ N1).
      rewrite !app_assoc, List.filter_app, <- !app_assoc, (Hz _ N2). reflexivity.
Qed.

End StoreFailure.

Lemma cache_failure_is_absorbed_witness :
  let lost := Wrapf "failed to upload to BMC: " (LibError "sftp: connection lost") in
  let local := Scenario.local_plan Unknown "bmc" in
  let provision := node_flash.executeFlash (L := Scenario.libs)
                     Scenario.flash_resource in
  let w := Scenario.with_faults
             (List.repeat None 5 ++ [Some "sftp: connection lost"]) Scenario.fresh in
  let hash := "5182d1b4913a4282a6c499d27e455f14989c308044c6a760a55f0e3d02e55966" in
  let remote := Scenario.flash_plan Unknown "bmc" in
  let wu := Scenario.with_faults
              (List.repeat None 12 ++ [Some "sftp: connection lost"]) Scenario.fresh in
  (In (cache_warning lost) (events (provision local w)) /\
   count is_cache_warning (events (provision local w)) = 1%nat /\
   List.filter is_flash (events (provision local w))
   = [EvFlashNodeLocal 1 "/images/local.img"] /\
   outcome (provision local w)
   = Some (Err (Wrapf "flash operation failed: "
                  (RemoteNotFound "/images/local.img")))) /\
  (List.filter is_flash (events (provision local Scenario.fresh))
   = [EvFlashNodeLocal 1 ("/tmp/tpi-cache/" ++ hash ++ ".img")] /\
   outcome (provision local Scenario.fresh)
   = Some (Ok {| node_flash.Result_SHA256 := hash |})) /\
  (In (cache_warning lost) (events (provision remote wu)) /\
   count is_cache_warning (events (provision remote wu)) = 1%nat /\
   List.filter is_flash (events (provision remote wu))
   = [EvFlashNodeLocal 1 "/tmp/turingpi-download-7/ubuntu.img"]).
Proof.
  intros lost local provision w hash remote wu.
  split; [|split; [vm_compute; split; reflexivity|]].
  - set (init := client.NewImageCache Scenario.bmc_client w).
    set (hashed := client.CalculateFileSHA256 "/images/local.img" (world_of init)).
    set (put := client.CacheImage Scenario.cache "/images/local.img" hash "bmc"
                  (world_of hashed)).
    assert (init = (Some (Ok Scenario.cache), world_of init, events init)) as Hnew
      by (vm_compute; reflexivity).
    assert (local_hash local (world_of init) hash (world_of hashed) (events hashed))
      as Hhash by (vm_compute; reflexivity).
    assert (put = (Some (Err lost), world_of put, events put)) as Hput
      by (vm_compute; reflexivity).
    destruct (proj2 (cache_failure_is_absorbed (L := Scenario.libs))
                Scenario.flash_resource local w _ _ _ _ _ _ _ _ _
                eq_refl Hnew Hhash ltac:(discriminate) Hput)
      as (_ & Hcount & _ & Hfails).
    destruct (Hfails eq_refl ltac:(vm_compute; reflexivity) ltac:(vm_compute; lia))
      as (Hflash & Hout).
    split; [vm_compute; auto 30|]. split; [exact Hcount|].
    split; [exact Hflash|]. etransitivity; [exact Hout|]. vm_compute. reflexivity.
  - set (init := client.NewImageCache Scenario.bmc_client wu).
    set (dl := client.DownloadImage (L := Scenario.libs) Scenario.image_url
                 (Some {| client.ExpectedSHA256 := ""; client.DestDir := "" |})
                 (world_of init)).
    set (dr := {| client.Path := "/tmp/turingpi-download-7/ubuntu.img";
                  client.SHA256 := Scenario.image_hash |}).
    set (put := client.CacheImage Scenario.cache (client.Path dr) (client.SHA256 dr)
                  "bmc" (world_of dl)).
    assert (init = (Some (Ok Scenario.cache), world_of init, events init)) as Hnew
      by (vm_compute; reflexivity).
    assert (lookup_missed Scenario.cache remote (world_of init) (Ok "")
              (world_of init) []) as Hlook by (vm_compute; repeat split).
    assert (dl = (Some (Ok dr), world_of dl, events dl)) as Hdl
      by (vm_compute; reflexivity).
    assert (put = (Some (Err lost), world_of put, events put)) as Hput
      by (vm_compute; reflexivity).
    destruct (proj1 (cache_failure_is_absorbed (L := Scenario.libs))
                Scenario.flash_resource remote wu _ _ _ _ _ _ _ _ _ _ _ _
                eq_refl Hnew Hlook Hdl ltac:(discriminate) Hput)
      as (_ & Hcount & _).
    split; [vm_compute; auto 40|]. split; [exact Hcount|].
    vm_compute. reflexivity.
Defined.

(* ===================================================================== *)
(** ** The power and USB resources                                       *)
(* ===================================================================== *)

Lemma PowerStatus_eq c w :
  client.PowerStatus c w =
  (Some match next_fault w with
        | Some m => Err (LibError m)
        | None => Ok (w_power w)
        end, after_fault w, [EvPowerStatus]).
Proof.
  unfold client.PowerStatus, TPI.PowerStatus. rewrite external_eq.
  destruct (next_fault w); [done|].
  unfold bind, get_world, ret. simpl. by rewrite after_fault_power.
Qed.

Lemma PowerOn_eq c node w :
  client.PowerOn c node w =
  match next_fault w with
  | Some m => (Some (Err (LibError m)), after_fault w, [EvPowerOn node])
  | None => (Some (Ok tt), set_power (<[node := true]> (w_power w)) (after_fault w),
             [EvPowerOn node])
  end.
Proof.
  unfold client.PowerOn, TPI.PowerOn. rewrite external_eq.
  destruct (next_fault w); [done|].
  unfold bind, modify, ret. simpl. by rewrite after_fault_power.
Qed.

Lemma PowerOff_eq c node w :
  client.PowerOff c node w =
  match next_fault w with
  | Some m => (Some (Err (LibError m)), after_fault w, [EvPowerOff node])
  | None => (Some (Ok tt), set_power (<[node := false]> (w_power w)) (after_fault w),
             [EvPowerOff node])
  end.
Proof.
  unfold client.PowerOff, TPI.PowerOff. rewrite external_eq.
  destruct (next_fault w); [done|].
  unfold bind, modify, ret. simpl. by rewrite after_fault_power.
Qed.

Lemma UsbGetStatus_eq c w :
  client.UsbGetStatus c w =
  (Some match next_fault w with
        | Some m => Err (LibError m)
        | None => Ok (w_usb w)
        end, after_fault w, [EvUsbGetStatus]).
Proof.
  unfold client.UsbGetStatus, TPI.UsbGetStatus. rewrite external_eq.
  destruct (next_fault w); [done|].
  unfold bind, get_world, ret. simpl. by rewrite after_fault_usb.
Qed.

Lemma setUsbMode_eq r node mode bmc w :
  node_usb.setUsbMode r node mode bmc w =
  if valid_usb_mode mode then
    match next_fault w with
    | Some m => (Some (Err (LibError m)), after_fault w, usb_command node mode bmc)
    | None =>
        (Some (Ok tt),
         TPI.usb_set (if String.eqb mode "host" then "Host"
                      else if String.eqb mode "device" then "Device" else "Flash")
                     node bmc (after_fault w),
         usb_command node mode bmc)
    end
  else (Some (Err (Errorf ("unknown USB mode: " ++ mode))), w, []).
Proof.
  unfold node_usb.setUsbMode, valid_usb_mode, usb_command, client.UsbSetHost,
    client.UsbSetDevice, client.UsbSetFlash, TPI.UsbSetHost, TPI.UsbSetDevice,
    TPI.UsbSetFlash.
  destruct (String.eqb mode "host"); simpl.
  { rewrite external_eq. by destruct (next_fault w). }
  destruct (String.eqb mode "device"); simpl.
  { rewrite external_eq. by destruct (next_fault w). }
  destruct (String.eqb mode "flash"); simpl.
  { rewrite external_eq. by destruct (next_fault w). }
  reflexivity.
Qed.

Lemma HasError_AddError ds s d : HasError (AddError ds s d) = true.
Proof.
  unfold HasError, AddError. rewrite existsb_app. simpl. apply orb_true_r.
Qed.

Lemma power_Create_eq r req w :
  HasError (resource.PlanDiags req) = false ->
  node_power.Create r req w
  = power_applied req
      (node_power.with_ID
         ("node-" ++ pretty (ValueInt64 (node_power.Node (resource.Plan req))) ++ "-power")
         (resource.Plan req)) w.
Proof.
  intros HE. unfold node_power.Create, power_applied.
  cbn [resource.Diagnostics]. rewrite HE.
  unfold bind. rewrite PowerStatus_eq.
  destruct (next_fault w) eqn:F1; [reflexivity|].
  unfold power_commands.
  destruct (Bool.eqb _ _); simpl; [reflexivity|].
  destruct (ValueBool _) eqn:Ed.
  - rewrite PowerOn_eq. destruct (next_fault (after_fault w)); simpl; [reflexivity|].
    by rewrite after_fault_power.
  - rewrite PowerOff_eq. destruct (next_fault (after_fault w)); simpl; [reflexivity|].
    by rewrite after_fault_power.
Qed.

Lemma power_Update_eq r req w :
  HasError (resource.PlanDiags req) = false ->
  node_power.Update r req w = power_applied req (resource.Plan req) w.
Proof.
  intros HE. unfold node_power.Update, power_applied.
  cbn [resource.Diagnostics]. rewrite HE.
  unfold bind. rewrite PowerStatus_eq.
  destruct (next_fault w) eqn:F1; [reflexivity|].
  unfold power_commands.
  destruct (Bool.eqb _ _); simpl; [reflexivity|].
  destruct (ValueBool _) eqn:Ed.
  - rewrite PowerOn_eq. destruct (next_fault (after_fault w)); simpl; [reflexivity|].
    by rewrite after_fault_power.
  - rewrite PowerOff_eq. destruct (next_fault (after_fault w)); simpl; [reflexivity|].
    by rewrite after_fault_power.
Qed.

Lemma power_Read_eq r req w :
  HasError (resource.PlanDiags req) = false ->
  node_power.Read r req w =
  (Some match next_fault w with
        | Some m =>
            {| resource.Diagnostics :=
                 AddError (resource.PlanDiags req) "Error Reading Power Status"
                   ("Could not read power status: " ++ m);
               resource.State := None |}
        | None =>
            {| resource.Diagnostics := resource.PlanDiags req;
               resource.State :=
                 Some (node_power.with_PowerOn
                         (default false
                            (w_power w !! ValueInt64 (node_power.Node (resource.Plan req))))
                         (resource.Plan req)) |}
        end, after_fault w, [EvPowerStatus]).
Proof.
  intros HE. unfold node_power.Read. cbn [resource.Diagnostics]. rewrite HE.
  unfold bind. rewrite PowerStatus_eq. by destruct (next_fault w).
Qed.

(** X16. node_power: after a Create or an Update that reports no
    error for a plan with a known power_on, the state is saved, the node
    is in the planned power state, and a Read of the saved state (when the
    status call does not fail) returns that same state without
    diagnostics, after one status call. *)
Theorem power_apply_then_Read r req w run resp w1 t1 b :
  run = node_power.Create r req w \/ run = node_power.Update r req w ->
  run = (Some resp, w1, t1) ->
  HasError (resource.Diagnostics resp) = false ->
  node_power.PowerOn (resource.Plan req) = Known b ->
  next_fault w1 = None ->
  exists st,
    resource.State resp = Some st /\
    default false (w_power w1 !! ValueInt64 (node_power.Node st)) = b /\
    node_power.Read r {| resource.Plan := st; resource.PlanDiags := [] |} w1
    = (Some {| resource.Diagnostics := []; resource.State := Some st |},
       after_fault w1, [EvPowerStatus]).
Proof.
  intros Hrun Hres Hok Hb Hf.
  assert (HasError (resource.PlanDiags req) = false) as HE.
  { destruct (HasError (resource.PlanDiags req)) eqn:E; [|done].
    destruct Hrun as [-> | ->]; revert Hres;
      unfold node_power.Create, node_power.Update; cbn [resource.Diagnostics];
      rewrite E; unfold ret; intros [= <- <- <-]; simpl in Hok; congruence. }
  assert (exists st,
            run = power_applied req st w /\
            node_power.PowerOn st = Known b /\
            node_power.Node st = node_power.Node (resource.Plan req))
    as (st & Happ & Hst & Hnode).
  { destruct Hrun as [-> | ->].
    - eexists. split; [by apply power_Create_eq|]. by split.
    - eexists. split; [by apply power_Update_eq|]. by split. }
  rewrite Happ in Hres. clear Happ Hrun. unfold power_applied in Hres.
  exists st.
  assert (ValueBool (node_power.PowerOn (resource.Plan req)) = b) as Hd by (by rewrite Hb).
  rewrite Hd in Hres.
  assert (forall v, default false (w_power w1 !! ValueInt64 (node_power.Node st)) = v ->
            node_power.Read r {| resource.Plan := st; resource.PlanDiags := [] |} w1
            = (Some {| resource.Diagnostics := []; resource.State := Some st |},
               after_fault w1, [EvPowerStatus]) \/ v <> b) as HR.
  { intros v Hv. destruct (decide (v = b)) as [->|]; [left | by right].
    rewrite power_Read_eq by done. rewrite Hf. simpl. rewrite Hv.
    destruct st as [i n p]. simpl in *. by subst p. }
  rewrite Hnode in *.
  destruct (next_fault w) eqn:F1.
  { injection Hres as <- <- <-. simpl in Hok. by rewrite HasError_AddError in Hok. }
  destruct (Bool.eqb _ b) eqn:Ec.
  - injection Hres as <- <- <-. simpl. apply Bool.eqb_prop in Ec.
    rewrite after_fault_power in *. split; [done|]. split; [done|].
    by destruct (HR _ Ec).
  - destruct (next_fault (after_fault w)) eqn:F2.
    { injection Hres as <- <- <-. simpl in Hok. by rewrite HasError_AddError in Hok. }
    injection Hres as <- <- <-. simpl in *. rewrite lookup_insert_eq in *. simpl in *.
    split; [done|]. split; [done|]. by destruct (HR b eq_refl).
Qed.

Lemma power_apply_then_Read_witness :
  let r := {| node_power.r_client := Scenario.bmc_client |} in
  let run := node_power.Create r (Scenario.power_request true) Scenario.fresh in
  exists st,
    resource.State (default {| resource.Diagnostics := []; resource.State := None |}
                      (outcome run)) = Some st /\
    node_power.PowerOn st = Known true /\
    outcome (node_power.Read r {| resource.Plan := st; resource.PlanDiags := [] |}
               (world_of run))
    = Some {| resource.Diagnostics := []; resource.State := Some st |}.
Proof.
  intros r run.
  set (st := {| node_power.ID := Known "node-1-power"; node_power.Node := Known 1;
                node_power.PowerOn := Known true |}).
  assert (run = (Some {| resource.Diagnostics := []; resource.State := Some st |},
                 world_of run, events run)) as Hrun by (vm_compute; reflexivity).
  destruct (power_apply_then_Read r (Scenario.power_request true) Scenario.fresh run
              _ _ _ true (or_introl eq_refl) Hrun eq_refl eq_refl
              ltac:(vm_compute; reflexivity))
    as (st' & Hs & _ & HR).
  injection Hs as <-. exists st. split; [by rewrite Hrun|]. split; [reflexivity|].
  by rewrite HR.
Defined.

Lemma usb_Create_eq r req w :
  HasError (resource.PlanDiags req) = false ->
  node_usb.Create r req w
  = usb_applied req
      (node_usb.with_ID
         ("node-" ++ pretty (ValueInt64 (node_usb.Node (resource.Plan req))) ++ "-usb")
         (resource.Plan req)) w.
Proof.
  intros HE. unfold node_usb.Create, usb_applied.
  cbn [resource.Diagnostics]. rewrite HE.
  unfold bind. rewrite setUsbMode_eq.
  destruct (valid_usb_mode _); [|reflexivity].
  destruct (next_fault w); simpl; by rewrite app_nil_r.
Qed.

Lemma usb_Update_eq r req w :
  HasError (resource.PlanDiags req) = false ->
  node_usb.Update r req w = usb_applied req (resource.Plan req) w.
Proof.
  intros HE. unfold node_usb.Update, usb_applied.
  cbn [resource.Diagnostics]. rewrite HE.
  unfold bind. rewrite setUsbMode_eq.
  destruct (valid_usb_mode _); [|reflexivity].
  destruct (next_fault w); simpl; by rewrite app_nil_r.
Qed.

Lemma usb_Read_eq r req w :
  HasError (resource.PlanDiags req) = false ->
  node_usb.Read r req w =
  (Some match next_fault w with
        | Some m =>
            {| resource.Diagnostics :=
                 AddError (resource.PlanDiags req) "Error Reading USB Status"
                   ("Could not read USB status: " ++ m);
               resource.State := None |}
        | None =>
            {| resource.Diagnostics := resource.PlanDiags req;
               resource.State :=
                 Some (node_usb.with_status
                         (node_usb.mapModeToLower (tpi.Mode (w_usb w)))
                         (String.eqb (tpi.Route (w_usb w)) "BMC")
                         (resource.Plan req)) |}
        end, after_fault w, [EvUsbGetStatus]).
Proof.
  intros HE. unfold node_usb.Read. cbn [resource.Diagnostics]. rewrite HE.
  unfold bind. rewrite UsbGetStatus_eq. by destruct (next_fault w).
Qed.

(** X17. node_usb: a Create or an Update that reports no error for a
    plan with a known mode and routing had one of the modes "host",
    "device", "flash"; the state is saved, and a Read of the saved state
    (when the status call does not fail) returns that same state: the
    capitalised mode and the route the switch reports map back to the
    planned values. *)
Theorem usb_apply_then_Read r req w run resp w1 t1 mode bmc :
  run = node_usb.Create r req w \/ run = node_usb.Update r req w ->
  run = (Some resp, w1, t1) ->
  HasError (resource.Diagnostics resp) = false ->
  node_usb.Mode (resource.Plan req) = Known mode ->
  node_usb.BMC (resource.Plan req) = Known bmc ->
  next_fault w1 = None ->
  valid_usb_mode mode = true /\
  exists st,
    resource.State resp = Some st /\
    node_usb.Read r {| resource.Plan := st; resource.PlanDiags := [] |} w1
    = (Some {| resource.Diagnostics := []; resource.State := Some st |},
       after_fault w1, [EvUsbGetStatus]).
Proof.
  intros Hrun Hres Hok Hm Hb Hf.
  assert (HasError (resource.PlanDiags req) = false) as HE.
  { destruct (HasError (resource.PlanDiags req)) eqn:E; [|done].
    destruct Hrun as [-> | ->]; revert Hres;
      unfold node_usb.Create, node_usb.Update; cbn [resource.Diagnostics];
      rewrite E; unfold ret; intros [= <- <- <-]; simpl in Hok; congruence. }
  assert (exists st,
            run = usb_applied req st w /\
            node_usb.Mode st = Known mode /\ node_usb.BMC st = Known bmc)
    as (st & Happ & Hsm & Hsb).
  { destruct Hrun as [-> | ->].
    - eexists. split; [by apply usb_Create_eq|]. by split.
    - eexists. split; [by apply usb_Update_eq|]. by split. }
  rewrite Happ in Hres. clear Happ Hrun. unfold usb_applied in Hres.
  rewrite Hm, Hb in Hres. cbn [ValueString ValueBool] in Hres.
  destruct (valid_usb_mode mode) eqn:Ev.
  2: { injection Hres as <- <- <-. simpl in Hok. by rewrite HasError_AddError in Hok. }
  split; [done|].
  destruct (next_fault w).
  { injection Hres as <- <- <-. simpl in Hok. by rewrite HasError_AddError in Hok. }
  injection Hres as <- <- <-. exists st. split; [done|].
  rewrite usb_Read_eq by done. rewrite Hf. simpl.
  do 3 f_equal. f_equal.
  assert (node_usb.mapModeToLower
            (if String.eqb mode "host" then "Host"
             else if String.eqb mode "device" then "Device" else "Flash") = mode) as ->.
  { revert Ev. unfold valid_usb_mode.
    destruct (String.eqb_spec mode "host") as [->|]; [done|].
    destruct (String.eqb_spec mode "device") as [->|]; [done|].
    destruct (String.eqb_spec mode "flash") as [->|]; [done|]. discriminate. }
  assert (String.eqb (if bmc then "BMC" else "USB-A") "BMC" = bmc) as ->
      by (by destruct bmc).
  destruct st as [i n m' b']. simpl in *. by subst.
Qed.

Lemma usb_apply_then_Read_witness :
  let r := {| node_usb.r_client := Scenario.bmc_client |} in
  let run := node_usb.Create r (Scenario.usb_request "device" true) Scenario.fresh in
  exists st,
    resource.State (default {| resource.Diagnostics := []; resource.State := None |}
                      (outcome run)) = Some st /\
    node_usb.Mode st = Known "device" /\
    outcome (node_usb.Read r {| resource.Plan := st; resource.PlanDiags := [] |}
               (world_of run))
    = Some {| resource.Diagnostics := []; resource.State := Some st |}.
Proof.
  intros r run.
  set (st := {| node_usb.ID := Known "node-1-usb"; node_usb.Node := Known 1;
                node_usb.Mode := Known "device"; node_usb.BMC := Known true |}).
  assert (run = (Some {| resource.Diagnostics := []; resource.State := Some st |},
                 world_of run, events run)) as Hrun by (vm_compute; reflexivity).
  destruct (usb_apply_then_Read r (Scenario.usb_request "device" true) Scenario.fresh run
              _ _ _ "device" true (or_introl eq_refl) Hrun eq_refl eq_refl eq_refl
              ltac:(vm_compute; reflexivity))
    as (_ & st' & Hs & HR).
  injection Hs as <-. exists st. split; [by rewrite Hrun|]. split; [reflexivity|].
  by rewrite HR.
Defined.

(** X18. Create, Read and Update of node_power and of node_usb always
    return, and they save a state exactly when they report no error: an
    error diagnostic and a saved state never come together. *)
Theorem state_saved_iff_no_error :
  (forall r req w run,
     run = node_power.Create r req w \/ run = node_power.Read r req w \/
     run = node_power.Update r req w ->
     exists resp, outcome run = Some resp /\
       (resource.State resp = None <-> HasError (resource.Diagnostics resp) = true)) /\
  (forall r req w run,
     run = node_usb.Create r req w \/ run = node_usb.Read r req w \/
     run = node_usb.Update r req w ->
     exists resp, outcome run = Some resp /\
       (resource.State resp = None <-> HasError (resource.Diagnostics resp) = true)).
Proof.
  split.
  - intros r req w run Hrun.
    destruct (HasError (resource.PlanDiags req)) eqn:HE.
    { destruct Hrun as [-> | [-> | ->]];
        unfold node_power.Create, node_power.Read, node_power.Update;
        cbn [resource.Diagnostics]; rewrite HE; eexists; (split; [reflexivity|]);
        simpl; by rewrite HE. }
    destruct Hrun as [-> | [-> | ->]].
    + rewrite power_Create_eq by done. unfold power_applied.
      destruct (next_fault w); [|destruct (Bool.eqb _ _);
        [|destruct (next_fault (after_fault w))]];
        eexists; (split; [reflexivity|]); simpl;
        rewrite ?HasError_AddError, ?HE; by split.
    + rewrite power_Read_eq by done.
      destruct (next_fault w); eexists; (split; [reflexivity|]); simpl;
        rewrite ?HasError_AddError, ?HE; by split.
    + rewrite power_Update_eq by done. unfold power_applied.
      destruct (next_fault w); [|destruct (Bool.eqb _ _);
        [|destruct (next_fault (after_fault w))]];
        eexists; (split; [reflexivity|]); simpl;
        rewrite ?HasError_AddError, ?HE; by split.
  - intros r req w run Hrun.
    destruct (HasError (resource.PlanDiags req)) eqn:HE.
    { destruct Hrun as [-> | [-> | ->]];
        unfold node_usb.Create, node_usb.Read, node_usb.Update;
        cbn [resource.Diagnostics]; rewrite HE; eexists; (split; [reflexivity|]);
        simpl; by rewrite HE. }
    destruct Hrun as [-> | [-> | ->]].
    + rewrite usb_Create_eq by done. unfold usb_applied.
      destruct (valid_usb_mode _); [destruct (next_fault w)|];
        eexists; (split; [reflexivity|]); simpl;
        rewrite ?HasError_AddError, ?HE; by split.
    + rewrite usb_Read_eq by done.
      destruct (next_fault w); eexists; (split; [reflexivity|]); simpl;
        rewrite ?HasError_AddError, ?HE; by split.
    + rewrite usb_Update_eq by done. unfold usb_applied.
      destruct (valid_usb_mode _); [destruct (next_fault w)|];
        eexists; (split; [reflexivity|]); simpl;
        rewrite ?HasError_AddError, ?HE; by split.
Qed.

(* ===================================================================== *)
(** ** The data sources; flash Create and Update                         *)
(* ===================================================================== *)

Lemma power_status_Read_eq d req w :
  HasError (resource.PlanDiags req) = false ->
  power_status.Read d req w =
  (Some match next_fault w with
        | Some m =>
            {| resource.Diagnostics :=
                 AddError (resource.PlanDiags req) "Unable to Read Power Status"
                   ("Could not read power status: " ++ m);
               resource.State := None |}
        | None =>
            {| resource.Diagnostics := resource.PlanDiags req;
               resource.State :=
                 Some {| power_status.ID := Known "power-status";
                         power_status.Node1 := Known (default false (w_power w !! 1));
                         power_status.Node2 := Known (default false (w_power w !! 2));
                         power_status.Node3 := Known (default false (w_power w !! 3));
                         power_status.Node4 := Known (default false (w_power w !! 4)) |} |}
        end, after_fault w, [EvPowerStatus]).
Proof.
  intros HE. unfold power_status.Read. cbn [resource.Diagnostics]. rewrite HE.
  unfold bind. rewrite PowerStatus_eq. by destruct (next_fault w).
Qed.

Lemma usb_status_Read_eq d req w :
  HasError (resource.PlanDiags req) = false ->
  usb_status.Read d req w =
  (Some match next_fault w with
        | Some m =>
            {| resource.Diagnostics :=
                 AddError (resource.PlanDiags req) "Unable to Read USB Status"
                   ("Could not read USB status: " ++ m);
               resource.State := None |}
        | None =>
            {| resource.Diagnostics := resource.PlanDiags req;
               resource.State :=
                 Some {| usb_status.ID := Known "usb-status";
                         usb_status.Node := Known (tpi.Node (w_usb w));
                         usb_status.Mode := Known (tpi.Mode (w_usb w));
                         usb_status.Route := Known (tpi.Route (w_usb w)) |} |}
        end, after_fault w, [EvUsbGetStatus]).
Proof.
  intros HE. unfold usb_status.Read. cbn [resource.Diagnostics]. rewrite HE.
  unfold bind. rewrite UsbGetStatus_eq. by destruct (next_fault w).
Qed.

(** X19. The power_status data source, when it delivers data: the
    Read of the node_power resource in the same world delivers a state
    too, after the same single status call, and the attribute of the data
    source for the resource's node (1 to 4) is the resource's power_on;
    each of node1..node4 is the BMC's entry for that node, false for a
    node the BMC does not list; the power state is not changed. *)
Theorem power_status_agrees_with_resource d dreq r req w resp w1 t1 data :
  HasError (resource.PlanDiags dreq) = false ->
  HasError (resource.PlanDiags req) = false ->
  1 <= ValueInt64 (node_power.Node (resource.Plan req)) <= 4 ->
  power_status.Read d dreq w = (Some resp, w1, t1) ->
  resource.State resp = Some data ->
  (exists st,
     node_power.Read r req w
     = (Some {| resource.Diagnostics := resource.PlanDiags req;
                resource.State := Some st |}, w1, t1) /\
     node_attribute (ValueInt64 (node_power.Node (resource.Plan req))) data
     = node_power.PowerOn st) /\
  (forall k, 1 <= k <= 4 ->
     node_attribute k data = Known (default false (w_power w !! k))) /\
  w_power w1 = w_power w /\
  t1 = [EvPowerStatus].
Proof.
  intros HD HE Hn. rewrite power_status_Read_eq, power_Read_eq by done.
  destruct (next_fault w); simpl; intros [= <- <- <-]; [discriminate|].
  simpl. intros [= <-].
  assert (forall k, 1 <= k <= 4 ->
            node_attribute k
              {| power_status.ID := Known "power-status";
                 power_status.Node1 := Known (default false (w_power w !! 1));
                 power_status.Node2 := Known (default false (w_power w !! 2));
                 power_status.Node3 := Known (default false (w_power w !! 3));
                 power_status.Node4 := Known (default false (w_power w !! 4)) |}
            = Known (default false (w_power w !! k))) as Hk.
  { intros k Hk. unfold node_attribute.
    assert (k = 1 \/ k = 2 \/ k = 3 \/ k = 4) as [-> | [-> | [-> | ->]]] by lia;
      reflexivity. }
  split; [eexists; split; [reflexivity | by rewrite Hk]|].
  split; [exact Hk|]. by rewrite after_fault_power.
Qed.

Lemma power_status_agrees_with_resource_witness :
  let d := {| power_status.d_client := Scenario.bmc_client |} in
  let dreq := {| resource.Plan :=
                   {| power_status.ID := Null; power_status.Node1 := Null;
                      power_status.Node2 := Null; power_status.Node3 := Null;
                      power_status.Node4 := Null |};
                 resource.PlanDiags := [] |} in
  let w := set_power {[ 1 := false; 3 := true ]} Scenario.fresh in
  exists data,
    resource.State (default {| resource.Diagnostics := []; resource.State := None |}
                      (outcome (power_status.Read d dreq w))) = Some data /\
    node_attribute 3 data = Known true /\
    node_attribute 4 data = Known false.
Proof.
  intros d dreq w.
  set (data := {| power_status.ID := Known "power-status";
                  power_status.Node1 := Known false; power_status.Node2 := Known false;
                  power_status.Node3 := Known true; power_status.Node4 := Known false |}).
  set (run := power_status.Read d dreq w).
  assert (run = (Some {| resource.Diagnostics := []; resource.State := Some data |},
                 world_of run, events run)) as Hrun by (vm_compute; reflexivity).
  destruct (power_status_agrees_with_resource d dreq
              {| node_power.r_client := Scenario.bmc_client |}
              (Scenario.power_request true) w _ _ _ data eq_refl eq_refl
              ltac:(vm_compute; split; discriminate) Hrun eq_refl)
    as (_ & Hk & _).
  exists data. split; [by rewrite Hrun|].
  split; [rewrite (Hk 3) by lia | rewrite (Hk 4) by lia]; vm_compute; reflexivity.
Defined.

(** X20. The usb_status data source, when it delivers data, passes on
    node, mode and route as the BMC reports them, and the Read of the
    node_usb resource in the same world delivers a state whose mode is
    the data source's mode in lower case (mapModeToLower) and whose bmc is
    whether the data source's route is "BMC"; the USB state is not
    changed. *)
Theorem usb_status_agrees_with_resource d dreq r req w resp w1 t1 data :
  HasError (resource.PlanDiags dreq) = false ->
  HasError (resource.PlanDiags req) = false ->
  usb_status.Read d dreq w = (Some resp, w1, t1) ->
  resource.State resp = Some data ->
  (exists st,
     node_usb.Read r req w
     = (Some {| resource.Diagnostics := resource.PlanDiags req;
                resource.State := Some st |}, w1, t1) /\
     node_usb.Mode st
     = Known (node_usb.mapModeToLower (ValueString (usb_status.Mode data))) /\
     node_usb.BMC st
     = Known (String.eqb (ValueString (usb_status.Route data)) "BMC")) /\
  usb_status.Mode data = Known (tpi.Mode (w_usb w)) /\
  usb_status.Route data = Known (tpi.Route (w_usb w)) /\
  usb_status.Node data = Known (tpi.Node (w_usb w)) /\
  w_usb w1 = w_usb w /\
  t1 = [EvUsbGetStatus].
Proof.
  intros HD HE. rewrite usb_status_Read_eq, usb_Read_eq by done.
  destruct (next_fault w); simpl; intros [= <- <- <-]; [discriminate|].
  simpl. intros [= <-]. simpl.
  split; [eexists; split; [reflexivity | by split]|].
  by rewrite after_fault_usb.
Qed.

Lemma usb_status_agrees_with_resource_witness :
  let d := {| usb_status.d_client := Scenario.bmc_client |} in
  let dreq := {| resource.Plan :=
                   {| usb_status.ID := Null; usb_status.Node := Null;
                      usb_status.Mode := Null; usb_status.Route := Null |};
                 resource.PlanDiags := [] |} in
  let r := {| node_usb.r_client := Scenario.bmc_client |} in
  exists data st,
    resource.State (default {| resource.Diagnostics := []; resource.State := None |}
                      (outcome (usb_status.Read d dreq Scenario.fresh))) = Some data /\
    usb_status.Mode data = Known "Host" /\
    outcome (node_usb.Read r (Scenario.usb_request "device" true) Scenario.fresh)
    = Some {| resource.Diagnostics := []; resource.State := Some st |} /\
    node_usb.Mode st = Known "host" /\ node_usb.BMC st = Known false.
Proof.
  intros d dreq r.
  set (data := {| usb_status.ID := Known "usb-status";
                  usb_status.Node := Known "Node 1"; usb_status.Mode := Known "Host";
                  usb_status.Route := Known "USB-A" |}).
  set (run := usb_status.Read d dreq Scenario.fresh).
  assert (run = (Some {| resource.Diagnostics := []; resource.State := Some data |},
                 world_of run, events run)) as Hrun by (vm_compute; reflexivity).
  destruct (usb_status_agrees_with_resource d dreq r (Scenario.usb_request "device" true)
              Scenario.fresh _ _ _ data eq_refl eq_refl Hrun eq_refl)
    as ((st & HR & Hm & Hb) & _).
  exists data, st. split; [by rewrite Hrun|]. split; [reflexivity|].
  split; [by rewrite HR|]. split; [exact Hm | exact Hb].
Defined.

Lemma HasError_app a b : HasError (a ++ b) = HasError a || HasError b.
Proof. unfold HasError. apply existsb_app. Qed.

Lemma HasError_Append {T} (resp : resource.Response T) diags :
  HasError (resource.Diagnostics (resource.Diagnostics_Append resp diags))
  = HasError (resource.Diagnostics resp) || HasError diags.
Proof.
  unfold resource.Diagnostics_Append. cbn [resource.Diagnostics].
  generalize (resource.Diagnostics resp). clear resp.
  induction diags as [|d ds IH]; intros acc; simpl.
  - by rewrite orb_false_r.
  - rewrite IH. destruct (existsb (resource.Diagnostic_eqb d) acc) eqn:E.
    + apply existsb_exists in E as (x & Hin & Heq).
      destruct (severity d) eqn:Sd; [|by rewrite orb_false_l].
      assert (HasError acc = true) as ->; [|done].
      unfold HasError. apply existsb_exists. exists x. split; [done|].
      unfold resource.Diagnostic_eqb in Heq. rewrite Sd in Heq.
      by destruct (severity x).
    + rewrite HasError_app. simpl. rewrite orb_false_r.
      unfold HasError at 3. simpl. by rewrite orb_assoc.
Qed.

Section FlashResource.
Context {L : Libs}.

Lemma executeFlash_ok_length r plan w result w1 t1 :
  node_flash.executeFlash r plan w = (Some (Ok result), w1, t1) ->
  (16 <= String.length (node_flash.Result_SHA256 result))%nat.
Proof.
  intros EF. destruct (executeFlash_cases r plan w) as [H | H]; rewrite EF in H.
  - destruct H as (t & _ & _ & _ & [Ho | [e Ho]] & _); discriminate Ho.
  - destruct H as (cache & wa & ta & img & wb & tb & prefix & _ & _ & Es & Hrun).
    apply slice_to_length in Es.
    injection Hrun as Hrun _ _. symmetry in Hrun.
    apply flash_outcome_ok in Hrun. by rewrite Hrun.
Qed.

(** Create and Update announce themselves differently. *)
Lemma flash_Create_ne_Update r req amb w :
  HasError (resource.PlanDiags req) = false ->
  HasError (node_flash.TimeoutDiags amb) = false ->
  node_flash.Create r req amb w <> node_flash.Update r req amb w.
Proof.
  intros HE HT E. apply (f_equal events) in E. revert E.
  unfold node_flash.Create, node_flash.Update. cbn [resource.Diagnostics].
  rewrite HE, HasError_Append. cbn [resource.Diagnostics]. rewrite HE, HT.
  cbn [orb]. rewrite !log_info_bind, !events_prepend. discriminate.
Qed.

(** X15. node_flash Create and Update, for a request without decoding
    errors: they leave the world as executeFlash does and panic only if it
    does (the slices [result.SHA256[:8]] and [[:16]] of Create cannot
    fail after a successful flash). A state is saved in both cases: after
    a failed flash with flash_status "failed" beside the error, id, sha256
    and last_flashed as planned; after a successful one without error,
    with flash_status "success", the hash of the result, the time of the
    call, and either the planned id (Update) or
    "node-<n>-flash-<first eight characters of the hash>" (Create). *)
Theorem flash_apply_records_attempt r req amb w :
  HasError (resource.PlanDiags req) = false ->
  HasError (node_flash.TimeoutDiags amb) = false ->
  let plan := resource.Plan req in
  let flash := node_flash.executeFlash r plan w in
  forall run,
    run = node_flash.Create r req amb w \/ run = node_flash.Update r req amb w ->
    world_of run = world_of flash /\
    match outcome flash with
    | None => outcome run = None
    | Some (Err e) =>
        exists resp st,
          outcome run = Some resp /\ resource.State resp = Some st /\
          HasError (resource.Diagnostics resp) = true /\
          node_flash.FlashStatus st = Known "failed" /\
          node_flash.ID st = node_flash.ID plan /\
          node_flash.SHA256 st = node_flash.SHA256 plan /\
          node_flash.LastFlashed st = node_flash.LastFlashed plan
    | Some (Ok result) =>
        exists resp st,
          outcome run = Some resp /\ resource.State resp = Some st /\
          HasError (resource.Diagnostics resp) = false /\
          node_flash.FlashStatus st = Known "success" /\
          node_flash.SHA256 st = Known (node_flash.Result_SHA256 result) /\
          node_flash.LastFlashed st = Known (node_flash.Now amb) /\
          (run = node_flash.Update r req amb w ->
           node_flash.ID st = node_flash.ID plan) /\
          (run = node_flash.Create r req amb w ->
           exists short,
             strings.slice_to (node_flash.Result_SHA256 result) 8 = Some short /\
             node_flash.ID st
             = Known ("node-" ++ pretty (ValueInt64 (node_flash.Node plan)) ++
                      "-flash-" ++ short))
    end.
Proof.
  intros HE HT plan flash run Hrun.
  pose proof (flash_Create_ne_Update r req amb w HE HT) as Hne.
  assert (forall resp : resource.Response node_flash.NodeFlashResourceModel,
            HasError (resource.Diagnostics resp) = false ->
            HasError (resource.Diagnostics
                        (resource.Diagnostics_Append resp (node_flash.TimeoutDiags amb)))
            = false) as HA.
  { intros resp Hr. by rewrite HasError_Append, Hr, HT. }
  pose proof (HA (resource.Build_Response _ (resource.PlanDiags req) None) HE) as HA0.
  subst flash.
  destruct (node_flash.executeFlash r plan w) as [[[[result|e]|] w1] t1] eqn:EF;
    unfold outcome at 1; unfold world_of at 2; simpl.
  - pose proof (executeFlash_ok_length _ _ _ _ _ _ EF) as Hlen.
    destruct (slice_to_Some (node_flash.Result_SHA256 result) 16 Hlen) as [prefix Hp16].
    destruct (slice_to_Some (node_flash.Result_SHA256 result) 8 ltac:(lia)) as [short Hp8].
    destruct Hrun as [-> | ->].
    + destruct (node_flash.Create r req amb w) as [[o wr] tr] eqn:HC.
      pose proof HC as HC'. revert HC'.
      unfold node_flash.Create. cbn [resource.Diagnostics]. rewrite HE.
      rewrite HA by done.
      rewrite log_info_bind. fold plan. rewrite (bind_eq _ _ _ _ _ _ EF).
      rewrite Hp8, Hp16. rewrite log_info_bind.
      unfold ret, prepend. intros [= <- <- <-].
      unfold world_of, outcome. simpl. split; [done|].
      eexists _, _. split; [reflexivity|]. split; [reflexivity|]. simpl.
      split; [exact HA0|].
      do 3 (split; [done|]). split; [intros E; destruct (Hne E)|].
      intros _. by exists short.
    + destruct (node_flash.Update r req amb w) as [[o wr] tr] eqn:HC.
      pose proof HC as HC'. revert HC'.
      unfold node_flash.Update. cbn [resource.Diagnostics]. rewrite HE.
      rewrite HA by done.
      rewrite log_info_bind. fold plan. rewrite (bind_eq _ _ _ _ _ _ EF).
      unfold ret, prepend. intros [= <- <- <-].
      unfold world_of, outcome. simpl. split; [done|].
      eexists _, _. split; [reflexivity|]. split; [reflexivity|]. simpl.
      split; [exact HA0|].
      do 3 (split; [done|]). split; [done|].
      intros E. destruct (Hne (eq_sym E)).
  - destruct Hrun as [-> | ->].
    + unfold node_flash.Create. cbn [resource.Diagnostics]. rewrite HE.
      rewrite HA by done.
      rewrite log_info_bind. fold plan. rewrite (bind_eq _ _ _ _ _ _ EF).
      unfold ret, prepend, world_of, outcome. simpl. split; [done|].
      eexists _, _. split; [reflexivity|]. split; [reflexivity|]. simpl.
      split; [apply HasError_AddError|]. by repeat split.
    + unfold node_flash.Update. cbn [resource.Diagnostics]. rewrite HE.
      rewrite HA by done.
      rewrite log_info_bind. fold plan. rewrite (bind_eq _ _ _ _ _ _ EF).
      unfold ret, prepend, world_of, outcome. simpl. split; [done|].
      eexists _, _. split; [reflexivity|]. split; [reflexivity|]. simpl.
      split; [apply HasError_AddError|]. by repeat split.
  - destruct Hrun as [-> | ->].
    + unfold node_flash.Create. cbn [resource.Diagnostics]. rewrite HE.
      rewrite HA by done.
      rewrite log_info_bind. fold plan. rewrite (bind_panic _ _ _ _ _ EF).
      by unfold prepend, world_of, outcome.
    + unfold node_flash.Update. cbn [resource.Diagnostics]. rewrite HE.
      rewrite HA by done.
      rewrite log_info_bind. fold plan. rewrite (bind_panic _ _ _ _ _ EF).
      by unfold prepend, world_of, outcome.
Qed.

End FlashResource.

Lemma flash_apply_records_attempt_witness :
  let req := {| resource.Plan := Scenario.flash_plan Unknown "none";
                resource.PlanDiags := [] |} in
  let amb := {| node_flash.TimeoutDiags := [];
                node_flash.Now := "2026-01-01T00:00:00Z" |} in
  let run := node_flash.Create (L := Scenario.libs) Scenario.flash_resource req amb
               Scenario.fresh in
  exists resp st,
    outcome run = Some resp /\ resource.State resp = Some st /\
    node_flash.FlashStatus st = Known "success" /\
    node_flash.SHA256 st = Known Scenario.image_hash /\
    node_flash.ID st = Known "node-1-flash-2c8648d1".
Proof.
  intros req amb run.
  destruct (flash_apply_records_attempt (L := Scenario.libs) Scenario.flash_resource
              req amb Scenario.fresh eq_refl eq_refl run (or_introl eq_refl))
    as (_ & H).
  assert (outcome (node_flash.executeFlash (L := Scenario.libs) Scenario.flash_resource
                     (resource.Plan req) Scenario.fresh)
          = Some (Ok {| node_flash.Result_SHA256 := Scenario.image_hash |})) as Hf
      by (vm_compute; reflexivity).
  rewrite Hf in H.
  destruct H as (resp & st & Ho & Hs & _ & Hst & Hsha & _ & Hid).
  destruct Hid as [_ Hid].
  exists resp, st. split; [exact Ho|]. split; [exact Hs|]. split; [exact Hst|].
  split; [exact Hsha|].
  destruct (Hid eq_refl) as (short & Hshort & ->).
  vm_compute in Hshort. injection Hshort as <-. reflexivity.
Defined.

(* ===================================================================== *)
(** ** The cache: lookup, failure, cleaning                              *)
(* ===================================================================== *)

(** X5. When its one external call does not fail, GetCachedImagePath
    with "local" or "bmc" returns the path of the entry if the backend
    holds an entry for the hash, and the empty string if it does not; the
    lookup copies, uploads and writes nothing. *)
Theorem GetCachedImagePath_finds c hash location w :
  location = "local" \/ location = "bmc" ->
  next_fault w = None ->
  exists t,
    client.GetCachedImagePath c hash location w
    = (Some (Ok (match cache_entry c hash location w with
                 | Some _ => cache_path c hash location
                 | None => ""
                 end)), after_fault w, t) /\
    count is_transfer t = 0%nat /\ count is_file_write t = 0%nat.
Proof.
  intros [-> | ->] Hf.
  - unfold client.GetCachedImagePath, client.getLocalCachePath, bind. simpl.
    rewrite Stat_eq, Hf. unfold cache_entry, cache_path. simpl.
    destruct (w_fs w !! _); simpl; eexists; (split; [reflexivity | split; [reflexivity..]]).
  - unfold client.GetCachedImagePath. simpl. rewrite getBMCCachePath_eq, Hf.
    unfold cache_entry, cache_path. simpl.
    exists [EvListDirectory client.bmcCacheDir]. split; [|split; reflexivity].
    do 3 f_equal.
    destruct (w_bmc w !! client.bmcCacheDir) as [d|]; simpl; [|done].
    pose proof (listed_iff d (hash ++ ".img")) as Hl.
    destruct (existsb _ _).
    + destruct (proj1 Hl eq_refl) as [x ->]. reflexivity.
    + destruct (d !! (hash ++ ".img")) eqn:E; [|done].
      assert (false = true) by (apply Hl; by eexists). discriminate.
Qed.

Lemma GetCachedImagePath_finds_witness :
  (exists t, client.GetCachedImagePath Scenario.cache Scenario.image_hash "bmc"
               Scenario.bmc_cached
             = (Some (Ok ("/tmp/tpi-cache/" ++ Scenario.image_hash ++ ".img")),
                Scenario.bmc_cached, t)) /\
  (exists t, client.GetCachedImagePath Scenario.cache Scenario.image_hash "bmc"
               Scenario.fresh
             = (Some (Ok ""), Scenario.fresh, t)).
Proof.
  split.
  - destruct (GetCachedImagePath_finds Scenario.cache Scenario.image_hash "bmc"
                Scenario.bmc_cached (or_intror eq_refl) eq_refl) as (t & H & _).
    exists t. exact H.
  - destruct (GetCachedImagePath_finds Scenario.cache Scenario.image_hash "bmc"
                Scenario.fresh (or_intror eq_refl) eq_refl) as (t & H & _).
    exists t. exact H.
Defined.

(** X6. A store into the local cache that returns an error leaves no
    partial entry behind: either the disk is as it was, or the copy failed
    ("failed to copy to cache"), and then the entry's file has been
    removed. The BMC is untouched. *)
Theorem cacheLocally_failure_leaves_no_partial c src hash w e w1 t :
  client.CacheImage c src hash "local" w = (Some (Err e), w1, t) ->
  w_bmc w1 = w_bmc w /\
  (w_fs w1 = w_fs w \/
   (w_fs w1 = delete (cache_path c hash "local") (w_fs w) /\
    cache_entry c hash "local" w1 = None /\
    exists inner, e = Wrapf "failed to copy to cache: " inner)).
Proof.
  change (client.CacheImage c src hash "local" w)
    with (client.cacheLocally c src hash w).
  unfold client.cacheLocally, try, bind, cache_entry, cache_path. simpl.
  set (dest := filepath.Join [client.localDir c; hash ++ ".img"]).
  rewrite Stat_eq.
  destruct (next_fault w) eqn:F1; [|destruct (w_fs w !! dest) eqn:E1]; simpl.
  2: discriminate.
  all: rewrite Open_eq;
    destruct (next_fault (after_fault w)) eqn:F2;
      [|destruct (w_fs (after_fault w) !! src) eqn:E2]; simpl.
  all: try (intros [= <- <- <-]; rewrite ?after_fault_bmc, ?after_fault_fs; by auto).
  all: rewrite Create_eq;
    destruct (next_fault (after_fault (after_fault w))) eqn:F3; simpl.
  all: try (intros [= <- <- <-]; rewrite ?after_fault_bmc, ?after_fault_fs; by auto).
  all: rewrite Copy_eq; simpl.
  all: match goal with |- context [next_fault ?x] => destruct (next_fault x) eqn:F4 end;
    simpl; try discriminate.
  all: intros [= <- <- <-]; simpl;
    repeat (progress (simpl; rewrite ?after_fault_bmc, ?after_fault_fs));
    (split; [done|]); right;
    rewrite delete_insert_eq, lookup_delete_eq; split; [done|]; split; [done|];
    by eexists.
Qed.

Lemma cacheLocally_failure_leaves_no_partial_witness :
  let w := Scenario.with_faults [None; None; None; Some "no space left on device"]
             Scenario.fresh in
  let run := client.CacheImage Scenario.cache "/images/local.img" Scenario.image_hash
               "local" w in
  outcome run
  = Some (Err (Wrapf "failed to copy to cache: " (LibError "no space left on device"))) /\
  cache_entry Scenario.cache Scenario.image_hash "local" (world_of run) = None /\
  w_fs (world_of run) = w_fs w.
Proof.
  intros w run.
  assert (run = (Some (Err (Wrapf "failed to copy to cache: "
                              (LibError "no space left on device"))),
                 world_of run, events run)) as Hrun by (vm_compute; reflexivity).
  destruct (cacheLocally_failure_leaves_no_partial _ _ _ _ _ _ _ Hrun)
    as (_ & [Hsame | (Hdel & Hnone & _)]).
  - split; [by rewrite Hrun|]. split; [vm_compute; reflexivity | exact Hsame].
  - split; [by rewrite Hrun|]. split; [exact Hnone|].
    rewrite Hdel. apply delete_id. vm_compute. reflexivity.
Defined.

Lemma rm_cache_eq w :
  TPI.ExecuteCommand ("rm -rf " ++ client.bmcCacheDir) w =
  match next_fault w with
  | Some m => (Some (Err (LibError m)), after_fault w,
               [EvExecuteCommand ("rm -rf " ++ client.bmcCacheDir)])
  | None =>
      (Some (Ok ""),
       set_bmc (filter (fun kv => negb (String.eqb kv.1 client.bmcCacheDir) &&
                                  negb (String.prefix (client.bmcCacheDir ++ "/") kv.1))
                       (w_bmc w)) (after_fault w),
       [EvExecuteCommand ("rm -rf " ++ client.bmcCacheDir)])
  end.
Proof.
  unfold TPI.ExecuteCommand. rewrite external_eq. destruct (next_fault w); [done|].
  unfold bind, get_world, modify, ret, client.bmcCacheDir. simpl.
  by rewrite after_fault_bmc.
Qed.

(** X8. CleanBMCCache runs the one command "rm -rf /tmp/tpi-cache" and
    leaves the local disk alone. When the command fails, the error is
    wrapped as "failed to clean BMC cache: ..." and the BMC is as before.
    When it succeeds, no hash has an entry in the BMC cache any more, a
    lookup of any hash misses, and every directory of the BMC outside the
    cache directory is as before. *)
Theorem CleanBMCCache_empties c w :
  let run := client.CleanBMCCache c w in
  events run = [EvExecuteCommand "rm -rf /tmp/tpi-cache"] /\
  w_fs (world_of run) = w_fs w /\
  (forall m, next_fault w = Some m ->
     outcome run = Some (Err (Wrapf "failed to clean BMC cache: " (LibError m))) /\
     w_bmc (world_of run) = w_bmc w) /\
  (outcome run = Some (Ok tt) ->
     (forall hash, cache_entry c hash "bmc" (world_of run) = None) /\
     (forall hash, next_fault (world_of run) = None ->
        outcome (client.GetCachedImagePath c hash "bmc" (world_of run)) = Some (Ok "")) /\
     (forall dir, dir <> client.bmcCacheDir ->
        String.prefix (client.bmcCacheDir ++ "/") dir = false ->
        w_bmc (world_of run) !! dir = w_bmc w !! dir)).
Proof.
  cbv zeta. unfold client.CleanBMCCache, try, bind, client.ExecuteCommand.
  rewrite rm_cache_eq. unfold outcome, world_of, events.
  destruct (next_fault w) eqn:F; simpl.
  - split; [done|]. split; [by rewrite after_fault_fs|]. split; [|discriminate].
    intros m [= <-]. by rewrite after_fault_bmc.
  - split; [done|]. split; [by rewrite after_fault_fs|]. split; [discriminate|].
    intros _.
    set (kept := filter _ (w_bmc w)).
    assert (kept !! client.bmcCacheDir = None) as Hgone.
    { subst kept. apply map_lookup_filter_None. right. intros d _ H.
      vm_compute in H. destruct H. }
    split; [|split].
    + intros hash. unfold cache_entry. simpl.
      change ("/tmp/tpi-cache") with client.bmcCacheDir. by rewrite Hgone.
    + intros hash Hf. unfold client.GetCachedImagePath. simpl.
      rewrite getBMCCachePath_eq, Hf. simpl. by rewrite Hgone.
    + intros dir Hne Hpre. subst kept.
      destruct (w_bmc w !! dir) as [d|] eqn:E.
      * apply map_lookup_filter_Some. split; [done|]. cbn [fst].
        rewrite Hpre. apply String.eqb_neq in Hne. by rewrite Hne.
      * apply map_lookup_filter_None. by left.
Qed.

(* ===================================================================== *)
(** ** Compression formats                                               *)
(* ===================================================================== *)

Lemma try_wrap_not_err {A B} (m : M (res A)) f (k : A -> M (res B)) w e0 :
  (forall e, outcome (m w) = Some (Err e) -> f e <> e0) ->
  (forall a w', outcome (k a w') <> Some (Err e0)) ->
  outcome (try m f k w) <> Some (Err e0).
Proof.
  intros Hf Hk. unfold try, bind, outcome in *.
  destruct (m w) as [[[[a|e]|] w1] t1]; simpl in *.
  - specialize (Hk a w1). by destruct (k a w1) as [[r w2] t2].
  - intros [= E]. by apply (Hf e).
  - discriminate.
Qed.

Lemma app_not_self (s t : string) : t <> "" -> s ++ t <> s.
Proof.
  intros Ht E. assert (String.length (s ++ t) = String.length s) as H by (by rewrite E).
  rewrite length_app_string in H. destruct t; [done|]. simpl in H. lia.
Qed.

Section Compression.
Context {L : Libs}.

Lemma detectCompression_range url contentType :
  let c := client.detectCompression url contentType in
  c = "" \/ c = "xz" \/ c = "gz" \/ c = "zip".
Proof.
  cbv zeta. unfold client.detectCompression.
  repeat match goal with |- context [if ?b then _ else _] => destruct b end; auto.
Qed.

Lemma Open_not_Errorf path w m :
  outcome (os.Open path w) <> Some (Err (Errorf m)).
Proof.
  rewrite Open_eq. destruct (next_fault w); [|destruct (w_fs w !! path)]; discriminate.
Qed.

Lemma Create_not_Errorf path w m :
  outcome (os.Create path w) <> Some (Err (Errorf m)).
Proof. rewrite Create_eq. destruct (next_fault w); discriminate. Qed.

Lemma decompress_supported path c w x :
  c = "xz" \/ c = "gz" \/ c = "zip" ->
  outcome (client.decompress path c w) <> Some (Err (unsupported x)).
Proof.
  intros Hc. unfold client.decompress, unsupported.
  set (dst := if String.eqb _ path then _ else _). clearbody dst.
  destruct (String.eqb_spec c "xz") as [_|N1];
    [|destruct (String.eqb_spec c "gz") as [_|N2];
      [|destruct (String.eqb_spec c "zip") as [_|N3]]].
  - unfold client.decompressXZ.
    apply try_id_not_err; [apply Open_not_Errorf|]. intros srcFile w1.
    apply bind_not_err. intros w0 w2.
    destruct (xz_NewReader _); [|discriminate].
    apply try_id_not_err; [apply Create_not_Errorf|]. intros dstFile w3.
    apply try_not_err; [discriminate|]. intros _ w4. discriminate.
  - unfold client.decompressGzip.
    apply try_id_not_err; [apply Open_not_Errorf|]. intros srcFile w1.
    apply bind_not_err. intros w0 w2.
    destruct (gzip_NewReader _); [|discriminate].
    apply try_id_not_err; [apply Create_not_Errorf|]. intros dstFile w3.
    apply try_not_err; [discriminate|]. intros _ w4. discriminate.
  - unfold client.decompressZip.
    apply try_not_err; [discriminate|]. intros archive w1.
    apply bind_not_err. intros w0 w2.
    destruct (zip_OpenReader _) as [[|[reader|] files]|]; try discriminate.
    apply try_id_not_err; [apply Create_not_Errorf|]. intros dstFile w3.
    apply try_not_err; [discriminate|]. intros _ w4. discriminate.
  - destruct Hc as [-> | [-> | ->]]; congruence.
Qed.

(** X3. detectCompression returns "", "xz", "gz" or "zip" and nothing
    else, and decompress has a branch for each of the three formats: the
    error "unsupported compression" of its last branch never comes out of
    decompress on a detected format, and never out of DownloadImage. *)
Theorem detectCompression_supported :
  (forall url contentType,
     let c := client.detectCompression url contentType in
     c = "" \/ c = "xz" \/ c = "gz" \/ c = "zip") /\
  (forall url contentType path w x,
     let c := client.detectCompression url contentType in
     c <> "" -> outcome (client.decompress path c w) <> Some (Err (unsupported x))) /\
  (forall url opts w x,
     outcome (client.DownloadImage url opts w)
     <> Some (Err (Wrapf "failed to decompress: " (unsupported x)))).
Proof.
  split; [apply detectCompression_range|]. split.
  { intros url contentType path w x c Hc. apply decompress_supported.
    destruct (detectCompression_range url contentType) as [E | E]; [done | exact E]. }
  intros url opts w x. unfold client.DownloadImage, unsupported.
  apply try_id_not_err.
  { unfold client.destinationDir. destruct (String.eqb _ "").
    - apply try_not_err; [discriminate|]. intros d w1. discriminate.
    - discriminate. }
  intros destDir w1. destruct (negb (url_ok url)); [discriminate|].
  apply try_not_err; [discriminate|]. intros resp w2.
  destruct (negb (StatusCode resp =? http.StatusOK)); [discriminate|].
  apply try_not_err; [discriminate|]. intros downloadFile w3.
  apply try_not_err; [discriminate|]. intros _ w4.
  apply try_id_not_err.
  { destruct (sne _ "") eqn:Es; [|discriminate].
    apply try_wrap_not_err.
    - intros e He [= ->]. revert He. apply decompress_supported.
      apply sne_true in Es.
      destruct (detectCompression_range url (ContentType resp)) as [E | E];
        [done | exact E].
    - intros finalPath w5. apply bind_not_err. intros _ w6. discriminate. }
  intros finalPath w5.
  apply try_not_err; [discriminate|]. intros sha256Hash w6.
  destruct (_ && _); [|discriminate].
  apply bind_not_err. intros _ w7. discriminate.
Qed.

End Compression.

(* ===================================================================== *)
(** ** decompress                                                        *)
(* ===================================================================== *)

Section Decompress.
Context {L : Libs}.

(** After the source is open and its decoder found: create, copy. *)
Ltac stream_to_file H :=
  let E := fresh "E" in
  destruct (try _ _ _ _) as [[r wb] tc] eqn:E; injection H as -> -> <-;
  let Hc := fresh "Hc" in let Hd := fresh "Hd" in
  apply try_inv_ok in E as (dstFile & wc & td & te & Hc & E & ->);
  rewrite Create_eq in Hc; destruct (next_fault _); [discriminate|];
  injection Hc as <- <- <-;
  apply try_inv_ok in E as (u & wd & tf & tg & Hd & E & ->);
  rewrite Copy_eq in Hd; destruct (next_fault _); [discriminate|];
  injection E as <- <- <-;
  match goal with
  | Hd : context [match ?reader with FileReader _ => _ | StreamReader _ _ => _ end] |- _ =>
      destruct reader as [p0|data ok]; injection Hd as _ <- <-; simpl;
      rewrite lookup_insert_eq; (split; [reflexivity|]); (split; by eexists)
  end.

Lemma decompress_out path compression w out w' t :
  client.decompress path compression w = (Some (Ok out), w', t) ->
  out = (if String.eqb (strings.TrimSuffix path ("." ++ compression)) path
         then path ++ ".decompressed"
         else strings.TrimSuffix path ("." ++ compression)) /\
  is_Some (w_fs w' !! out) /\ is_Some (w_fs w !! path).
Proof.
  unfold client.decompress.
  set (dst := if String.eqb _ path then _ else _). clearbody dst.
  destruct (String.eqb compression "xz"); [|destruct (String.eqb compression "gz");
    [|destruct (String.eqb compression "zip"); [|discriminate]]].
  - unfold client.decompressXZ. intros H.
    apply try_inv_ok in H as (srcFile & wa & ta & tb & Ha & H & ->).
    rewrite Open_eq in Ha.
    destruct (next_fault w); [discriminate|].
    destruct (w_fs w !! path) eqn:Ep; [|discriminate]. injection Ha as <- <- <-.
    unfold bind, get_world in H. simpl in H.
    destruct (xz_NewReader _) as [reader|]; [|discriminate].
    stream_to_file H.
  - unfold client.decompressGzip. intros H.
    apply try_inv_ok in H as (srcFile & wa & ta & tb & Ha & H & ->).
    rewrite Open_eq in Ha.
    destruct (next_fault w); [discriminate|].
    destruct (w_fs w !! path) eqn:Ep; [|discriminate]. injection Ha as <- <- <-.
    unfold bind, get_world in H. simpl in H.
    destruct (gzip_NewReader _) as [reader|]; [|discriminate].
    stream_to_file H.
  - unfold client.decompressZip. intros H.
    apply try_inv_ok in H as (archive & wa & ta & tb & Ha & H & ->).
    rewrite Open_eq in Ha.
    destruct (next_fault w); [discriminate|].
    destruct (w_fs w !! path) eqn:Ep; [|discriminate]. injection Ha as <- <- <-.
    unfold bind, get_world in H. simpl in H.
    destruct (zip_OpenReader _) as [[|[reader|] files]|]; try discriminate.
    stream_to_file H.
Qed.

(** X4. decompress, when it succeeds, returns a path different from
    its input: the input path without its suffix "." + compression, or
    the input path with ".decompressed" appended. The output file exists
    afterwards; the input file existed and no file but the output has
    changed (the caller removes the input); the BMC is untouched. *)
Theorem decompress_writes_beside path compression w out w' t :
  client.decompress path compression w = (Some (Ok out), w', t) ->
  out <> path /\
  (out = strings.TrimSuffix path ("." ++ compression) \/
   out = path ++ ".decompressed") /\
  is_Some (w_fs w' !! out) /\
  is_Some (w_fs w !! path) /\
  (forall p, p <> out -> w_fs w' !! p = w_fs w !! p) /\
  w_bmc w' = w_bmc w.
Proof.
  intros H. destruct (decompress_out _ _ _ _ _ _ H) as (Hout & Hnew & Hsrc).
  destruct (decompress_frame _ _ _ _ _ _ H) as (Hb & Hf).
  assert (out <> path) as Hne.
  { rewrite Hout. destruct (String.eqb_spec (strings.TrimSuffix path ("." ++ compression)) path).
    - by apply app_not_self.
    - done. }
  split; [exact Hne|]. split.
  { rewrite Hout. destruct (String.eqb _ path); auto. }
  repeat (split; [done|]). done.
Qed.

End Decompress.

Lemma decompress_writes_beside_witness :
  let w := set_fs {[ "/d/a.img.xz" := "XZ:abc" ]} Scenario.fresh in
  let run := client.decompress (L := Scenario.libs) "/d/a.img.xz" "xz" w in
  outcome run = Some (Ok "/d/a.img") /\
  w_fs (world_of run) !! "/d/a.img" = Some "abc" /\
  w_fs (world_of run) !! "/d/a.img.xz" = Some "XZ:abc".
Proof.
  intros w run.
  assert (run = (Some (Ok "/d/a.img"), world_of run, events run)) as Hrun
      by (vm_compute; reflexivity).
  destruct (decompress_writes_beside (L := Scenario.libs) _ _ _ _ _ _ Hrun)
    as (Hne & _ & _ & _ & Hf & _).
  split; [by rewrite Hrun|]. split; [vm_compute; reflexivity|].
  rewrite (Hf "/d/a.img.xz") by (intros E; by apply Hne). vm_compute. reflexivity.
Defined.

(* ===================================================================== *)
(** ** The provider                                                      *)
(* ===================================================================== *)

(** X21. provider.Configure hands the same client to data sources and
    resources, and hands one over exactly when it reports no error; a
    missing host (neither configured nor in TURINGPI_HOST) is an error.
    The client it hands over was accepted by the library for the resolved
    host, user name and password (configuration, else environment, else
    "root" / "turing"); its host is the resolved, non-empty host; its SSH
    user and password are the configured ones, else the resolved user name
    and password, and are never empty; its SSH port is the configured
    one, else 22, and never 0. *)
Theorem Configure_client Getenv tpi_NewClient req :
  let config := provider.Config req in
  let resp := provider.Configure Getenv tpi_NewClient req in
  let host := setting (ValueString (provider.Host config)) (Getenv "TURINGPI_HOST") "" in
  let username :=
    setting (ValueString (provider.Username config)) (Getenv "TURINGPI_USERNAME") "root" in
  let password :=
    setting (ValueString (provider.Password config)) (Getenv "TURINGPI_PASSWORD")
            "turing" in
  provider.DataSourceData resp = provider.ResourceData resp /\
  (is_Some (provider.ResourceData resp)
   <-> HasError (provider.Diagnostics resp) = false) /\
  (host = "" -> HasError (provider.Diagnostics resp) = true) /\
  (forall c, provider.ResourceData resp = Some c ->
     tpi_NewClient host username password = None /\
     client.Host c = host /\ host <> "" /\
     client.SSHUser c = setting (ValueString (provider.SSHUser config)) username "root" /\
     client.SSHUser c <> "" /\
     client.SSHPassword c
     = setting (ValueString (provider.SSHPassword config)) password "turing" /\
     client.SSHPassword c <> "" /\
     client.SSHPort c <> 0 /\
     (ValueInt64 (provider.SSHPort config) = 0 -> client.SSHPort c = 22) /\
     (ValueInt64 (provider.SSHPort config) <> 0 ->
      client.SSHPort c = ValueInt64 (provider.SSHPort config))).
Proof.
  cbv zeta. unfold provider.Configure, client.NewClient, setting.
  set (cfg := provider.Config req).
  destruct (HasError (provider.ConfigDiags req)) eqn:HE; cbn [provider.Diagnostics
    provider.ResourceData provider.DataSourceData].
  { split; [done|]. split; [split; [by intros [x [=]] | by rewrite HE]|].
    split; [by rewrite HE | by intros c [=]]. }
  set (h0 := String.eqb (ValueString (provider.Host cfg)) "").
  set (host := if h0 then Getenv "TURINGPI_HOST" else ValueString (provider.Host cfg)).
  assert ((if h0 then if String.eqb (Getenv "TURINGPI_HOST") "" then ""
                      else Getenv "TURINGPI_HOST"
           else ValueString (provider.Host cfg)) = host) as ->.
  { subst host h0. destruct (String.eqb_spec (ValueString (provider.Host cfg)) "");
      [|done]. by destruct (String.eqb_spec (Getenv "TURINGPI_HOST") ""). }
  set (user := if String.eqb (if String.eqb (ValueString (provider.Username cfg)) ""
                              then Getenv "TURINGPI_USERNAME"
                              else ValueString (provider.Username cfg)) ""
               then "root"
               else if String.eqb (ValueString (provider.Username cfg)) ""
                    then Getenv "TURINGPI_USERNAME"
                    else ValueString (provider.Username cfg)).
  assert ((if String.eqb (ValueString (provider.Username cfg)) ""
           then if String.eqb (Getenv "TURINGPI_USERNAME") "" then "root"
                else Getenv "TURINGPI_USERNAME"
           else ValueString (provider.Username cfg)) = user /\ user <> "") as [-> Hu].
  { subst user. destruct (String.eqb_spec (ValueString (provider.Username cfg)) "").
    - destruct (String.eqb_spec (Getenv "TURINGPI_USERNAME") ""); by split.
    - destruct (String.eqb_spec (ValueString (provider.Username cfg)) ""); by split. }
  set (pass := if String.eqb (if String.eqb (ValueString (provider.Password cfg)) ""
                              then Getenv "TURINGPI_PASSWORD"
                              else ValueString (provider.Password cfg)) ""
               then "turing"
               else if String.eqb (ValueString (provider.Password cfg)) ""
                    then Getenv "TURINGPI_PASSWORD"
                    else ValueString (provider.Password cfg)).
  assert ((if String.eqb (ValueString (provider.Password cfg)) ""
           then if String.eqb (Getenv "TURINGPI_PASSWORD") "" then "turing"
                else Getenv "TURINGPI_PASSWORD"
           else ValueString (provider.Password cfg)) = pass /\ pass <> "") as [-> Hp].
  { subst pass. destruct (String.eqb_spec (ValueString (provider.Password cfg)) "").
    - destruct (String.eqb_spec (Getenv "TURINGPI_PASSWORD") ""); by split.
    - destruct (String.eqb_spec (ValueString (provider.Password cfg)) ""); by split. }
  clearbody user pass.
  destruct (String.eqb_spec host "") as [Eh|Nh].
  { rewrite HasError_AddError. cbn [provider.Diagnostics provider.ResourceData
      provider.DataSourceData].
    split; [done|]. split; [split; [by intros [x [=]] | by rewrite HasError_AddError]|].
    split; [by rewrite HasError_AddError | by intros c [=]]. }
  rewrite HE.
  destruct (tpi_NewClient host user pass) eqn:EN; cbn [provider.Diagnostics
    provider.ResourceData provider.DataSourceData].
  { split; [done|]. split; [split; [by intros [x [=]] | by rewrite HasError_AddError]|].
    split; [done | by intros c [=]]. }
  split; [done|]. split; [split; [done | by eexists]|]. split; [done|].
  intros c [= <-]. cbn [client.Host client.SSHUser client.SSHPassword client.SSHPort].
  split; [done|]. split; [done|]. split; [done|].
  split.
  { destruct (String.eqb_spec (ValueString (provider.SSHUser cfg)) ""); [|done].
    by destruct (String.eqb_spec user ""). }
  split.
  { by destruct (String.eqb_spec (ValueString (provider.SSHUser cfg)) ""). }
  split.
  { destruct (String.eqb_spec (ValueString (provider.SSHPassword cfg)) ""); [|done].
    by destruct (String.eqb_spec pass ""). }
  split.
  { by destruct (String.eqb_spec (ValueString (provider.SSHPassword cfg)) ""). }
  destruct (Z.eqb_spec (ValueInt64 (provider.SSHPort cfg)) 0) as [E0|N0].
  - split; [done|]. split; [done | by intros]. 
  - split; [done|]. split; [by intros | done].
Qed.

(* ===================================================================== *)
(** ** The cache directory; what a store touches                         *)
(* ===================================================================== *)

Section Init.
Context {L : Libs}.

(** X9. executeFlash initialises the image cache before it looks at the
    plan, also for a plan with cache "none": without a home directory the
    run fails with "failed to initialize cache: failed to get home
    directory: ..." after the one call of os.UserHomeDir and nothing else;
    when the cache directory cannot be created it fails with "failed to
    create cache directory"; otherwise every run starts with the lookup of
    the home directory and the creation of
    <home>/.cache/terraform-provider-turingpi. *)
Theorem executeFlash_needs_cache_directory r plan w :
  let run := node_flash.executeFlash r plan w in
  (w_home w = None ->
     run = (Some (Err (Wrapf "failed to initialize cache: "
                         (Wrapf "failed to get home directory: "
                            (LibError "$HOME is not defined")))),
            w, [EvUserHomeDir])) /\
  (forall home m, w_home w = Some home -> next_fault w = Some m ->
     let dir := filepath.Join [home; ".cache"; "terraform-provider-turingpi"] in
     run = (Some (Err (Wrapf "failed to initialize cache: "
                         (Wrapf "failed to create cache directory: "
                            (PathError "mkdir" dir (EIO m))))),
            after_fault w, [EvUserHomeDir; EvMkdirAll dir])) /\
  (forall home, w_home w = Some home -> next_fault w = None ->
     exists rest,
       events run
       = (EvUserHomeDir
          :: EvMkdirAll (filepath.Join [home; ".cache"; "terraform-provider-turingpi"])
          :: rest)%list).
Proof.
  cbv zeta. unfold node_flash.executeFlash, client.NewImageCache.
  split; [|split].
  - intros Hh. unfold try at 1. unfold bind at 1. unfold try at 1. unfold bind at 1.
    rewrite UserHomeDir_eq, Hh. reflexivity.
  - intros home m Hh Hf. unfold try at 1. unfold bind at 1. unfold try at 1.
    unfold bind at 1. rewrite UserHomeDir_eq, Hh. unfold try at 1. unfold bind at 1.
    rewrite MkdirAll_eq, Hf. reflexivity.
  - intros home Hh Hf.
    set (dir := filepath.Join [home; ".cache"; "terraform-provider-turingpi"]).
    assert (client.NewImageCache (node_flash.r_client r) w
            = (Some (Ok {| client.cache_client := node_flash.r_client r;
                           client.localDir := dir |}), after_fault w,
               [EvUserHomeDir; EvMkdirAll dir])) as EN.
    { unfold client.NewImageCache, try, bind. rewrite UserHomeDir_eq, Hh.
      rewrite MkdirAll_eq, Hf. reflexivity. }
    change (exists rest,
              events (try (client.NewImageCache (node_flash.r_client r))
                        (Wrapf "failed to initialize cache: ")
                        (fun cache => try (node_flash.resolveImage cache plan)
                                        (fun err => err)
                                        (fun img => node_flash.dispatchFlash r plan img)) w)
              = (EvUserHomeDir :: EvMkdirAll dir :: rest)%list).
    rewrite (try_ok _ _ _ _ _ _ _ EN), events_prepend. by eexists.
Qed.

End Init.

(** X7. CacheImage, whatever it returns, touches the entry of the hash
    (a file name: no ['/'] in it) and nothing else: every local file
    other than the entry's file is as before (the source image with it,
    unless the source path is that of the entry itself),
    every directory of the BMC other than the cache directory is as
    before; with a location other than "local" the disk is unchanged,
    with one other than "bmc" the BMC is. *)
Theorem CacheImage_touches_only_entry c localPath hash location w :
  no_slash hash = true ->
  let run := client.CacheImage c localPath hash location w in
  (forall p, p <> cache_path c hash "local" ->
             w_fs (world_of run) !! p = w_fs w !! p) /\
  (forall dir, dir <> client.bmcCacheDir ->
               w_bmc (world_of run) !! dir = w_bmc w !! dir) /\
  (location <> "local" -> w_fs (world_of run) = w_fs w) /\
  (location <> "bmc" -> w_bmc (world_of run) = w_bmc w).
Proof.
  intros Hh. cbv zeta. unfold client.CacheImage, client.CacheLocationLocal,
    client.CacheLocationBMC, client.CacheLocationNone.
  destruct (String.eqb_spec location "local") as [->|Nl].
  { destruct (cacheLocally_sound c localPath hash w) as (_ & _ & Hb & _).
    split; [|split; [by intros; rewrite Hb | split; [done | by intros]]].
    intros p Hp. unfold world_of, client.cacheLocally, try, bind, cache_path in *.
    simpl in Hp. set (dest := filepath.Join [client.localDir c; hash ++ ".img"]) in *.
    rewrite Stat_eq.
    destruct (next_fault w) eqn:F1; [|destruct (w_fs w !! dest) eqn:E1]; simpl.
    2: by rewrite after_fault_fs.
    all: rewrite Open_eq;
      destruct (next_fault (after_fault w)) eqn:F2;
        [|destruct (w_fs (after_fault w) !! localPath) eqn:E2]; simpl;
      rewrite ?after_fault_fs; try done.
    all: rewrite Create_eq;
      destruct (next_fault (after_fault (after_fault w))) eqn:F3; simpl;
      rewrite ?after_fault_fs; try done.
    all: rewrite Copy_eq; simpl.
    all: match goal with |- context [next_fault ?x] => destruct (next_fault x) eqn:F4 end;
      simpl;
      repeat (progress (simpl; rewrite ?after_fault_fs));
      rewrite ?lookup_delete_ne, ?lookup_insert_ne by done; done. }
  destruct (String.eqb_spec location "bmc") as [->|Nb].
  { destruct (cacheToBMC_sound c localPath hash w Hh) as (_ & _ & Hf & _).
    split; [by intros; rewrite Hf|]. split; [|split; [done | by intros]].
    intros dir Hd.
    unfold world_of, client.cacheToBMC, try, bind, client.ExecuteCommand.
    fold (remote_path hash). rewrite mkdir_cache_eq.
    destruct (next_fault w) eqn:F1; simpl; [by rewrite after_fault_bmc|].
    set (w1 := match w_bmc w !! client.bmcCacheDir with
               | Some _ => after_fault w
               | None => set_bmc (<[client.bmcCacheDir:=∅]> (w_bmc w)) (after_fault w)
               end).
    assert (w_bmc w1 !! dir = w_bmc w !! dir) as H1.
    { subst w1. destruct (w_bmc w !! client.bmcCacheDir); simpl;
        rewrite ?after_fault_bmc; [done|]. by rewrite lookup_insert_ne. }
    rewrite getBMCCachePath_eq. simpl.
    destruct (next_fault w1) eqn:F2;
      [|destruct (w_bmc w1 !! client.bmcCacheDir) as [d|] eqn:E2;
        [destruct (existsb _ _) eqn:X|]]; simpl.
    2: by rewrite after_fault_bmc.
    all: unfold client.UploadFile; rewrite UploadFile_eq;
      rewrite (split_remote_path _ Hh); rewrite ?after_fault_fs, ?after_fault_bmc.
    all: destruct (next_fault (after_fault w1)) eqn:F3;
      [|destruct (w_fs w1 !! localPath) as [content|] eqn:E3;
        [destruct (w_bmc w1 !! client.bmcCacheDir) as [d'|] eqn:E4|]]; simpl;
      repeat (progress (simpl; rewrite ?after_fault_bmc));
      rewrite ?lookup_insert_ne by done; done. }
  split; [|split; [|split]]; intros; by destruct (String.eqb location "none").
Qed.

Lemma CacheImage_touches_only_entry_witness :
  let run := client.CacheImage Scenario.cache "/images/local.img" Scenario.image_hash
               "local" Scenario.fresh in
  w_fs (world_of run) !! "/images/local.img" = Some "local-image-bytes" /\
  w_bmc (world_of run) = w_bmc Scenario.fresh.
Proof.
  intros run.
  destruct (CacheImage_touches_only_entry Scenario.cache "/images/local.img"
              Scenario.image_hash "local" Scenario.fresh eq_refl)
    as (Hf & _ & _ & Hb).
  split.
  - fold run in Hf. rewrite Hf by (vm_compute; discriminate). reflexivity.
  - apply Hb. discriminate.
Defined.
